(** * eurusd-quant-engine: the signal-to-execution handoff

  A shallow embedding of
    - [execution_live/intent_sink.py]        (modules [Sink], [SinkRun], with
                                              the [uuid.uuid4] it names its
                                              entries by in module [Uuid]),
    - [execution_live/intent_schema.py] and
      [execution_live/intent_serializer.py]  (modules [Datetime], [Json],
                                              [IntentSerializer]),
    - [hypotheses/base.py]                   (module [Base]),
    - [hypotheses/competition/competition_hail_mary.py] (module [HailMary]),
    - [quant/telebot/main.py], [find_latest_model]      (module [Telebot]),
  and a reader of JSON texts (module [JsonRead]) against which the output of
  the serializer is checked, followed by the properties of the handoff that
  the specification states. *)

From Stdlib Require Import ZArith NArith String Ascii List Floats Lia.
From stdpp Require Import gmap strings list fin_maps sorting.

Local Open Scope Z_scope.

(* ===================================================================== *)
(** ** Python runtime fragments shared by all modules                     *)
(* ===================================================================== *)

Module Py.

(** The exceptions the embedded code can raise or let through. *)
Inductive Exn : Type :=
| FileNotFoundError
| NotADirectoryError
| IsADirectoryError
| FileExistsError
| OSError
| ZeroDivisionError
| IndexError
| AttributeError
| ValidationError
| TypeError
| OtherError (msg : string).

(** A computation either returns a value or raises. *)
Inductive result (A : Type) : Type :=
| Ok (a : A)
| Raise (e : Exn).
Arguments Ok {A} a.
Arguments Raise {A} e.

Definition bind {A B : Type} (k : A -> result B) (m : result A) : result B :=
  match m with
  | Ok a => k a
  | Raise e => Raise e
  end.

#[global] Instance result_ret : MRet result := fun A a => Ok a.
#[global] Instance result_bind : MBind result := fun A B k m => bind k m.

Definition is_ok {A : Type} (m : result A) : bool :=
  match m with Ok _ => true | Raise _ => false end.

(** [seq[i]] for a Python integer index: negative indices count from the
    end, anything outside [-len, len) raises IndexError. *)
Definition index {A : Type} (l : list A) (i : Z) : result A :=
  let n := Z.of_nat (length l) in
  let j := if i <? 0 then i + n else i in
  if (j <? 0) || (n <=? j) then Raise IndexError
  else match nth_error l (Z.to_nat j) with
       | Some x => Ok x
       | None => Raise IndexError
       end.

(** Slice bound normalisation of CPython (step 1): a negative bound has
    the length added once, then the bound is clipped into [0, len]. *)
Definition clip_bound (n i : Z) : nat :=
  let j := if i <? 0 then i + n else i in
  Z.to_nat (Z.max 0 (Z.min n j)).

(** [seq[i:]] *)
Definition slice_from {A : Type} (l : list A) (i : Z) : list A :=
  skipn (clip_bound (Z.of_nat (length l)) i) l.

(** [seq[:i]] *)
Definition slice_to {A : Type} (l : list A) (i : Z) : list A :=
  firstn (clip_bound (Z.of_nat (length l)) i) l.

(** [range(a, b)] *)
Definition range (a b : Z) : list Z :=
  map (fun k => a + Z.of_nat k) (seq 0 (Z.to_nat (b - a))).

(** Where the individual characters of a [str] matter (the JSON encoder),
    a [str] is kept as the sequence of its Unicode code points, each in
    [0, 0x10FFFF]; [text s] is the [str] of an ASCII text. *)
Definition text (s : string) : list N := map N_of_ascii (list_ascii_of_string s).

End Py.

(* ===================================================================== *)
(** ** [uuid.uuid4] of the standard library                               *)
(* ===================================================================== *)

Module Uuid.

(** The bits that [UUID.__init__] overwrites: the variant field and the
    version field. *)
Definition variant_field : Z := Z.shiftl 0xc000 48.
Definition version_field : Z := Z.shiftl 0xf000 64.

(** [UUID(bytes=..., version=4)], on the integer [r] that the sixteen bytes
    denote (big-endian, [0 <= r < 2**128]): the variant is set to RFC 4122
    and the version number to 4. *)
Definition uuid4_int (r : Z) : Z :=
  let i := Z.land r (Z.lnot variant_field) in
  let i := Z.lor i (Z.shiftl 0x8000 48) in
  let i := Z.land i (Z.lnot version_field) in
  Z.lor i (Z.shiftl 4 76).

Definition hex_digit (d : Z) : ascii :=
  if d <? 10 then ascii_of_nat (Z.to_nat (48 + d))
  else ascii_of_nat (Z.to_nat (87 + d)).

(** ['%0wx' % n] for a number of at most [w] hexadecimal digits. *)
Fixpoint hex (w : nat) (n : Z) : string :=
  match w with
  | O => EmptyString
  | S w' => String (hex_digit ((n / 16 ^ Z.of_nat w') mod 16)) (hex w' n)
  end.

(** ['%s-%s-%s-%s-%s' % (hex[:8], hex[8:12], hex[12:16], hex[16:20],
    hex[20:])] *)
Definition dashed (h : string) : string :=
  String.substring 0 8 h +:+ "-" +:+ String.substring 8 4 h +:+ "-"
  +:+ String.substring 12 4 h +:+ "-" +:+ String.substring 16 4 h +:+ "-"
  +:+ String.substring 20 (String.length h - 20) h.

(** [str(u)] for the UUID of integer [i] *)
Definition str (i : Z) : string := dashed (hex 32 i).

(** [str(uuid.uuid4())], when [os.urandom(16)] returns the bytes of [r] *)
Definition uuid4 (r : Z) : string := str (uuid4_int r).

(** The 122 bits of a draw that end up in the UUID. *)
Definition kept : Z :=
  Z.land (Z.ones 128) (Z.lnot (Z.lor variant_field version_field)).

Definition random_bits (r : Z) : Z := Z.land r kept.

(** The thirty-two digits of a UUID text. *)
Definition undash (s : string) : string :=
  String.substring 0 8 s +:+ String.substring 9 4 s +:+ String.substring 14 4 s
  +:+ String.substring 19 4 s +:+ String.substring 24 12 s.

End Uuid.

(* ===================================================================== *)
(** ** execution_live/intent_sink.py                                      *)
(* ===================================================================== *)

Module Sink.
Import Py.

(** A [pathlib.Path] is kept as its sequence of components; the empty
    sequence is the root of the file system. *)
Abbreviation Path := (list string).

(** [p / name] *)
Definition div (p : Path) (name : string) : Path := p ++ [name].

(** [p.parent] *)
Definition parent (p : Path) : Path := removelast p.

(** [p.name] *)
Definition name (p : Path) : string := List.last p EmptyString.

Inductive Node : Type :=
| Dir
| File (content : string).

(** The file system: what is stored at each path. *)
Abbreviation FS := (gmap (list string) Node).

Definition node_at (fs : gmap (list string) Node) (p : Path) : option Node :=
  match p with
  | [] => Some Dir
  | _ => fs !! p
  end.

(** What the directory tree demands of [open(p, 'w')] before [p] is
    created or truncated. *)
Definition check_writable (fs : gmap (list string) Node) (p : Path) : result unit :=
  match node_at fs (parent p) with
  | None => Raise FileNotFoundError
  | Some (File _) => Raise NotADirectoryError
  | Some Dir =>
      match node_at fs p with
      | Some Dir => Raise IsADirectoryError
      | _ => Ok tt
      end
  end.

(** [open(p, 'w')] carried out: the file exists and is empty afterwards. *)
Definition open_w (fs : gmap (list string) Node) (p : Path)
  : result (gmap (list string) Node) :=
  _ ← check_writable fs p; Ok (<[p := File EmptyString]> fs).

(** Characters reaching the disk: [chunk] is appended to the file.  How
    much of a text reaches the disk is decided where the text is written
    ([write_text] below, [emit_interrupted], [SinkRun.emit_attempt]). *)
Definition append_chunk (fs : gmap (list string) Node) (p : Path) (chunk : string)
  : result (gmap (list string) Node) :=
  match fs !! p with
  | Some (File c) => Ok (<[p := File (c +:+ chunk)]> fs)
  | Some Dir => Raise IsADirectoryError
  | None => Raise FileNotFoundError
  end.

(** Universal newlines, which reading in text mode applies: [\r\n] and a
    lone [\r] are both read as [\n]. *)
Fixpoint universal_newlines (s : string) : string :=
  match s with
  | EmptyString => EmptyString
  | String c r =>
      if Ascii.eqb c "013" then
        match r with
        | String c' r' =>
            if Ascii.eqb c' "010" then String "010" (universal_newlines r')
            else String "010" (universal_newlines r)
        | EmptyString => String "010" EmptyString
        end
      else String c (universal_newlines r)
  end.

(** [Path.read_text()]: the stored text with universal newlines applied. *)
Definition read_text (fs : gmap (list string) Node) (p : Path) : result string :=
  match node_at fs p with
  | Some (File c) => Ok (universal_newlines c)
  | Some Dir => Raise IsADirectoryError
  | None => Raise FileNotFoundError
  end.

(** [os.rename] of a regular file carried out, with its POSIX behaviour:
    an existing target file is replaced in one step.  [emit] only ever
    renames the regular file it has just written; renaming a directory is
    outside what this model covers and is reported as an error. *)
Definition rename (fs : gmap (list string) Node) (src dst : Path)
  : result (gmap (list string) Node) :=
  match fs !! src with
  | None => Raise FileNotFoundError
  | Some Dir => Raise (OtherError "rename of a directory")
  | Some (File c) =>
      match node_at fs (parent dst) with
      | None => Raise FileNotFoundError
      | Some (File _) => Raise NotADirectoryError
      | Some Dir =>
          match node_at fs dst with
          | Some Dir => Raise IsADirectoryError
          | _ => Ok (<[dst := File c]> (delete src fs))
          end
      end
  end.

(** [Path.mkdir(parents=True, exist_ok=True)]: every missing ancestor is
    created, an existing directory is accepted, a file in the way is an
    error.  [take k p] runs over the ancestors of [p], outermost first. *)
Fixpoint mkdir_prefixes (fs : gmap (list string) Node) (p : Path) (k : nat) (fuel : nat)
  : result (gmap (list string) Node) :=
  match fuel with
  | O => Ok fs
  | S fuel' =>
      let q := take k p in
      match node_at fs q with
      | Some (File _) =>
          if (k <? length p)%nat then Raise NotADirectoryError
          else Raise FileExistsError
      | Some Dir => mkdir_prefixes fs p (S k) fuel'
      | None => mkdir_prefixes (<[q := Dir]> fs) p (S k) fuel'
      end
  end.

Definition mkdir_p (fs : gmap (list string) Node) (p : Path)
  : result (gmap (list string) Node) :=
  mkdir_prefixes fs p 1%nat (length p).

(** The object state of a [FileIntentSink]. *)
Record FileIntentSink : Type := {
  root : Path;
  pending : Path;
  done : Path;
  failed : Path;
}.

(** [FileIntentSink.__init__(root_dir)] *)
Definition init (root_dir : Path) (fs : gmap (list string) Node)
  : result (FileIntentSink * gmap (list string) Node) :=
  let self := {| root := root_dir;
                 pending := div root_dir "pending";
                 done := div root_dir "done";
                 failed := div root_dir "failed" |} in
  fs1 ← mkdir_p fs (pending self);
  fs2 ← mkdir_p fs1 (done self);
  fs3 ← mkdir_p fs2 (failed self);
  Ok (self, fs3).

(** [fname = f"{uuid.uuid4()}.json"], with [token] the text of the UUID
    that [uuid.uuid4()] drew. *)
Definition fname (token : string) : string := token +:+ ".json".

(** [tmp = self.pending / f"{fname}.tmp"] *)
Definition tmp_path (self : FileIntentSink) (token : string) : Path :=
  div (pending self) (fname token +:+ ".tmp").

(** [final = self.pending / fname] *)
Definition final_path (self : FileIntentSink) (token : string) : Path :=
  div (pending self) (fname token).

(** The system calls behind [write_text] and [rename]. *)
Inductive Syscall : Type :=
| SysOpen (p : Path)
| SysWrite (p : Path) (data : string)
| SysRename (src dst : Path).

(** What becomes of a call that the directory tree allows: it is carried
    out, or the operating system fails it for a reason of its own (disk
    full, quota, permissions, I/O error).  A write that fails may already
    have put the first [written] characters of its text on the disk; an
    open or a rename that fails changes nothing. *)
Inductive Verdict : Type :=
| Carried
| Failed (written : nat).

(** The operating system under the sink: its verdict on a call, given the
    disk the call meets. *)
Definition System : Type := gmap (list string) Node -> Syscall -> Verdict.

Section System.

Variable os : System.

(** The caller's view of the verdict: a failed call raises OSError. *)
Definition granted (fs : gmap (list string) Node) (call : Syscall) : result unit :=
  match os fs call with
  | Carried => Ok tt
  | Failed _ => Raise OSError
  end.

(** [Path.write_text(data)]: open for writing, write everything, close. *)
Definition write_text (fs : gmap (list string) Node) (p : Path) (data : string)
  : result (gmap (list string) Node) :=
  fs1 ← open_w fs p;
  _ ← granted fs (SysOpen p);
  _ ← granted fs1 (SysWrite p data);
  append_chunk fs1 p data.

(** [Path.rename(target)] *)
Definition path_rename (fs : gmap (list string) Node) (src dst : Path)
  : result (gmap (list string) Node) :=
  fs1 ← rename fs src dst;
  _ ← granted fs (SysRename src dst);
  Ok fs1.

(** [FileIntentSink.emit(intent_json)], given the UUID text drawn by this
    call. *)
Definition emit (self : FileIntentSink) (token : string) (intent_json : string)
    (fs : gmap (list string) Node) : result (gmap (list string) Node) :=
  let tmp := tmp_path self token in
  let final := final_path self token in
  fs1 ← write_text fs tmp intent_json;
  path_rename fs1 tmp final.

(** A sequence of [emit] calls, each with the UUID text it drew. *)
Fixpoint emit_all (self : FileIntentSink) (calls : list (string * string))
    (fs : gmap (list string) Node) : result (gmap (list string) Node) :=
  match calls with
  | [] => Ok fs
  | (token, intent_json) :: rest =>
      fs1 ← emit self token intent_json fs;
      emit_all self rest fs1
  end.

End System.

(** The points at which a run of [emit] can be cut short before its
    rename (by a signal, a crash, or a write that fails): nothing done yet,
    the temporary file opened, or only part of the text written to it. *)
Inductive Progress : Type :=
| NotStarted
| Opened
| Written (n : nat).

(** The file system left behind by [emit] interrupted at [pr]:
    [Written n] has put the first [n] characters (at most all) on disk. *)
Definition emit_interrupted (self : FileIntentSink) (token : string)
    (intent_json : string) (pr : Progress) (fs : gmap (list string) Node)
  : result (gmap (list string) Node) :=
  let tmp := tmp_path self token in
  match pr with
  | NotStarted => Ok fs
  | Opened => open_w fs tmp
  | Written n =>
      fs1 ← open_w fs tmp;
      append_chunk fs1 tmp (String.substring 0 n intent_json)
  end.

(** The names directly under a directory, as [os.listdir] reports them. *)
Definition listdir (fs : gmap (list string) Node) (d : Path) : gset string :=
  set_map name (filter (fun p => p <> [] /\ parent p = d) (dom fs)).

(** [s.endswith(suffix)] *)
Definition ends_with (suffix s : string) : Prop :=
  exists p, s = p +:+ suffix.

End Sink.


(* ===================================================================== *)
(** ** datetime values and [datetime.isoformat]                           *)
(* ===================================================================== *)

Module Datetime.

(** A [datetime]: the calendar fields, and the UTC offset of its [tzinfo]
    in microseconds east of UTC ([None] for a naive datetime). *)
Record datetime : Type := {
  year : Z;
  month : Z;
  day : Z;
  hour : Z;
  minute : Z;
  second : Z;
  microsecond : Z;
  utcoffset : option Z;
}.

Definition is_leap (y : Z) : bool :=
  (y mod 4 =? 0) && (negb (y mod 100 =? 0) || (y mod 400 =? 0)).

Definition days_in_month (y m : Z) : Z :=
  if m =? 2 then (if is_leap y then 29 else 28)
  else if (m =? 4) || (m =? 6) || (m =? 9) || (m =? 11) then 30
  else 31.

Definition between (lo x hi : Z) : bool := (lo <=? x) && (x <=? hi).

Definition day_us : Z := 86400000000.

(** The field ranges that the [datetime] constructor enforces; a UTC
    offset is strictly between -24h and +24h. *)
Definition validb (d : datetime) : bool :=
  between 1 (year d) 9999 && between 1 (month d) 12
  && between 1 (day d) (days_in_month (year d) (month d))
  && between 0 (hour d) 23 && between 0 (minute d) 59
  && between 0 (second d) 59 && between 0 (microsecond d) 999999
  && match utcoffset d with
     | None => true
     | Some off => (- day_us <? off) && (off <? day_us)
     end.

Definition valid (d : datetime) : Prop := validb d = true.

Definition digit (d : Z) : ascii := ascii_of_nat (48 + Z.to_nat d).

(** [%0wd] for a number of at most [w] digits. *)
Fixpoint pad (w : nat) (n : Z) : string :=
  match w with
  | O => EmptyString
  | S w' => String (digit ((n / 10 ^ Z.of_nat w') mod 10)) (pad w' n)
  end.

(** [_format_time] with [timespec='auto']: the fraction is printed only
    when the microseconds are not zero. *)
Definition format_fraction (us : Z) (rest : string) : string :=
  if us =? 0 then rest else String "." (pad 6 us +:+ rest).

(** [_format_offset]: sign, hours and minutes; seconds and microseconds
    only when they are not zero. *)
Definition format_offset (off : Z) : string :=
  let a := Z.abs off in
  let hh := a / 3600000000 in
  let r := a mod 3600000000 in
  let mm := r / 60000000 in
  let s_us := r mod 60000000 in
  String (if off <? 0 then "-"%char else "+"%char)
    (pad 2 hh +:+ String ":" (pad 2 mm +:+
       (if s_us =? 0 then EmptyString
        else String ":" (pad 2 (s_us / 1000000) +:+
               format_fraction (s_us mod 1000000) EmptyString)))).

Definition format_tz (off : option Z) : string :=
  match off with
  | None => EmptyString
  | Some o => format_offset o
  end.

(** [datetime.isoformat()] *)
Definition isoformat (d : datetime) : string :=
  pad 4 (year d) +:+ String "-" (pad 2 (month d) +:+ String "-" (pad 2 (day d) +:+
  String "T" (pad 2 (hour d) +:+ String ":" (pad 2 (minute d) +:+ String ":"
  (pad 2 (second d) +:+ format_fraction (microsecond d) (format_tz (utcoffset d))))))).

(** The text carries a UTC offset: it ends in [+HH:MM] or [-HH:MM],
    possibly followed by seconds. *)
Definition has_offset_designator (s : string) : bool :=
  let n := String.length s in
  let at_ k :=
    match String.get (n - k) s with
    | Some c => (k <=? n)%nat && (Ascii.eqb c "+" || Ascii.eqb c "-")
    | None => false
    end in
  at_ 6%nat || at_ 9%nat || at_ 16%nat.

(** *** Reading the text back

    The inverse that a consumer applies ([datetime.fromisoformat] on the
    shapes [isoformat] produces). *)

Definition digit_val (c : ascii) : option Z :=
  let k := Z.of_nat (nat_of_ascii c) in
  if (48 <=? k) && (k <=? 57) then Some (k - 48) else None.

Fixpoint parse_digits (w : nat) (acc : Z) (s : string) : option (Z * string) :=
  match w with
  | O => Some (acc, s)
  | S w' =>
      match s with
      | String c r =>
          match digit_val c with
          | Some v => parse_digits w' (10 * acc + v) r
          | None => None
          end
      | EmptyString => None
      end
  end.

Definition expect (c : ascii) (s : string) : option string :=
  match s with
  | String c' r => if Ascii.eqb c c' then Some r else None
  | EmptyString => None
  end.

Definition parse_fraction (s : string) : option (Z * string) :=
  match s with
  | String c r => if Ascii.eqb c "." then parse_digits 6 0 r else Some (0, s)
  | EmptyString => Some (0, s)
  end.

Definition parse_offset (s : string) : option (option Z) :=
  match s with
  | EmptyString => Some None
  | String c r =>
      sign ← (if Ascii.eqb c "+" then Some 1
              else if Ascii.eqb c "-" then Some (-1) else None);
      '(hh, r1) ← parse_digits 2 0 r;
      r2 ← expect ":" r1;
      '(mm, r3) ← parse_digits 2 0 r2;
      match r3 with
      | EmptyString => Some (Some (sign * (hh * 3600000000 + mm * 60000000)))
      | String _ _ =>
          r4 ← expect ":" r3;
          '(ss, r5) ← parse_digits 2 0 r4;
          '(us, r6) ← parse_fraction r5;
          match r6 with
          | EmptyString =>
              Some (Some (sign * (hh * 3600000000 + mm * 60000000
                                  + ss * 1000000 + us)))
          | String _ _ => None
          end
      end
  end.

Definition fromisoformat (s : string) : option datetime :=
  '(y, s1) ← parse_digits 4 0 s;
  s2 ← expect "-" s1;
  '(mo, s3) ← parse_digits 2 0 s2;
  s4 ← expect "-" s3;
  '(d, s5) ← parse_digits 2 0 s4;
  s6 ← expect "T" s5;
  '(h, s7) ← parse_digits 2 0 s6;
  s8 ← expect ":" s7;
  '(mi, s9) ← parse_digits 2 0 s8;
  s10 ← expect ":" s9;
  '(sec, s11) ← parse_digits 2 0 s10;
  '(us, s12) ← parse_fraction s11;
  off ← parse_offset s12;
  Some {| year := y; month := mo; day := d; hour := h; minute := mi;
          second := sec; microsecond := us; utcoffset := off |}.

(** *** The instant a datetime denotes *)

(** [_days_before_year] *)
Definition days_before_year (y : Z) : Z :=
  let p := y - 1 in p * 365 + p / 4 - p / 100 + p / 400.

(** [_days_before_month] *)
Fixpoint days_before_month_from (y : Z) (m : nat) : Z :=
  match m with
  | O => 0
  | S m' => days_before_month_from y m' + days_in_month y (Z.of_nat m)
  end.

(** [toordinal()] *)
Definition toordinal (d : datetime) : Z :=
  days_before_year (year d)
  + days_before_month_from (year d) (Z.to_nat (month d - 1))
  + day d.

(** Microseconds of wall-clock time since 0001-01-01T00:00:00. *)
Definition local_us (d : datetime) : Z :=
  ((((toordinal d - 1) * 24 + hour d) * 60 + minute d) * 60 + second d) * 1000000
  + microsecond d.

(** The instant a datetime denotes, in microseconds of UTC.  An aware
    datetime carries its own offset; a naive one is taken as local time of
    the host that interprets it (as [datetime.timestamp()] does), so its
    instant depends on [host_offset]. *)
Definition instant (host_offset : Z) (d : datetime) : Z :=
  match utcoffset d with
  | Some off => local_us d - off
  | None => local_us d - host_offset
  end.

(** [d.replace(tzinfo=None)] *)
Definition naive (d : datetime) : datetime :=
  {| year := year d; month := month d; day := day d; hour := hour d;
     minute := minute d; second := second d; microsecond := microsecond d;
     utcoffset := None |}.

End Datetime.

(* ===================================================================== *)
(** ** [json.dumps] on the values the serializer hands to it              *)
(* ===================================================================== *)

Module Json.
Import Py.

(** The Python values that occur in [asdict(intent)]. *)
Inductive value : Type :=
| VNone
| VStr (s : list N)
| VFloat (f : float)
| VDatetime (d : Datetime.datetime).

Definition quote_char : ascii := "034"%char.
Definition backslash : ascii := "092"%char.

Definition hex_digit (n : N) : ascii :=
  if (n <? 10)%N then ascii_of_N (48 + n) else ascii_of_N (87 + n).

(** ['\\u{0:04x}'.format(n)], for [n < 0x10000] *)
Definition u_escape (n : N) : string :=
  String backslash
    (String "u"
       (String (hex_digit ((n / 4096) mod 16))
          (String (hex_digit ((n / 256) mod 16))
             (String (hex_digit ((n / 16) mod 16))
                (String (hex_digit (n mod 16)) EmptyString))))).

(** The surrogate pair of a code point above 0xFFFF:
    [n -= 0x10000; s1 = 0xd800 | ((n >> 10) & 0x3ff); s2 = 0xdc00 | (n & 0x3ff)] *)
Definition high_surrogate (c : N) : N :=
  N.lor 0xd800 (N.land (N.shiftr (c - 0x10000) 10) 0x3ff).

Definition low_surrogate (c : N) : N :=
  N.lor 0xdc00 (N.land (c - 0x10000) 0x3ff).

(** One character under [ESCAPE_ASCII]: the quote and the backslash are
    escaped, the named control characters get their short form, the other
    characters from [' '] to ['~'] stand for themselves, and every other
    character is written [\uXXXX], as a surrogate pair when it lies above
    0xFFFF. *)
Definition escape_char (c : N) : string :=
  (if c =? 34 then String backslash (String quote_char EmptyString)
   else if c =? 92 then String backslash (String backslash EmptyString)
   else if c =? 8 then String backslash "b"
   else if c =? 12 then String backslash "f"
   else if c =? 10 then String backslash "n"
   else if c =? 13 then String backslash "r"
   else if c =? 9 then String backslash "t"
   else if (32 <=? c) && (c <=? 126) then String (ascii_of_N c) EmptyString
   else if c <? 0x10000 then u_escape c
   else u_escape (high_surrogate c) +:+ u_escape (low_surrogate c))%N.

Fixpoint escape (s : list N) : string :=
  match s with
  | [] => EmptyString
  | c :: r => escape_char c +:+ escape r
  end.

(** [py_encode_basestring_ascii] *)
Definition encode_str (s : list N) : string :=
  String quote_char (escape s +:+ String quote_char EmptyString).

(** Neither a NaN nor an infinity, by the tests of [floatstr]:
    [o != o], [o == _inf], [o == _neginf]. *)
Definition finite (o : float) : bool :=
  PrimFloat.eqb o o && negb (PrimFloat.eqb o infinity)
  && negb (PrimFloat.eqb o neg_infinity).

(** The UTF-16 code units of a code point, and of a [str]: what the
    [\uXXXX] escapes of its encoding spell out. *)
Definition utf16_units (c : N) : list N :=
  if (c <? 0x10000)%N then [c] else [high_surrogate c; low_surrogate c].

Definition utf16 (s : list N) : list N := flat_map utf16_units s.

(** A Unicode scalar value: a code point that is not a surrogate. *)
Definition scalar_value (c : N) : bool :=
  ((c <? 0xd800) || ((0xdfff <? c) && (c <=? 0x10ffff)))%N.

Section Dumps.

(** [float.__repr__], the shortest decimal text that reads back as the
    same double; CPython's, not this repository's. *)
Variable float_repr : float -> string.

(** [floatstr] of the encoder, with [allow_nan=True]. *)
Definition floatstr (o : float) : string :=
  if negb (PrimFloat.eqb o o) then "NaN"
  else if PrimFloat.eqb o infinity then "Infinity"
  else if PrimFloat.eqb o neg_infinity then "-Infinity"
  else float_repr o.

Definition encode_value (v : value) : result string :=
  match v with
  | VNone => Ok "null"
  | VStr s => Ok (encode_str s)
  | VFloat f => Ok (floatstr f)
  | VDatetime _ => Raise TypeError
  end.

(** The items of a dict, in insertion order, with the separators
    [(",", ":")].  The keys are the field names of the dataclass. *)
Fixpoint dumps_items (items : list (string * value)) : result string :=
  match items with
  | [] => Ok EmptyString
  | (k, v) :: rest =>
      e ← encode_value v;
      match rest with
      | [] => Ok (encode_str (text k) +:+ ":" +:+ e)
      | _ :: _ =>
          r ← dumps_items rest;
          Ok (encode_str (text k) +:+ ":" +:+ e +:+ "," +:+ r)
      end
  end.

(** [json.dumps(data, separators=(",", ":"))] for a dict with string keys. *)
Definition dumps (data : list (string * value)) : result string :=
  items ← dumps_items data;
  Ok ("{" +:+ items +:+ "}").

End Dumps.

End Json.

(* ===================================================================== *)
(** ** execution_live/intent_schema.py, intent_serializer.py              *)
(* ===================================================================== *)

Module IntentSerializer.
Import Py.

(** [Side = Literal["BUY", "SELL"]] *)
Inductive Side : Type := BUY | SELL.

(** [OrderType = Literal["MARKET"]] *)
Inductive OrderType : Type := MARKET.

(** [Mode = Literal["PAPER", "LIVE"]] *)
Inductive Mode : Type := PAPER | LIVE.

Definition Side_str (s : Side) : string :=
  match s with BUY => "BUY" | SELL => "SELL" end.

Definition OrderType_str (o : OrderType) : string :=
  match o with MARKET => "MARKET" end.

Definition Mode_str (m : Mode) : string :=
  match m with PAPER => "PAPER" | LIVE => "LIVE" end.

(** The frozen dataclass [ExecutionIntent]; its [str] fields as sequences
    of code points. *)
Record ExecutionIntent : Type := {
  intent_id : list N;
  timestamp : Datetime.datetime;
  symbol : list N;
  side : Side;
  order_type : OrderType;
  quantity : float;
  stop_loss : option float;
  take_profit : option float;
  time_in_force : list N;
  policy_hash : list N;
  mode : Mode;
}.

Definition optional_float (o : option float) : Json.value :=
  match o with
  | Some x => Json.VFloat x
  | None => Json.VNone
  end.

(** [dataclasses.asdict(intent)]: one item per field, in declaration
    order. *)
Definition asdict (i : ExecutionIntent) : list (string * Json.value) :=
  [ ("intent_id", Json.VStr (intent_id i));
    ("timestamp", Json.VDatetime (timestamp i));
    ("symbol", Json.VStr (symbol i));
    ("side", Json.VStr (text (Side_str (side i))));
    ("order_type", Json.VStr (text (OrderType_str (order_type i))));
    ("quantity", Json.VFloat (quantity i));
    ("stop_loss", optional_float (stop_loss i));
    ("take_profit", optional_float (take_profit i));
    ("time_in_force", Json.VStr (time_in_force i));
    ("policy_hash", Json.VStr (policy_hash i));
    ("mode", Json.VStr (text (Mode_str (mode i)))) ].

(** [data.get(key)] *)
Fixpoint dict_get (data : list (string * Json.value)) (key : string)
  : option Json.value :=
  match data with
  | [] => None
  | (k, v) :: rest => if String.eqb k key then Some v else dict_get rest key
  end.

(** [data[key] = v]: an existing key keeps its place, a new key goes to
    the end. *)
Fixpoint dict_set (data : list (string * Json.value)) (key : string) (v : Json.value)
  : list (string * Json.value) :=
  match data with
  | [] => [(key, v)]
  | (k, v0) :: rest =>
      if String.eqb k key then (k, v) :: rest else (k, v0) :: dict_set rest key v
  end.

Section Serialize.

Variable float_repr : float -> string.

(** [serialize_intent(intent)] *)
Definition serialize_intent (intent : ExecutionIntent) : result string :=
  let data := asdict intent in
  data1 ← match dict_get data "timestamp" with
          | None => Ok data
          | Some Json.VNone => Ok data
          | Some (Json.VDatetime ts) =>
              Ok (dict_set data "timestamp"
                    (Json.VStr (text (Datetime.isoformat ts))))
          | Some _ => Raise AttributeError
          end;
  Json.dumps float_repr data1.

End Serialize.

End IntentSerializer.

(* ===================================================================== *)
(** ** hypotheses/base.py                                                 *)
(* ===================================================================== *)

Module Base.
Import Py.

(** [class IntentType(str, Enum)] *)
Inductive IntentType : Type := BUY | SELL | CLOSE | HOLD.

Definition IntentType_value (t : IntentType) : string :=
  match t with
  | BUY => "BUY"
  | SELL => "SELL"
  | CLOSE => "CLOSE"
  | HOLD => "HOLD"
  end.

(** [class TradeIntent(BaseModel)] *)
Record TradeIntent : Type := {
  type : IntentType;
  size : float;
}.

(** [model_config = ConfigDict(frozen=True)] *)
Definition frozen : bool := true.

(** [TradeIntent(type=..., size=...)]: [size] defaults to 1.0 and is
    validated against [gt=0.0]. *)
Definition TradeIntent_new (t : IntentType) (sz : option float) : result TradeIntent :=
  match sz with
  | None => Ok {| type := t; size := 1%float |}
  | Some s =>
      if PrimFloat.ltb 0%float s then Ok {| type := t; size := s |}
      else Raise ValidationError
  end.

Definition is_hold (self : TradeIntent) : bool :=
  match type self with
  | HOLD => true
  | _ => false
  end.

(** An attribute assignment [intent.<field> = value]. *)
Inductive Assignment : Type :=
| SetType (t : IntentType)
| SetSize (s : float).

(** [TradeIntent.__setattr__]: refused on a frozen model; on a model that
    is not frozen the field would take the new value. *)
Definition setattr (self : TradeIntent) (a : Assignment) : result TradeIntent :=
  if frozen then Raise ValidationError
  else match a with
       | SetType t => Ok {| type := t; size := size self |}
       | SetSize s => Ok {| type := type self; size := s |}
       end.

(** Modelled from the spec: the snapshot, position and clock collaborators
    ([state.market_state], [state.position_state], [clock.clock]) are not in
    this repository's sources.  Section 6 of the specification gives their
    interface: bars carry open/high/low/close/timestamp/symbol; the snapshot
    answers [bar_count()], [recent_bars(n)] (a sequence of at most [n] bars,
    possibly none, or an error) and [current_bar()]. *)
Record Bar : Type := {
  open : float;
  high : float;
  low : float;
  close : float;
  timestamp : option Datetime.datetime;
  symbol : string;
}.

Record MarketState : Type := {
  bar_count : Z;
  recent_bars : Z -> result (option (list Bar));
  current_bar : result Bar;
}.

Record PositionState : Type := {
  has_position : bool;
  position_size : float;
}.

Record Clock : Type := {
  now : Datetime.datetime;
}.

(** What [logger.info] is called with by the diagnostic hook. *)
Record LogRecord : Type := {
  log_logger : string;
  log_name : string;
  log_ts : string;
  log_direction : string;
  log_confidence : float;
  log_size : float;
}.

(** One interpolated value of a printed line. *)
Inductive PrintArg : Type :=
| PStr (s : string)
| PFloat (x : float)
| PBool (b : bool).

(** What a call leaves on the outside: log records and printed lines. *)
Inductive Event : Type :=
| Logged (r : LogRecord)
| Printed (args : list PrintArg).

(** The attributes that the base class probes with [getattr] on an
    instance; each may be absent. *)
Record Attrs : Type := {
  explain_decisions : option bool;
  name : option string;
  _diagnostic_logger : option string;
}.

(** An instance: the fields its own class defines, and the probed
    attributes. *)
Record Object (S : Type) : Type := {
  fields : S;
  attrs : Attrs;
}.
Arguments fields {S} o.
Arguments attrs {S} o.

(** A call of a method on an instance: what it returns or raises, the
    instance afterwards, and what it emitted. *)
Definition Outcome (S A : Type) : Type := result A * Object S * list Event.

Definition Method (S : Type) : Type :=
  Object S -> MarketState -> PositionState -> Clock -> Outcome S (option TradeIntent).

(** A concrete subclass of [Hypothesis]. *)
Record Class (S : Type) : Type := {
  cls_name : string;
  hypothesis_id : S -> result string;
  on_bar : option (Method S);
  _diagnostic_wrapped : bool;
}.
Arguments cls_name {S} c.
Arguments hypothesis_id {S} c.
Arguments on_bar {S} c.
Arguments _diagnostic_wrapped {S} c.

Section Hook.

(** The handlers behind [logger.info]; they belong to the logging setup of
    the running program. *)
Variable log_handle : LogRecord -> result unit.

Context {S : Type}.

Definition truthy (o : option bool) : bool :=
  match o with
  | Some b => b
  | None => false
  end.

Definition direction_of (t : IntentType) : string :=
  match t with
  | BUY => "LONG"
  | SELL => "SHORT"
  | CLOSE => "CLOSE"
  | HOLD => "FLAT"
  end.

(** [getattr(self, "name", getattr(self, "hypothesis_id", cls.__name__))]:
    the inner call is evaluated first; [getattr] turns an AttributeError
    into the default and lets every other error through. *)
Definition display_name (cls : Class S) (self : Object S) : result string :=
  inner ← match hypothesis_id cls (fields self) with
          | Ok s => Ok s
          | Raise AttributeError => Ok (cls_name cls)
          | Raise e => Raise e
          end;
  match name (attrs self) with
  | Some n => Ok n
  | None => Ok inner
  end.

Definition ts_text (bar : Bar) : string :=
  match timestamp bar with
  | Some ts => Datetime.isoformat ts
  | None => "None"
  end.

(** [Hypothesis._log_signal_intent].  A [TradeIntent] has no [confidence]
    attribute, so [getattr(intent, "confidence", None)] gives [None] and the
    confidence logged is the size.  Only the call of [current_bar()] sits
    inside a [try]. *)
Definition _log_signal_intent (cls : Class S) (self : Object S)
    (intent : option TradeIntent) (market_state : MarketState) : Outcome S unit :=
  if negb (truthy (explain_decisions (attrs self))) then (Ok tt, self, [])
  else
    match intent with
    | None => (Ok tt, self, [])
    | Some i =>
        if is_hold i then (Ok tt, self, [])
        else
          match current_bar market_state with
          | Raise _ => (Ok tt, self, [])
          | Ok bar =>
              let direction := direction_of (type i) in
              let confidence := size i in
              let cached := _diagnostic_logger (attrs self) in
              let logger :=
                match cached with
                | Some l => l
                | None => "hypotheses.base." +:+ cls_name cls
                end in
              let self1 :=
                match cached with
                | Some _ => self
                | None =>
                    {| fields := fields self;
                       attrs := {| explain_decisions := explain_decisions (attrs self);
                                   name := name (attrs self);
                                   _diagnostic_logger := Some logger |} |}
                end in
              match display_name cls self1 with
              | Raise e => (Raise e, self1, [])
              | Ok nm =>
                  let record :=
                    {| log_logger := logger; log_name := nm;
                       log_ts := ts_text bar; log_direction := direction;
                       log_confidence := confidence; log_size := size i |} in
                  match log_handle record with
                  | Raise e => (Raise e, self1, [])
                  | Ok _ => (Ok tt, self1, [Logged record])
                  end
              end
          end
    end.

(** The function [wrapped] that [__init_subclass__] builds around
    [original_on_bar]. *)
Definition wrapped (cls : Class S) (original_on_bar : Method S) : Method S :=
  fun self market_state position_state clock =>
    match original_on_bar self market_state position_state clock with
    | (Raise e, self1, out1) => (Raise e, self1, out1)
    | (Ok intent, self1, out1) =>
        match _log_signal_intent cls self1 intent market_state with
        | (Raise e, self2, out2) => (Raise e, self2, out1 ++ out2)
        | (Ok _, self2, out2) => (Ok intent, self2, out1 ++ out2)
        end
    end.

(** [Hypothesis.__init_subclass__]: a class without [on_bar], or whose
    [on_bar] is already wrapped, is left alone. *)
Definition init_subclass (cls : Class S) : Class S :=
  match on_bar cls with
  | None => cls
  | Some original_on_bar =>
      if _diagnostic_wrapped cls then cls
      else {| cls_name := cls_name cls;
              hypothesis_id := hypothesis_id cls;
              on_bar := Some (wrapped cls original_on_bar);
              _diagnostic_wrapped := true |}
  end.

End Hook.

End Base.

(* ===================================================================== *)
(** ** hypotheses/competition/competition_hail_mary.py                    *)
(* ===================================================================== *)

Module HailMary.
Import Py Base.

Local Open Scope float_scope.

(** The attributes set by [CompetitionHailMary.__init__]. *)
Record Config : Type := {
  lookback : Z;
  atr_mult : float;
  min_body_ratio : float;
  fast_period : Z;
  slow_period : Z;
  roc_period : Z;
  roc_threshold : float;
  rsi_period : Z;
  rsi_oversold : float;
  rsi_overbought : float;
}.

(** The defaults of [__init__]. *)
Definition default_config : Config :=
  {| lookback := 14; atr_mult := 1; min_body_ratio := 0x1.6666666666666p-2;   (* 0.35 *)
     fast_period := 5; slow_period := 13; roc_period := 3;
     roc_threshold := 0x1.0624dd2f1a9fcp-10;   (* 0.001 *)
     rsi_period := 7;
     rsi_oversold := 20; rsi_overbought := 80 |}.

(** [float(n)], the conversion a Python integer undergoes when it meets a
    double in arithmetic: the double nearest to [n], ties to even, for an
    integer of any size.  (An integer beyond the range of doubles comes out
    as an infinity here; Python raises OverflowError there.) *)
Definition float_of_int (n : Z) : float :=
  SF2Prim (binary_normalize prec emax n 0 false).

(** [a / b] on two Python integers, for [b <> 0]: the exact quotient
    rounded once to the nearest double, ties to even, with the sign of a
    zero quotient taken from the operands.  The quotient of the magnitudes
    is computed to more than 64 bits and its last bit records whether the
    division left a remainder, so that rounding it rounds the exact
    quotient.  (A quotient beyond the range of doubles comes out as an
    infinity here, where Python raises OverflowError; [_ema] divides 2,
    which stays in range.) *)
Definition int_truediv (a b : Z) : float :=
  let negative := xorb (a <? 0)%Z (b <? 0)%Z in
  let k := (64 + Z.log2 (Z.abs b))%Z in
  let scaled := (Z.abs a * 2 ^ k)%Z in
  let q := (scaled / Z.abs b)%Z in
  let sticky := (if (scaled mod Z.abs b =? 0)%Z then 0 else 1)%Z in
  let r := binary_normalize prec emax (2 * q + sticky)%Z (- (k + 1))%Z false in
  SF2Prim (if negative then SFopp r else r).

Fixpoint ema_loop (alpha prev : float) (rest : list float) : list float :=
  match rest with
  | [] => []
  | x :: r =>
      let e := alpha * x + (1 - alpha) * prev in
      e :: ema_loop alpha e r
  end.

(** [_ema(data, period)] *)
Definition _ema (data : list float) (period : Z) : result (list float) :=
  if (period + 1 =? 0)%Z then Raise ZeroDivisionError
  else
    let alpha := int_truediv 2 (period + 1) in
    match data with
    | [] => Raise IndexError
    | x :: r => Ok (x :: ema_loop alpha x r)
    end.

(** [np.diff] *)
Fixpoint np_diff (l : list float) : list float :=
  match l with
  | x :: ((y :: _) as r) => (y - x) :: np_diff r
  | _ => []
  end.

(** [np.roll(a, 1)] *)
Definition np_roll1 (l : list float) : list float :=
  match l with
  | [] => []
  | x :: _ => List.last l x :: removelast l
  end.

(** [np.maximum] on two doubles: a NaN operand wins. *)
Definition np_maximum (a b : float) : float :=
  if negb (PrimFloat.eqb a a) then a
  else if negb (PrimFloat.eqb b b) then b
  else if PrimFloat.ltb a b then b else a.

Fixpoint zip_with (f : float -> float -> float) (a b : list float) : list float :=
  match a, b with
  | x :: a', y :: b' => f x y :: zip_with f a' b'
  | _, _ => []
  end.

Section Indicators.

(** [ndarray.mean()] of numpy; how it orders the additions is numpy's
    business, so the reduction is taken as given. *)
Variable np_mean : list float -> float.

(** The smoothing loop of [_calculate_rsi], over the indices that
    [range(rsi_period, len(gains))] yields. *)
Fixpoint rsi_loop (p : Z) (gains losses : list float) (idx : list Z)
    (avg_gain avg_loss : float) : result (float * float) :=
  match idx with
  | [] => Ok (avg_gain, avg_loss)
  | i :: rest =>
      g ← index gains i;
      let avg_gain' := (avg_gain * float_of_int (p - 1) + g) / float_of_int p in
      l ← index losses i;
      let avg_loss' := (avg_loss * float_of_int (p - 1) + l) / float_of_int p in
      rsi_loop p gains losses rest avg_gain' avg_loss'
  end.

(** [_calculate_rsi(closes)] *)
Definition _calculate_rsi (self : Config) (closes : list float) : result float :=
  let deltas := np_diff closes in
  let gains := map (fun d => if PrimFloat.ltb 0 d then d else 0) deltas in
  let losses := map (fun d => if PrimFloat.ltb d 0 then - d else 0) deltas in
  if (Z.of_nat (length gains) <? rsi_period self)%Z then Ok 50
  else
    let avg_gain := np_mean (slice_to gains (rsi_period self)) in
    let avg_loss := np_mean (slice_to losses (rsi_period self)) in
    '(avg_gain, avg_loss) ←
      rsi_loop (rsi_period self) gains losses
        (range (rsi_period self) (Z.of_nat (length gains))) avg_gain avg_loss;
    if PrimFloat.eqb avg_loss 0 then Ok 100
    else
      let rs := avg_gain / avg_loss in
      Ok (100 - (100 / (1 + rs))).

(** The part of [on_bar] after the history checks: the indicators, the
    signal, and the values of the debug line it prints. *)
Definition decide_signal (self : Config) (bars : list Bar)
  : result (IntentType * list PrintArg) :=
  let closes := map close bars in
  let highs := map high bars in
  let lows := map low bars in
  let opens := map open bars in
  fast_ema ← _ema closes (fast_period self);
  slow_ema ← _ema closes (slow_period self);
  cross_up ←
    (f2 ← index fast_ema (-2); s2 ← index slow_ema (-2);
     if PrimFloat.leb f2 s2
     then (f1 ← index fast_ema (-1); s1 ← index slow_ema (-1);
           Ok (PrimFloat.ltb s1 f1))
     else Ok false);
  cross_down ←
    (f2 ← index fast_ema (-2); s2 ← index slow_ema (-2);
     if PrimFloat.leb s2 f2
     then (f1 ← index fast_ema (-1); s1 ← index slow_ema (-1);
           Ok (PrimFloat.ltb f1 s1))
     else Ok false);
  let tr1 := zip_with PrimFloat.sub highs lows in
  let tr2 := map PrimFloat.abs (zip_with PrimFloat.sub highs (np_roll1 closes)) in
  let tr3 := map PrimFloat.abs (zip_with PrimFloat.sub lows (np_roll1 closes)) in
  let tr := zip_with np_maximum tr1 (zip_with np_maximum tr2 tr3) in
  let atr := np_mean (slice_from tr (- lookback self)) in
  h1 ← index highs (-1); l1 ← index lows (-1);
  let current_range := h1 - l1 in
  let is_expansion := PrimFloat.ltb (atr * atr_mult self) current_range in
  rsi ← _calculate_rsi self closes;
  f1 ← index fast_ema (-1); s1 ← index slow_ema (-1);
  let base_signal := if PrimFloat.ltb s1 f1 then BUY else SELL in
  oversold_up ←
    (if PrimFloat.ltb rsi (rsi_oversold self)
     then (c1 ← index closes (-1); o1 ← index opens (-1); Ok (PrimFloat.ltb o1 c1))
     else Ok false);
  signal ←
    (if (oversold_up : bool) then Ok BUY
     else
       overbought_down ←
         (if PrimFloat.ltb (rsi_overbought self) rsi
          then (c1 ← index closes (-1); o1 ← index opens (-1);
                Ok (PrimFloat.ltb c1 o1))
          else Ok false);
       Ok (if (overbought_down : bool) then SELL else base_signal));
  last_bar ← index bars (-1);
  price ← index closes (-1);
  fast_last ← index fast_ema (-1);
  slow_last ← index slow_ema (-1);
  Ok (signal,
      [PStr (symbol last_bar); PStr (IntentType_value signal); PFloat rsi;
       PBool is_expansion; PBool cross_up; PBool cross_down; PFloat atr;
       PFloat price; PFloat fast_last; PFloat slow_last]).

Definition returning (self : Object Config) (r : result TradeIntent)
    (out : list Event) : Outcome Config (option TradeIntent) :=
  (match r with
   | Ok i => Ok (Some i)
   | Raise e => Raise e
   end, self, out).

(** [required_bars = max(self.lookback, self.slow_period) + 10] *)
Definition required_bars (self : Config) : Z :=
  (Z.max (lookback self) (slow_period self) + 10)%Z.

(** [CompetitionHailMary.on_bar], as written in the class body. *)
Definition on_bar_body : Method Config :=
  fun self market_state position_state clock =>
    let cfg := fields self in
    let required_bars := required_bars cfg in
    if (bar_count market_state <? required_bars)%Z
    then returning self (TradeIntent_new HOLD None) []
    else
      match recent_bars market_state required_bars with
      | Raise e => (Raise e, self, [])
      | Ok None => returning self (TradeIntent_new HOLD None) []
      | Ok (Some bars) =>
          if (Z.of_nat (length bars) <? required_bars)%Z
          then returning self (TradeIntent_new HOLD None) []
          else
            match decide_signal cfg bars with
            | Raise e => (Raise e, self, [])
            | Ok (signal, line) =>
                returning self (TradeIntent_new signal (Some 1)) [Printed line]
            end
      end.

Section Installed.

Variable log_handle : LogRecord -> result unit.

(** The class as it stands after [class CompetitionHailMary(Hypothesis)]
    has run [__init_subclass__]. *)
Definition CompetitionHailMary : Class Config :=
  init_subclass log_handle
    {| cls_name := "CompetitionHailMary";
       hypothesis_id := fun _ => Ok "competition_hail_mary";
       on_bar := Some on_bar_body;
       _diagnostic_wrapped := false |}.

(** [instance.on_bar(market_state, position_state, clock)] *)
Definition call_on_bar : Method Config :=
  match on_bar CompetitionHailMary with
  | Some m => m
  | None => fun self _ _ _ => (Raise AttributeError, self, [])
  end.

End Installed.

End Indicators.

(** [CompetitionHailMary(...)]: a fresh instance carries none of the
    attributes the base class probes. *)
Definition new (cfg : Config) : Object Config :=
  {| fields := cfg;
     attrs := {| explain_decisions := None; name := None;
                 _diagnostic_logger := None |} |}.

End HailMary.

(* ===================================================================== *)
(** ** [emit] with the file system a failed call leaves behind            *)
(* ===================================================================== *)

Module SinkRun.
Import Py.

(** [FileIntentSink.emit(intent_json)] once more, this time keeping the
    state of the disk at the point where an exception leaves the method:
    nothing is undone on the way out, and a write that the operating system
    fails leaves behind the characters it had taken. *)
Definition emit_attempt (os : Sink.System) (self : Sink.FileIntentSink)
    (token intent_json : string) (fs : gmap (list string) Sink.Node)
  : result unit * gmap (list string) Sink.Node :=
  let tmp := Sink.tmp_path self token in
  let final := Sink.final_path self token in
  match Sink.open_w fs tmp with
  | Raise e => (Raise e, fs)
  | Ok fs0 =>
      match os fs (Sink.SysOpen tmp) with
      | Sink.Failed _ => (Raise OSError, fs)
      | Sink.Carried =>
          match os fs0 (Sink.SysWrite tmp intent_json) with
          | Sink.Failed n =>
              match Sink.append_chunk fs0 tmp (String.substring 0 n intent_json) with
              | Raise e => (Raise e, fs0)
              | Ok fs1 => (Raise OSError, fs1)
              end
          | Sink.Carried =>
              match Sink.append_chunk fs0 tmp intent_json with
              | Raise e => (Raise e, fs0)
              | Ok fs1 =>
                  match Sink.rename fs1 tmp final with
                  | Raise e => (Raise e, fs1)
                  | Ok fs2 =>
                      match os fs1 (Sink.SysRename tmp final) with
                      | Sink.Failed _ => (Raise OSError, fs1)
                      | Sink.Carried => (Ok tt, fs2)
                      end
                  end
              end
          end
      end
  end.

End SinkRun.

(* ===================================================================== *)
(** ** quant/telebot/main.py: [find_latest_model]                         *)
(* ===================================================================== *)

Module Telebot.
Import Py.

(** [needle in s] *)
Definition contains (needle s : string) : bool :=
  match String.index 0 needle s with
  | Some _ => true
  | None => false
  end.

(** [root.iterdir()]: the children of a directory (in no promised order). *)
Definition iterdir (fs : gmap (list string) Sink.Node) (root : list string)
  : list (list string) :=
  map (Sink.div root) (elements (Sink.listdir fs root)).

(** [x.is_dir()] *)
Definition is_dir (fs : gmap (list string) Sink.Node) (x : list string) : bool :=
  match Sink.node_at fs x with
  | Some Sink.Dir => true
  | _ => false
  end.

(** The order [sorted(..., key=lambda x: x.name)] sorts by. *)
Definition by_name (a b : list string) : Prop :=
  String.le (Sink.name a) (Sink.name b).

#[global] Instance by_name_dec : RelDecision by_name.
Proof. intros a b. unfold by_name. apply _. Defined.

(** [find_latest_model(root)] *)
Definition find_latest_model (fs : gmap (list string) Sink.Node) (root : list string)
  : result (option (list string)) :=
  match Sink.node_at fs root with
  | None => Ok None
  | Some (Sink.File _) => Raise NotADirectoryError
  | Some Sink.Dir =>
      let subdirs :=
        merge_sort by_name
          (List.filter (fun x => is_dir fs x && contains "model_" (Sink.name x))
             (iterdir fs root)) in
      Ok (last subdirs)
  end.

End Telebot.

(* ===================================================================== *)
(** ** Reading the encoding back: a JSON reader                           *)
(* ===================================================================== *)

(** What a consumer does with an entry.  The reader follows the grammar of
    RFC 8259 for the texts a producer can write in the compact form: an
    object whose members are strings, numbers or [null], in ASCII and
    without white space.  Every text it accepts is a JSON text. *)
Module JsonRead.

(** The JSON values read: [null], a string as the sequence of the UTF-16
    code units it spells, a number as its text. *)
Inductive jvalue : Type :=
| JNull
| JString (units : list N)
| JNumber (literal : string).

(** The value of a hexadecimal digit. *)
Definition hex_val (c : ascii) : option nat :=
  let n := nat_of_ascii c in
  if (48 <=? n)%nat && (n <=? 57)%nat then Some (n - 48)%nat
  else if (97 <=? n)%nat && (n <=? 102)%nat then Some (n - 87)%nat
  else if (65 <=? n)%nat && (n <=? 70)%nat then Some (n - 55)%nat
  else None.

(** The character a two-character escape stands for. *)
Definition short_escape (x : ascii) : option ascii :=
  if Ascii.eqb x Json.quote_char then Some Json.quote_char
  else if Ascii.eqb x Json.backslash then Some Json.backslash
  else if Ascii.eqb x "/" then Some "/"%char
  else if Ascii.eqb x "b" then Some "008"%char
  else if Ascii.eqb x "f" then Some "012"%char
  else if Ascii.eqb x "n" then Some "010"%char
  else if Ascii.eqb x "r" then Some "013"%char
  else if Ascii.eqb x "t" then Some "009"%char
  else None.

(** A printable ASCII character: [' '] to ['~']. *)
Definition printable (c : ascii) : bool :=
  (32 <=? nat_of_ascii c)%nat && (nat_of_ascii c <=? 126)%nat.

(** A character that may stand unescaped inside a string: ASCII, and not a
    control character. *)
Definition unescaped (c : ascii) : bool :=
  (32 <=? nat_of_ascii c)%nat && (nat_of_ascii c <=? 127)%nat.

(** A string literal after its opening quote: the code units up to the
    closing quote, and the text that follows it. *)
Fixpoint read_string_body (s : string) : option (list N * string) :=
  match s with
  | EmptyString => None
  | String c r =>
      if Ascii.eqb c Json.quote_char then Some ([], r)
      else if Ascii.eqb c Json.backslash then
        match r with
        | EmptyString => None
        | String x r1 =>
            if Ascii.eqb x "u" then
              match r1 with
              | String a (String b (String h (String l r2))) =>
                  match hex_val a, hex_val b, hex_val h, hex_val l with
                  | Some va, Some vb, Some vh, Some vl =>
                      match read_string_body r2 with
                      | Some (us, rest) =>
                          Some (N.of_nat (4096 * va + 256 * vb + 16 * vh + vl) :: us,
                                rest)
                      | None => None
                      end
                  | _, _, _, _ => None
                  end
              | _ => None
              end
            else
              match short_escape x with
              | Some ch =>
                  match read_string_body r1 with
                  | Some (us, rest) => Some (N_of_ascii ch :: us, rest)
                  | None => None
                  end
              | None => None
              end
        end
      else if unescaped c then
        match read_string_body r with
        | Some (us, rest) => Some (N_of_ascii c :: us, rest)
        | None => None
        end
      else None
  end.

Definition is_digit (c : ascii) : bool :=
  (48 <=? nat_of_ascii c)%nat && (nat_of_ascii c <=? 57)%nat.

Fixpoint skip_digits (s : string) : string :=
  match s with
  | String c r => if is_digit c then skip_digits r else s
  | EmptyString => EmptyString
  end.

(** One digit or more. *)
Definition digits1 (s : string) : option string :=
  match s with
  | String c r => if is_digit c then Some (skip_digits r) else None
  | EmptyString => None
  end.

(** [int = zero / ( digit1-9 *DIGIT )] *)
Definition int_part (s : string) : option string :=
  match s with
  | String c r =>
      if Ascii.eqb c "0" then Some r
      else if is_digit c then Some (skip_digits r)
      else None
  | EmptyString => None
  end.

(** [frac = decimal-point 1*DIGIT], optional *)
Definition frac_part (s : string) : option string :=
  match s with
  | String c r => if Ascii.eqb c "." then digits1 r else Some s
  | EmptyString => Some s
  end.

(** [exp = e [ minus / plus ] 1*DIGIT], optional *)
Definition exp_part (s : string) : option string :=
  match s with
  | String c r =>
      if Ascii.eqb c "e" || Ascii.eqb c "E" then
        match r with
        | String sg r' =>
            if Ascii.eqb sg "+" || Ascii.eqb sg "-" then digits1 r' else digits1 r
        | EmptyString => None
        end
      else Some s
  | EmptyString => Some s
  end.

(** [number = [ minus ] int [ frac ] [ exp ]]: what is left of [s] after a
    number at its start. *)
Definition after_number (s : string) : option string :=
  let s0 := match s with
            | String c r => if Ascii.eqb c "-" then r else s
            | EmptyString => s
            end in
  r1 ← int_part s0; r2 ← frac_part r1; exp_part r2.

(** The characters a number is made of. *)
Definition number_char (c : ascii) : bool :=
  is_digit c || Ascii.eqb c "-" || Ascii.eqb c "+" || Ascii.eqb c "."
  || Ascii.eqb c "e" || Ascii.eqb c "E".

(** The text [t] is a JSON number. *)
Definition number (t : string) : bool :=
  forallb number_char (list_ascii_of_string t)
  && match after_number t with
     | Some EmptyString => true
     | _ => false
     end.

(** The longest run of number characters at the start of a text. *)
Fixpoint span_number (s : string) : string * string :=
  match s with
  | String c r =>
      if number_char c then let '(t, rest) := span_number r in (String c t, rest)
      else (EmptyString, s)
  | EmptyString => (EmptyString, EmptyString)
  end.

Definition read_number (s : string) : option (string * string) :=
  let '(t, rest) := span_number s in
  if number t then Some (t, rest) else None.

(** A value at the start of a text, and the text after it. *)
Definition read_value (s : string) : option (jvalue * string) :=
  match s with
  | String c r =>
      if Ascii.eqb c Json.quote_char then
        match read_string_body r with
        | Some (us, rest) => Some (JString us, rest)
        | None => None
        end
      else if Ascii.eqb c "n" then
        match r with
        | String "u" (String "l" (String "l" rest)) => Some (JNull, rest)
        | _ => None
        end
      else
        match read_number s with
        | Some (t, rest) => Some (JNumber t, rest)
        | None => None
        end
  | EmptyString => None
  end.

(** The members of an object after its opening brace, up to and including
    the closing brace.  Each member takes at least one character, so the
    length of the text is fuel enough. *)
Fixpoint read_members (fuel : nat) (s : string)
  : option (list (list N * jvalue) * string) :=
  match fuel with
  | O => None
  | S fuel' =>
      match s with
      | String q r =>
          if Ascii.eqb q Json.quote_char then
            match read_string_body r with
            | Some (k, String ":" r2) =>
                match read_value r2 with
                | Some (v, String "," r4) =>
                    match read_members fuel' r4 with
                    | Some (ms, rest) => Some ((k, v) :: ms, rest)
                    | None => None
                    end
                | Some (v, String "}" r4) => Some ([(k, v)], r4)
                | _ => None
                end
            | _ => None
            end
          else None
      | EmptyString => None
      end
  end.

(** A whole text as one object: its members, in the order written. *)
Definition read_object (s : string) : option (list (list N * jvalue)) :=
  match s with
  | String c r =>
      if negb (Ascii.eqb c "{") then None
      else if String.eqb r "}" then Some []
      else
        match read_members (String.length r) r with
        | Some (ms, EmptyString) => Some ms
        | _ => None
        end
  | EmptyString => None
  end.

(** The JSON value that the encoding of a Python value denotes, for the
    values that have one: a datetime has no encoding, and a NaN or an
    infinity is not written as JSON. *)
Definition decoded (float_repr : float -> string) (v : Json.value) : option jvalue :=
  match v with
  | Json.VNone => Some JNull
  | Json.VStr s => Some (JString (Json.utf16 s))
  | Json.VFloat f => if Json.finite f then Some (JNumber (float_repr f)) else None
  | Json.VDatetime _ => None
  end.

(** The members that the encoding of a dict denotes. *)
Fixpoint decoded_items (float_repr : float -> string)
    (items : list (string * Json.value)) : option (list (list N * jvalue)) :=
  match items with
  | [] => Some []
  | (k, v) :: rest =>
      match decoded float_repr v, decoded_items float_repr rest with
      | Some j, Some js => Some ((Py.text k, j) :: js)
      | _, _ => None
      end
  end.

(** A text goes on after a value of an object: with a comma or with the
    closing brace. *)
Definition goes_on (rest : string) : bool :=
  match rest with
  | String c _ => Ascii.eqb c "," || Ascii.eqb c "}"
  | EmptyString => false
  end.

End JsonRead.

(* ===================================================================== *)
(** ** Concrete inputs used to exercise the definitions                   *)
(* ===================================================================== *)

Module Fixtures.
Import Py.

Definition queue_root : list string := ["var"; "queue"].

(** The sink object and the file system that [FileIntentSink("/var/queue")]
    leaves behind on an empty disk. *)
Definition sink0 : Sink.FileIntentSink :=
  {| Sink.root := queue_root;
     Sink.pending := Sink.div queue_root "pending";
     Sink.done := Sink.div queue_root "done";
     Sink.failed := Sink.div queue_root "failed" |}.

Definition fs_ready : gmap (list string) Sink.Node :=
  match Sink.init queue_root ∅ with
  | Ok (_, fs) => fs
  | Raise _ => ∅
  end.

Definition token_a : string := "6f1c2b9e-0d3a-4c57-9e21-5b7a8c4d2e10".
Definition token_b : string := "0a4e7d55-91c2-4f0b-8a6d-3c1f9b7e2d48".

(** Two draws of [os.urandom(16)] that differ in the four bits of the
    version field only. *)
Definition draw_a : Z := 0x6f1c2b9e0d3a1c579e215b7a8c4d2e10.
Definition draw_a' : Z := 0x6f1c2b9e0d3aec579e215b7a8c4d2e10.
Definition draw_b : Z := 0x0a4e7d5591c2ff0b0a6d3c1f9b7e2d48.

(** An operating system that carries out every call. *)
Definition reliable : Sink.System := fun _ _ => Sink.Carried.

(** A disk with room for two more characters. *)
Definition full_disk : Sink.System :=
  fun _ call =>
    match call with
    | Sink.SysWrite _ _ => Sink.Failed 2
    | _ => Sink.Carried
    end.

End Fixtures.

Module TimeFixtures.

(** 2024-03-05 12:30:00, naive. *)
Definition noon_naive : Datetime.datetime :=
  {| Datetime.year := 2024; Datetime.month := 3; Datetime.day := 5;
     Datetime.hour := 12; Datetime.minute := 30; Datetime.second := 0;
     Datetime.microsecond := 0; Datetime.utcoffset := None |}.

(** 2024-03-05 12:30:00.250000 at UTC+02:00. *)
Definition noon_plus2 : Datetime.datetime :=
  {| Datetime.year := 2024; Datetime.month := 3; Datetime.day := 5;
     Datetime.hour := 12; Datetime.minute := 30; Datetime.second := 0;
     Datetime.microsecond := 250000; Datetime.utcoffset := Some 7200000000 |}.

End TimeFixtures.

Module MarketFixtures.
Import Py Base.

(** A plain left-to-right mean, to run the indicators on concrete bars. *)
Definition seq_mean (l : list float) : float :=
  PrimFloat.div (fold_left PrimFloat.add l 0%float)
                (HailMary.float_of_int (Z.of_nat (length l))).

(** Bar number [k] of a steadily rising market: close 1.1000 + k/1000. *)
Definition rising_bar (k : nat) : Bar :=
  let c := PrimFloat.add 0x1.199999999999ap+0%float
             (PrimFloat.div (HailMary.float_of_int (Z.of_nat k)) 1000%float) in
  {| open := PrimFloat.sub c 0x1.a36e2eb1c432dp-12%float;
     high := PrimFloat.add c 0x1.a36e2eb1c432dp-11%float;
     low := PrimFloat.sub c 0x1.a36e2eb1c432dp-11%float;
     close := c;
     timestamp := Some TimeFixtures.noon_plus2;
     symbol := "EURUSD" |}.

Definition rising_bars (n : nat) : list Bar := map rising_bar (seq 0 n).

(** A snapshot holding [n] bars; [recent_bars(k)] gives the last [k]. *)
Definition snapshot (n : nat) : MarketState :=
  {| bar_count := Z.of_nat n;
     recent_bars := fun k => Ok (Some (slice_from (rising_bars n) (- k)));
     current_bar := index (rising_bars n) (-1) |}.

(** The value of [TradeIntent(type=IntentType.HOLD)]. *)
Definition hold_decision : TradeIntent := {| type := HOLD; size := 1%float |}.

Definition flat : PositionState :=
  {| has_position := false; position_size := 0%float |}.

Definition clock0 : Clock := {| now := TimeFixtures.noon_plus2 |}.

Definition quiet_handler (r : LogRecord) : result unit := Ok tt.

Definition failing_handler (r : LogRecord) : result unit :=
  Raise (OtherError "handler failed").

(** A default-configured strategy with [explain_decisions = True] set on
    the instance. *)
Definition explaining : Object HailMary.Config :=
  {| fields := HailMary.default_config;
     attrs := {| explain_decisions := Some true; name := None;
                 _diagnostic_logger := None |} |}.

(** [CompetitionHailMary(fast_period=-1)]: the constructor stores whatever
    integers it is given. *)
Definition fast_minus_one : Object HailMary.Config :=
  HailMary.new
    {| HailMary.lookback := 14; HailMary.atr_mult := 1%float;
       HailMary.min_body_ratio := 0x1.6666666666666p-2%float;
       HailMary.fast_period := -1; HailMary.slow_period := 13;
       HailMary.roc_period := 3;
       HailMary.roc_threshold := 0x1.0624dd2f1a9fcp-10%float;
       HailMary.rsi_period := 7; HailMary.rsi_oversold := 20%float;
       HailMary.rsi_overbought := 80%float |}.

End MarketFixtures.

Module IntentFixtures.

(** A paper BUY of the euro with a stop and no target; the symbol is
    written with the euro sign, and the policy hash ends in a newline and a
    character from beyond the basic plane. *)
Definition paper_buy : IntentSerializer.ExecutionIntent :=
  {| IntentSerializer.intent_id := Py.text "6f1c2b9e-0d3a-4c57-9e21-5b7a8c4d2e10";
     IntentSerializer.timestamp := TimeFixtures.noon_plus2;
     IntentSerializer.symbol := 0x20ac%N :: Py.text "/USD";
     IntentSerializer.side := IntentSerializer.BUY;
     IntentSerializer.order_type := IntentSerializer.MARKET;
     IntentSerializer.quantity := 0x1p-1%float;
     IntentSerializer.stop_loss := Some 1%float;
     IntentSerializer.take_profit := None;
     IntentSerializer.time_in_force := Py.text "GTC";
     IntentSerializer.policy_hash := Py.text "a" ++ [10%N; 0x1f600%N];
     IntentSerializer.mode := IntentSerializer.PAPER |}.

(** The same intent with a quantity that is not a number. *)
Definition nan_quantity : IntentSerializer.ExecutionIntent :=
  {| IntentSerializer.intent_id := IntentSerializer.intent_id paper_buy;
     IntentSerializer.timestamp := IntentSerializer.timestamp paper_buy;
     IntentSerializer.symbol := IntentSerializer.symbol paper_buy;
     IntentSerializer.side := IntentSerializer.side paper_buy;
     IntentSerializer.order_type := IntentSerializer.order_type paper_buy;
     IntentSerializer.quantity := nan;
     IntentSerializer.stop_loss := IntentSerializer.stop_loss paper_buy;
     IntentSerializer.take_profit := IntentSerializer.take_profit paper_buy;
     IntentSerializer.time_in_force := IntentSerializer.time_in_force paper_buy;
     IntentSerializer.policy_hash := IntentSerializer.policy_hash paper_buy;
     IntentSerializer.mode := IntentSerializer.mode paper_buy |}.

(** A stand-in for [float.__repr__] on the two numbers of [paper_buy]. *)
Definition repr_halves (x : float) : string :=
  if PrimFloat.eqb x 1%float then "1.0" else "0.5".

(** The model directory of a deployment with two models and some
    clutter. *)
Definition models_dir : gmap (list string) Sink.Node :=
  {[ ["models"] := Sink.Dir;
     ["models"; "production"] := Sink.Dir;
     ["models"; "production"; "model_2024_01"] := Sink.Dir;
     ["models"; "production"; "model_2024_03"] := Sink.Dir;
     ["models"; "production"; "zz_archive"] := Sink.Dir;
     ["models"; "production"; "model_2025.txt"] := Sink.File "notes" ]}.

End IntentFixtures.

(* ===================================================================== *)
(** * Properties                                                          *)
(* ===================================================================== *)

(** ** Strings and paths *)

Lemma string_app_cons (c : ascii) (s t : string) :
  String c s +:+ t = String c (s +:+ t).
Proof. reflexivity. Qed.

Lemma string_app_nil_r (s : string) : s +:+ EmptyString = s.
Proof.
  induction s as [|c s IH]; [reflexivity |].
  now rewrite string_app_cons, IH.
Qed.

Lemma string_app_assoc (a b c : string) : (a +:+ b) +:+ c = a +:+ (b +:+ c).
Proof.
  induction a as [|x a IH]; [reflexivity |].
  now rewrite !string_app_cons, IH.
Qed.

Lemma chars_of_app (a b : string) :
  list_ascii_of_string (a +:+ b) = list_ascii_of_string a ++ list_ascii_of_string b.
Proof.
  induction a as [|x a IH]; [reflexivity |].
  rewrite string_app_cons. simpl. now rewrite IH.
Qed.

Lemma chars_inj (a b : string) :
  list_ascii_of_string a = list_ascii_of_string b -> a = b.
Proof.
  intros H. rewrite <- (string_of_list_ascii_of_string a),
    <- (string_of_list_ascii_of_string b). now rewrite H.
Qed.

Lemma string_app_inj_l (a b suffix : string) :
  a +:+ suffix = b +:+ suffix -> a = b.
Proof.
  intros H. apply chars_inj.
  apply (f_equal list_ascii_of_string) in H.
  rewrite !chars_of_app in H. now apply app_inv_tail in H.
Qed.

(** Two strings that end in different characters are different. *)
Lemma string_last_char_neq (a b : string) (x y : ascii) :
  x <> y -> a +:+ String x EmptyString <> b +:+ String y EmptyString.
Proof.
  intros Hxy H. apply (f_equal list_ascii_of_string) in H.
  rewrite !chars_of_app in H. simpl in H.
  apply app_inj_tail in H. destruct H as [_ H]. contradiction.
Qed.

Lemma fname_inj (t1 t2 : string) : Sink.fname t1 = Sink.fname t2 -> t1 = t2.
Proof. unfold Sink.fname. apply string_app_inj_l. Qed.

Lemma tmp_name_not_json (n : string) : ~ Sink.ends_with ".json" (n +:+ ".tmp").
Proof.
  intros [p H].
  change ".tmp" with (".tm" +:+ String "p" EmptyString) in H.
  change ".json" with (".jso" +:+ String "n" EmptyString) in H.
  rewrite <- !string_app_assoc in H.
  revert H. apply string_last_char_neq. discriminate.
Qed.

Lemma tmp_name_neq_fname (t t' : string) :
  Sink.fname t +:+ ".tmp" <> Sink.fname t'.
Proof.
  intros H. apply (tmp_name_not_json (Sink.fname t)).
  exists t'. exact H.
Qed.

Lemma div_inj (d : list string) (n1 n2 : string) :
  Sink.div d n1 = Sink.div d n2 -> n1 = n2.
Proof. unfold Sink.div. intros H. apply app_inv_head in H. congruence. Qed.

Lemma parent_div (d : list string) (n : string) : Sink.parent (Sink.div d n) = d.
Proof. unfold Sink.parent, Sink.div. apply removelast_last. Qed.

Lemma name_div (d : list string) (n : string) : Sink.name (Sink.div d n) = n.
Proof. unfold Sink.name, Sink.div. apply last_last. Qed.

Lemma div_not_root (d : list string) (n : string) : Sink.div d n <> [].
Proof. unfold Sink.div. destruct d; discriminate. Qed.

Lemma path_parent_name (p : list string) :
  p <> [] -> Sink.div (Sink.parent p) (Sink.name p) = p.
Proof.
  intros Hp. unfold Sink.div, Sink.parent, Sink.name.
  symmetry. now apply app_removelast_last.
Qed.

Lemma node_at_div (fs : gmap (list string) Sink.Node) (d : list string) (n : string) :
  Sink.node_at fs (Sink.div d n) = fs !! Sink.div d n.
Proof.
  unfold Sink.node_at. pose proof (div_not_root d n).
  destruct (Sink.div d n); congruence.
Qed.

Lemma tmp_neq_final (self : Sink.FileIntentSink) (t t' : string) :
  Sink.tmp_path self t <> Sink.final_path self t'.
Proof.
  unfold Sink.tmp_path, Sink.final_path. intros H.
  apply div_inj in H. now apply tmp_name_neq_fname in H.
Qed.

Lemma final_path_inj (self : Sink.FileIntentSink) (t t' : string) :
  Sink.final_path self t = Sink.final_path self t' -> t = t'.
Proof.
  unfold Sink.final_path. intros H. apply div_inj in H. now apply fname_inj.
Qed.

(** ** The directory listing *)

Lemma elem_of_listdir (fs : gmap (list string) Sink.Node) (d : list string) (n : string) :
  n ∈ Sink.listdir fs d <-> is_Some (fs !! Sink.div d n).
Proof.
  unfold Sink.listdir. rewrite elem_of_map. split.
  - intros (p & -> & Hp). apply elem_of_filter in Hp as [[Hne <-] Hdom].
    rewrite path_parent_name by assumption. now apply elem_of_dom.
  - intros Hs. exists (Sink.div d n). split; [now rewrite name_div |].
    apply elem_of_filter. split; [split |].
    + apply div_not_root.
    + apply parent_div.
    + now apply elem_of_dom.
Qed.

(** ** [emit], step by step *)

Ltac unfold_bind := unfold mbind, mret, Py.result_bind, Py.result_ret, Py.bind in *.

Lemma bind_Ok {A B : Type} (a : A) (k : A -> Py.result B) :
  mbind k (Py.Ok a) = k a.
Proof. reflexivity. Qed.

Lemma bind_Ok_inv {A B : Type} (m : Py.result A) (k : A -> Py.result B) (v : B) :
  mbind k m = Py.Ok v -> exists a, m = Py.Ok a /\ k a = Py.Ok v.
Proof. destruct m as [a|e]; [eauto | discriminate]. Qed.

Lemma open_w_Ok (fs fs1 : gmap (list string) Sink.Node) (p : list string) :
  Sink.open_w fs p = Py.Ok fs1 -> fs1 = <[p := Sink.File EmptyString]> fs.
Proof.
  unfold Sink.open_w. unfold_bind.
  destruct (Sink.check_writable fs p); intros [= <-]. reflexivity.
Qed.

Lemma append_chunk_after_open (fs : gmap (list string) Sink.Node) (p : list string)
    (chunk : string) :
  Sink.append_chunk (<[p := Sink.File EmptyString]> fs) p chunk
  = Py.Ok (<[p := Sink.File chunk]> fs).
Proof.
  unfold Sink.append_chunk. rewrite lookup_insert_eq.
  now rewrite insert_insert_eq.
Qed.

Lemma granted_Ok (os : Sink.System) (fs : gmap (list string) Sink.Node)
    (call : Sink.Syscall) (u : unit) :
  Sink.granted os fs call = Py.Ok u -> os fs call = Sink.Carried.
Proof. unfold Sink.granted. destruct (os fs call); [reflexivity | discriminate]. Qed.

Lemma granted_carried (os : Sink.System) (fs : gmap (list string) Sink.Node)
    (call : Sink.Syscall) :
  os fs call = Sink.Carried -> Sink.granted os fs call = Py.Ok tt.
Proof. unfold Sink.granted. now intros ->. Qed.

Lemma write_text_Ok (os : Sink.System) (fs fs1 : gmap (list string) Sink.Node)
    (p : list string) (data : string) :
  Sink.write_text os fs p data = Py.Ok fs1 -> fs1 = <[p := Sink.File data]> fs.
Proof.
  unfold Sink.write_text. intros H.
  apply bind_Ok_inv in H as (fs0 & Hopen & H).
  apply bind_Ok_inv in H as (u1 & _ & H).
  apply bind_Ok_inv in H as (u2 & _ & H).
  apply open_w_Ok in Hopen. subst fs0.
  rewrite append_chunk_after_open in H. congruence.
Qed.

Lemma path_rename_Ok (os : Sink.System) (fs fs1 : gmap (list string) Sink.Node)
    (src dst : list string) :
  Sink.path_rename os fs src dst = Py.Ok fs1 -> Sink.rename fs src dst = Py.Ok fs1.
Proof.
  unfold Sink.path_rename. intros H.
  apply bind_Ok_inv in H as (fs2 & Hr & H).
  apply bind_Ok_inv in H as (u & _ & H). congruence.
Qed.

Lemma rename_Ok (fs fs1 : gmap (list string) Sink.Node) (src dst : list string) :
  Sink.rename fs src dst = Py.Ok fs1 ->
  exists c, fs !! src = Some (Sink.File c) /\ fs1 = <[dst := Sink.File c]> (delete src fs).
Proof.
  unfold Sink.rename.
  destruct (fs !! src) as [[|c]|]; try discriminate.
  destruct (Sink.node_at fs (Sink.parent dst)) as [[|?]|]; try discriminate.
  destruct (Sink.node_at fs dst) as [[|?]|]; try discriminate;
    intros [= <-]; exists c; split; reflexivity.
Qed.

(** A successful [emit] has exactly one effect on the file system: the
    final path holds the text, and the temporary path is gone. *)
Lemma emit_Ok (os : Sink.System) (self : Sink.FileIntentSink) (token s : string)
    (fs fs' : gmap (list string) Sink.Node) :
  Sink.emit os self token s fs = Py.Ok fs' ->
  fs' = <[Sink.final_path self token := Sink.File s]>
          (delete (Sink.tmp_path self token) fs).
Proof.
  unfold Sink.emit. cbv zeta. intros H.
  apply bind_Ok_inv in H as (fs1 & Hw & H).
  apply write_text_Ok in Hw. subst fs1.
  apply path_rename_Ok, rename_Ok in H as (c & Hc & ->).
  rewrite lookup_insert_eq in Hc. injection Hc as <-.
  now rewrite delete_insert_eq.
Qed.

Lemma parent_tmp_path (self : Sink.FileIntentSink) (token : string) :
  Sink.parent (Sink.tmp_path self token) = Sink.pending self.
Proof. apply parent_div. Qed.

Lemma parent_final_path (self : Sink.FileIntentSink) (token : string) :
  Sink.parent (Sink.final_path self token) = Sink.pending self.
Proof. apply parent_div. Qed.

Lemma open_w_succeeds (fs : gmap (list string) Sink.Node) (d : list string) (n : string) :
  Sink.node_at fs d = Some Sink.Dir ->
  fs !! Sink.div d n <> Some Sink.Dir ->
  Sink.open_w fs (Sink.div d n)
  = Py.Ok (<[Sink.div d n := Sink.File EmptyString]> fs).
Proof.
  intros Hd Hn. unfold Sink.open_w, Sink.check_writable.
  rewrite parent_div, Hd, node_at_div.
  destruct (fs !! Sink.div d n) as [[|?]|]; [congruence | reflexivity | reflexivity].
Qed.

Lemma rename_succeeds (fs : gmap (list string) Sink.Node) (src d : list string)
    (n c : string) :
  fs !! src = Some (Sink.File c) ->
  Sink.node_at fs d = Some Sink.Dir ->
  fs !! Sink.div d n <> Some Sink.Dir ->
  Sink.rename fs src (Sink.div d n)
  = Py.Ok (<[Sink.div d n := Sink.File c]> (delete src fs)).
Proof.
  intros Hsrc Hd Hn. unfold Sink.rename.
  rewrite Hsrc, parent_div, Hd, node_at_div.
  destruct (fs !! Sink.div d n) as [[|?]|]; [congruence | reflexivity | reflexivity].
Qed.

(** Creating or replacing a regular file leaves every directory a
    directory. *)
Lemma node_at_insert_file_dir (fs : gmap (list string) Sink.Node) (p d : list string)
    (c : string) :
  Sink.node_at fs d = Some Sink.Dir ->
  fs !! p <> Some Sink.Dir ->
  Sink.node_at (<[p := Sink.File c]> fs) d = Some Sink.Dir.
Proof.
  unfold Sink.node_at. destruct d as [|x l]; [reflexivity |].
  intros Hd Hp. rewrite lookup_insert_ne; [assumption | congruence].
Qed.

(** [emit] goes through whenever the [pending] directory exists, neither
    of its two paths is taken by a directory, and the operating system
    carries out the open, the write and the rename. *)
Lemma emit_succeeds (os : Sink.System) (self : Sink.FileIntentSink)
    (token s : string) (fs : gmap (list string) Sink.Node) :
  Sink.node_at fs (Sink.pending self) = Some Sink.Dir ->
  fs !! Sink.tmp_path self token <> Some Sink.Dir ->
  fs !! Sink.final_path self token <> Some Sink.Dir ->
  os fs (Sink.SysOpen (Sink.tmp_path self token)) = Sink.Carried ->
  os (<[Sink.tmp_path self token := Sink.File EmptyString]> fs)
     (Sink.SysWrite (Sink.tmp_path self token) s) = Sink.Carried ->
  os (<[Sink.tmp_path self token := Sink.File s]> fs)
     (Sink.SysRename (Sink.tmp_path self token) (Sink.final_path self token))
  = Sink.Carried ->
  Sink.emit os self token s fs
  = Py.Ok (<[Sink.final_path self token := Sink.File s]>
             (delete (Sink.tmp_path self token) fs)).
Proof.
  intros Hpend Htmp Hfin Hopen Hwrite Hrename.
  unfold Sink.emit, Sink.write_text, Sink.path_rename. cbv zeta.
  rewrite (granted_carried _ _ _ Hopen).
  unfold Sink.tmp_path, Sink.final_path in *.
  rewrite open_w_succeeds by assumption. rewrite !bind_Ok.
  rewrite (granted_carried _ _ _ Hwrite). rewrite bind_Ok.
  rewrite append_chunk_after_open. rewrite bind_Ok.
  rewrite (granted_carried _ _ _ Hrename).
  rewrite (rename_succeeds _ _ _ _ s).
  - rewrite !bind_Ok. now rewrite delete_insert_eq.
  - apply lookup_insert_eq.
  - now apply node_at_insert_file_dir.
  - rewrite lookup_insert_ne; [assumption |].
    apply (tmp_neq_final self token token).
Qed.

(** ** The queue on a fresh disk *)

Example init_on_empty_disk :
  Sink.init Fixtures.queue_root ∅ = Py.Ok (Fixtures.sink0, Fixtures.fs_ready).
Proof. reflexivity. Qed.

Example fs_ready_pending_dir :
  Sink.node_at Fixtures.fs_ready (Sink.pending Fixtures.sink0) = Some Sink.Dir.
Proof. reflexivity. Qed.

(** ** C1: what an interrupted [emit] leaves behind *)

(** Before the rename, [emit] has touched nothing but its temporary path. *)
Lemma emit_interrupted_frame (self : Sink.FileIntentSink) (token s : string)
    (pr : Sink.Progress) (fs fs' : gmap (list string) Sink.Node) (p : list string) :
  Sink.emit_interrupted self token s pr fs = Py.Ok fs' ->
  p <> Sink.tmp_path self token ->
  fs' !! p = fs !! p.
Proof.
  intros H Hp. destruct pr as [| |n]; simpl in H.
  - now injection H as <-.
  - apply open_w_Ok in H. subst fs'. now rewrite lookup_insert_ne.
  - unfold_bind.
    destruct (Sink.open_w fs _) as [fs1|e] eqn:Hopen; [|discriminate].
    apply open_w_Ok in Hopen. subst fs1.
    rewrite append_chunk_after_open in H. injection H as <-.
    now rewrite lookup_insert_ne.
Qed.

(** C1 (as the code has it): the temporary file of [emit] is written
    inside the [pending] directory, under the entry name followed by
    [.tmp].  Whatever point before the rename an [emit] is interrupted at,
    the temporary path is the only path it has created or changed; its name
    does not end in the [.json] payload suffix, so every [.json] entry of
    [pending] (and every other path) is exactly as it was before the call. *)
Theorem emit_interrupted_confined_to_tmp (self : Sink.FileIntentSink)
    (token s : string) (pr : Sink.Progress) (fs fs' : gmap (list string) Sink.Node) :
  Sink.emit_interrupted self token s pr fs = Py.Ok fs' ->
  Sink.parent (Sink.tmp_path self token) = Sink.pending self
  /\ Sink.name (Sink.tmp_path self token) = Sink.fname token +:+ ".tmp"
  /\ ~ Sink.ends_with ".json" (Sink.name (Sink.tmp_path self token))
  /\ (forall p, p <> Sink.tmp_path self token -> fs' !! p = fs !! p)
  /\ (forall n, Sink.ends_with ".json" n ->
        fs' !! Sink.div (Sink.pending self) n = fs !! Sink.div (Sink.pending self) n).
Proof.
  intros H. split; [apply parent_tmp_path |].
  split; [apply name_div |].
  split; [unfold Sink.tmp_path; rewrite name_div; apply tmp_name_not_json |].
  split.
  - intros p Hp. eapply emit_interrupted_frame; eassumption.
  - intros n Hn. eapply emit_interrupted_frame; [eassumption |].
    unfold Sink.tmp_path. intros Heq. apply div_inj in Heq. subst n.
    now apply tmp_name_not_json in Hn.
Qed.

Lemma emit_interrupted_confined_to_tmp_witness :
  Sink.emit_interrupted Fixtures.sink0 Fixtures.token_a "[1,2]" (Sink.Written 2)
    Fixtures.fs_ready
  = Py.Ok (<[Sink.tmp_path Fixtures.sink0 Fixtures.token_a := Sink.File "[1"]>
             Fixtures.fs_ready)
  /\ forall n, Sink.ends_with ".json" n ->
       (<[Sink.tmp_path Fixtures.sink0 Fixtures.token_a := Sink.File "[1"]>
          Fixtures.fs_ready) !! Sink.div (Sink.pending Fixtures.sink0) n
       = Fixtures.fs_ready !! Sink.div (Sink.pending Fixtures.sink0) n.
Proof.
  split; [reflexivity |].
  apply (emit_interrupted_confined_to_tmp Fixtures.sink0 Fixtures.token_a
           "[1,2]" (Sink.Written 2) Fixtures.fs_ready).
  reflexivity.
Defined.

(** The wording of the specification does not hold here: the temporary file is
    a child of [pending], and an [emit] cut short after two characters
    leaves a truncated file there that a listing of [pending] shows. *)
Lemma emit_interrupted_visible_in_pending :
  Sink.parent (Sink.tmp_path Fixtures.sink0 Fixtures.token_a)
  = Sink.pending Fixtures.sink0
  /\ Sink.listdir Fixtures.fs_ready (Sink.pending Fixtures.sink0) = ∅
  /\ exists fs1,
       Sink.emit_interrupted Fixtures.sink0 Fixtures.token_a "[1,2]"
         (Sink.Written 2) Fixtures.fs_ready = Py.Ok fs1
       /\ Sink.listdir fs1 (Sink.pending Fixtures.sink0)
          = {[ "6f1c2b9e-0d3a-4c57-9e21-5b7a8c4d2e10.json.tmp" ]}
       /\ Sink.read_text fs1 (Sink.tmp_path Fixtures.sink0 Fixtures.token_a)
          = Py.Ok "[1".
Proof.
  split; [reflexivity |]. split; [vm_compute; reflexivity |].
  eexists. split; [reflexivity |]. split; [vm_compute; reflexivity | reflexivity].
Qed.

(** ** C2: a successful [emit] *)

Lemma listdir_after_emit (self : Sink.FileIntentSink) (token s : string)
    (fs : gmap (list string) Sink.Node) :
  Sink.listdir (<[Sink.final_path self token := Sink.File s]>
                  (delete (Sink.tmp_path self token) fs)) (Sink.pending self)
  = {[ Sink.fname token ]}
    ∪ (Sink.listdir fs (Sink.pending self) ∖ {[ Sink.fname token +:+ ".tmp" ]}).
Proof.
  apply set_eq. intros n.
  rewrite elem_of_union, elem_of_difference, elem_of_singleton, !elem_of_listdir.
  rewrite not_elem_of_singleton.
  unfold Sink.final_path, Sink.tmp_path.
  destruct (decide (n = Sink.fname token)) as [->|Hn].
  - rewrite lookup_insert_eq. split; [auto | eauto].
  - rewrite lookup_insert_ne by (intros H; apply div_inj in H; congruence).
    destruct (decide (n = Sink.fname token +:+ ".tmp")) as [->|Hn'].
    + rewrite lookup_delete_eq. split.
      * intros [x Hx]. discriminate.
      * intros [?|[_ ?]]; congruence.
    + rewrite lookup_delete_ne by (intros H; apply div_inj in H; congruence).
      split; [auto | intros [?|[? _]]; [congruence | assumption]].
Qed.



(** ** C8: entry names *)

Lemma emit_preserves_other_final (os : Sink.System) (self : Sink.FileIntentSink)
    (token s t : string) (fs fs' : gmap (list string) Sink.Node) :
  Sink.emit os self token s fs = Py.Ok fs' ->
  t <> token ->
  fs' !! Sink.final_path self t = fs !! Sink.final_path self t.
Proof.
  intros H Ht. apply emit_Ok in H. subst fs'.
  rewrite lookup_insert_ne by (intros Heq; apply final_path_inj in Heq; congruence).
  apply lookup_delete_ne. apply tmp_neq_final.
Qed.

Lemma emit_all_preserves_final (os : Sink.System) (self : Sink.FileIntentSink)
    (calls : list (string * string)) (t : string) :
  forall fs fs' : gmap (list string) Sink.Node,
  Sink.emit_all os self calls fs = Py.Ok fs' ->
  t ∉ calls.*1 ->
  fs' !! Sink.final_path self t = fs !! Sink.final_path self t.
Proof.
  induction calls as [|[token s] rest IH]; intros fs fs' H Ht; simpl in H.
  - now injection H as <-.
  - unfold_bind.
    destruct (Sink.emit os self token s fs) as [fs1|e] eqn:He; [|discriminate].
    rewrite fmap_cons in Ht. apply not_elem_of_cons in Ht as [Hne Hrest].
    rewrite (IH _ _ H Hrest).
    eapply emit_preserves_other_final; eassumption.
Qed.

(** *** The text of a version-4 UUID *)

Lemma hex_digit_val (d : Z) :
  0 <= d < 16 -> JsonRead.hex_val (Uuid.hex_digit d) = Some (Z.to_nat d).
Proof.
  intros Hd.
  assert (H : d = 0 \/ d = 1 \/ d = 2 \/ d = 3 \/ d = 4 \/ d = 5 \/ d = 6
              \/ d = 7 \/ d = 8 \/ d = 9 \/ d = 10 \/ d = 11 \/ d = 12
              \/ d = 13 \/ d = 14 \/ d = 15) by lia.
  repeat (destruct H as [-> | H]; [reflexivity |]). subst d. reflexivity.
Qed.

(** Equal digit strings of width [w] mean equal numbers, modulo [16^w]. *)
Lemma hex_inj (w : nat) (n m : Z) :
  Uuid.hex w n = Uuid.hex w m -> n mod 16 ^ Z.of_nat w = m mod 16 ^ Z.of_nat w.
Proof.
  induction w as [|w IH]; intros H.
  - change (16 ^ Z.of_nat 0) with 1. now rewrite !Z.mod_1_r.
  - cbn [Uuid.hex] in H. injection H as Hd Hr. apply IH in Hr.
    assert (Hpow : 0 < 16 ^ Z.of_nat w) by (apply Z.pow_pos_nonneg; lia).
    assert (Hdig : (n / 16 ^ Z.of_nat w) mod 16 = (m / 16 ^ Z.of_nat w) mod 16).
    { apply (f_equal JsonRead.hex_val) in Hd.
      rewrite !hex_digit_val in Hd by (apply Z.mod_pos_bound; lia).
      injection Hd as Hd. apply Z2Nat.inj in Hd; [exact Hd | |];
        apply Z.mod_pos_bound; lia. }
    rewrite Nat2Z.inj_succ, Z.pow_succ_r by lia.
    rewrite (Z.mul_comm 16).
    rewrite !Z.rem_mul_r by lia.
    now rewrite Hr, Hdig.
Qed.

Lemma hex_length (w : nat) (n : Z) : String.length (Uuid.hex w n) = w.
Proof. induction w as [|w IH]; [reflexivity |]. cbn. now rewrite IH. Qed.

(** The dashes sit at fixed places, so they can be taken out again. *)
Lemma undash_dashed (h : string) :
  String.length h = 32%nat -> Uuid.undash (Uuid.dashed h) = h.
Proof.
  intros Hlen.
  do 32 (destruct h as [|? h]; [discriminate Hlen |]).
  destruct h; [reflexivity | discriminate Hlen].
Qed.

Lemma land_absorb (x m k : Z) :
  Z.land m k = k -> Z.land (Z.land x m) k = Z.land x k.
Proof. intros H. now rewrite <- Z.land_assoc, H. Qed.

Lemma land_lor_drop (x c k : Z) :
  Z.land c k = 0 -> Z.land (Z.lor x c) k = Z.land x k.
Proof. intros H. now rewrite Z.land_lor_distr_l, H, Z.lor_0_r. Qed.

(** Of a draw, [uuid4] keeps the bits outside the variant and version
    fields, and those only. *)
Lemma uuid4_int_kept (r : Z) :
  Z.land (Uuid.uuid4_int r mod 2 ^ 128) Uuid.kept = Uuid.random_bits r.
Proof.
  unfold Uuid.uuid4_int, Uuid.random_bits. cbv zeta.
  rewrite <- Z.land_ones by lia.
  rewrite land_absorb by reflexivity.
  rewrite land_lor_drop by reflexivity.
  rewrite land_absorb by reflexivity.
  rewrite land_lor_drop by reflexivity.
  now rewrite land_absorb by reflexivity.
Qed.

(** Two draws with the same UUID text agree on the 122 random bits. *)
Lemma uuid4_random_bits (r1 r2 : Z) :
  Uuid.uuid4 r1 = Uuid.uuid4 r2 -> Uuid.random_bits r1 = Uuid.random_bits r2.
Proof.
  unfold Uuid.uuid4, Uuid.str. intros H.
  apply (f_equal Uuid.undash) in H.
  rewrite !undash_dashed in H by apply hex_length.
  apply hex_inj in H. change (16 ^ Z.of_nat 32) with (2 ^ 128) in H.
  rewrite <- (uuid4_int_kept r1), <- (uuid4_int_kept r2). now rewrite H.
Qed.

Lemma NoDup_fmap_determined {A B C : Type} (f : A -> B) (g : A -> C) (l : list A) :
  (forall x y, f x = f y -> g x = g y) ->
  NoDup (g <$> l) -> NoDup (f <$> l).
Proof.
  intros Hfg. induction l as [|a l IH]; [constructor |].
  rewrite !fmap_cons, !NoDup_cons. intros [Hnotin Hnd]. split; [| auto].
  intros Hin. apply Hnotin.
  apply list_elem_of_fmap in Hin as (y & Hy & Hin).
  apply list_elem_of_fmap. exists y. split; [now apply Hfg | exact Hin].
Qed.

(** C8 (as the code has it): an entry name is the text of a version-4 UUID
    followed by the fixed suffix [.json], and it is determined by the 122
    random bits that [uuid.uuid4] keeps of its draw.  For any sequence of
    [emit] calls whose draws differ pairwise in those bits, the entry names
    are pairwise distinct, and after the last call every one of the entries
    is present under [pending] with the text of its own call. *)
Theorem emit_all_entry_names_distinct (os : Sink.System) (self : Sink.FileIntentSink)
    (draws : list (Z * string)) (fs fs' : gmap (list string) Sink.Node) :
  Forall (fun d => 0 <= d.1 < 2 ^ 128) draws ->
  NoDup (Uuid.random_bits <$> draws.*1) ->
  Sink.emit_all os self (prod_map Uuid.uuid4 id <$> draws) fs = Py.Ok fs' ->
  NoDup ((fun d => Sink.fname (Uuid.uuid4 d.1)) <$> draws)
  /\ Forall (fun d => Sink.fname (Uuid.uuid4 d.1) = Uuid.uuid4 d.1 +:+ ".json"
                      /\ String.length (Uuid.uuid4 d.1) = 36%nat) draws
  /\ Forall (fun d => fs' !! Sink.div (Sink.pending self) (Sink.fname (Uuid.uuid4 d.1))
                      = Some (Sink.File d.2)) draws.
Proof.
  intros _ Hnd H.
  assert (Htok : NoDup (Uuid.uuid4 <$> draws.*1)).
  { eapply NoDup_fmap_determined; [| exact Hnd]. apply uuid4_random_bits. }
  split; [| split].
  - rewrite <- list_fmap_compose in Htok.
    eapply NoDup_fmap_determined; [| exact Htok].
    intros x y Hxy. cbn. now apply fname_inj in Hxy.
  - apply Forall_forall. intros d _. split; [reflexivity |].
    unfold Uuid.uuid4, Uuid.str.
    set (h := Uuid.hex 32 _).
    assert (Hlen : String.length h = 32%nat) by apply hex_length.
    clearbody h.
    do 32 (destruct h as [|? h]; [discriminate Hlen |]).
    destruct h; [reflexivity | discriminate Hlen].
  - clear Hnd. revert fs fs' H Htok.
    induction draws as [|[r s] rest IH]; intros fs fs' H Hnd; [constructor |].
    cbn [fmap list_fmap prod_map fst snd id] in H. cbn [Sink.emit_all] in H.
    apply bind_Ok_inv in H as (fs1 & He & H).
    cbn [fmap list_fmap fst] in Hnd. apply NoDup_cons in Hnd as [Hnotin Hnd].
    constructor; [| eapply IH; eassumption].
    cbn [fst snd]. fold (Sink.final_path self (Uuid.uuid4 r)).
    rewrite (emit_all_preserves_final os self _ (Uuid.uuid4 r) fs1 fs' H).
    + apply emit_Ok in He. subst fs1. now rewrite lookup_insert_eq.
    + intros Hin. apply Hnotin.
      rewrite <- list_fmap_compose in Hin.
      apply list_elem_of_fmap in Hin as ([r' s'] & Hr' & Hin). cbn in Hr'.
      apply list_elem_of_fmap. exists r'. split; [exact Hr' |].
      apply list_elem_of_fmap. exists (r', s'). split; [reflexivity | exact Hin].
Qed.

(** The texts of three draws. *)
Example uuid4_draw_a : Uuid.uuid4 Fixtures.draw_a = Fixtures.token_a.
Proof. vm_compute. reflexivity. Qed.

Example uuid4_draw_a' : Uuid.uuid4 Fixtures.draw_a' = Fixtures.token_a.
Proof. vm_compute. reflexivity. Qed.

Example uuid4_draw_b : Uuid.uuid4 Fixtures.draw_b = Fixtures.token_b.
Proof. vm_compute. reflexivity. Qed.

Lemma emit_all_entry_names_distinct_witness :
  exists fs',
    Sink.emit_all Fixtures.reliable Fixtures.sink0
      (prod_map Uuid.uuid4 id
         <$> [(Fixtures.draw_a, "[1,2]"); (Fixtures.draw_b, "[3]")])
      Fixtures.fs_ready
    = Py.Ok fs'
    /\ NoDup ((fun d : Z * string => Sink.fname (Uuid.uuid4 d.1))
                <$> [(Fixtures.draw_a, "[1,2]"); (Fixtures.draw_b, "[3]")])
    /\ fs' !! Sink.div (Sink.pending Fixtures.sink0)
                "6f1c2b9e-0d3a-4c57-9e21-5b7a8c4d2e10.json"
       = Some (Sink.File "[1,2]")
    /\ fs' !! Sink.div (Sink.pending Fixtures.sink0)
                "0a4e7d55-91c2-4f0b-8a6d-3c1f9b7e2d48.json"
       = Some (Sink.File "[3]").
Proof.
  assert (Hrun : exists fs',
            Sink.emit_all Fixtures.reliable Fixtures.sink0
              (prod_map Uuid.uuid4 id
                 <$> [(Fixtures.draw_a, "[1,2]"); (Fixtures.draw_b, "[3]")])
              Fixtures.fs_ready = Py.Ok fs').
  { cbn [fmap list_fmap prod_map fst snd id].
    rewrite uuid4_draw_a, uuid4_draw_b. eexists. reflexivity. }
  destruct Hrun as [fs' Hrun]. exists fs'. split; [exact Hrun |].
  destruct (emit_all_entry_names_distinct Fixtures.reliable Fixtures.sink0
              [(Fixtures.draw_a, "[1,2]"); (Fixtures.draw_b, "[3]")]
              Fixtures.fs_ready fs') as (Hnd & _ & Hall).
  - repeat constructor; cbn [fst]; unfold Fixtures.draw_a, Fixtures.draw_b; lia.
  - apply (bool_decide_unpack _). vm_compute. exact I.
  - exact Hrun.
  - split; [exact Hnd |].
    apply Forall_cons in Hall as [Ha Hall]. apply Forall_cons in Hall as [Hb _].
    cbn [fst snd] in Ha, Hb. rewrite uuid4_draw_a in Ha. rewrite uuid4_draw_b in Hb.
    split; [exact Ha | exact Hb].
Defined.

(** The wording of the specification does not hold here: nothing in [emit]
    checks that a name is new.  Two calls whose draws differ, but only in
    bits that [uuid4] overwrites with the version number, get the same entry
    name; both calls succeed, and [pending] holds one entry, with the text of
    the second call. *)
Lemma emit_all_same_name_for_two_calls :
  Fixtures.draw_a <> Fixtures.draw_a'
  /\ Sink.fname (Uuid.uuid4 Fixtures.draw_a)
     = "6f1c2b9e-0d3a-4c57-9e21-5b7a8c4d2e10.json"
  /\ Sink.fname (Uuid.uuid4 Fixtures.draw_a')
     = "6f1c2b9e-0d3a-4c57-9e21-5b7a8c4d2e10.json"
  /\ ~ NoDup [Sink.fname (Uuid.uuid4 Fixtures.draw_a);
              Sink.fname (Uuid.uuid4 Fixtures.draw_a')]
  /\ exists fs',
       Sink.emit_all Fixtures.reliable Fixtures.sink0
         [(Uuid.uuid4 Fixtures.draw_a, "[1,2]"); (Uuid.uuid4 Fixtures.draw_a', "[3]")]
         Fixtures.fs_ready
       = Py.Ok fs'
       /\ Sink.listdir fs' (Sink.pending Fixtures.sink0)
          = {[ "6f1c2b9e-0d3a-4c57-9e21-5b7a8c4d2e10.json" ]}
       /\ fs' !! Sink.final_path Fixtures.sink0 (Uuid.uuid4 Fixtures.draw_a)
          = Some (Sink.File "[3]").
Proof.
  rewrite uuid4_draw_a, uuid4_draw_a'.
  split; [discriminate |]. split; [reflexivity |]. split; [reflexivity |]. split.
  - intros Hnd. apply NoDup_cons in Hnd as [Hnotin _]. apply Hnotin.
    apply list_elem_of_singleton. reflexivity.
  - eexists. split; [reflexivity |]. split; [vm_compute; reflexivity | reflexivity].
Qed.

(** ** C4: timestamps on the wire *)

Lemma digit_val_digit (d : Z) :
  0 <= d < 10 -> Datetime.digit_val (Datetime.digit d) = Some d.
Proof.
  intros Hd.
  assert (H : d = 0 \/ d = 1 \/ d = 2 \/ d = 3 \/ d = 4 \/ d = 5 \/ d = 6
              \/ d = 7 \/ d = 8 \/ d = 9) by lia.
  repeat (destruct H as [-> | H]; [reflexivity |]). subst d. reflexivity.
Qed.

Lemma digit_not_separator (d : Z) (c : ascii) :
  0 <= d < 10 -> Datetime.digit_val c = None -> Datetime.digit d <> c.
Proof.
  intros Hd Hc Heq. subst c. rewrite digit_val_digit in Hc by assumption.
  discriminate.
Qed.

(** Reading [w] digits back from [%0wd] gives the number, modulo [10^w]. *)
Lemma parse_digits_pad (w : nat) :
  forall (n acc : Z) (rest : string),
  0 <= n ->
  Datetime.parse_digits w acc (Datetime.pad w n +:+ rest)
  = Some (acc * 10 ^ Z.of_nat w + n mod 10 ^ Z.of_nat w, rest).
Proof.
  induction w as [|w IH]; intros n acc rest Hn.
  - simpl Datetime.pad. cbn [Datetime.parse_digits].
    change (EmptyString +:+ rest) with rest.
    rewrite Z.mod_1_r. f_equal. f_equal. simpl. lia.
  - cbn [Datetime.pad]. rewrite string_app_cons. cbn [Datetime.parse_digits].
    assert (Hpow : 0 < 10 ^ Z.of_nat w) by (apply Z.pow_pos_nonneg; lia).
    rewrite digit_val_digit by (apply Z.mod_pos_bound; lia).
    rewrite IH by assumption. f_equal. f_equal.
    rewrite Nat2Z.inj_succ, Z.pow_succ_r by lia.
    rewrite (Z.mul_comm 10 (10 ^ Z.of_nat w)).
    rewrite (Z.rem_mul_r n (10 ^ Z.of_nat w) 10) by lia.
    lia.
Qed.

Lemma parse_digits_pad_small (w : nat) (n : Z) (rest : string) :
  0 <= n < 10 ^ Z.of_nat w ->
  Datetime.parse_digits w 0 (Datetime.pad w n +:+ rest) = Some (n, rest).
Proof.
  intros Hn. rewrite parse_digits_pad by lia.
  rewrite Z.mod_small by assumption. reflexivity.
Qed.

Lemma parse_fraction_format (us : Z) (rest : string) :
  0 <= us < 1000000 ->
  (forall r, rest <> String "." r) ->
  Datetime.parse_fraction (Datetime.format_fraction us rest) = Some (us, rest).
Proof.
  intros Hus Hrest. unfold Datetime.format_fraction.
  destruct (us =? 0) eqn:Hz.
  - apply Z.eqb_eq in Hz. subst us. unfold Datetime.parse_fraction.
    destruct rest as [|c r]; [reflexivity |].
    destruct (Ascii.eqb c ".") eqn:Hc; [| reflexivity].
    apply Ascii.eqb_eq in Hc. subst c. now specialize (Hrest r).
  - unfold Datetime.parse_fraction. rewrite Ascii.eqb_refl.
    apply parse_digits_pad_small. simpl. lia.
Qed.

Lemma format_offset_head (off : Z) :
  exists c r, Datetime.format_offset off = String c r /\ (c = "+"%char \/ c = "-"%char).
Proof.
  unfold Datetime.format_offset. destruct (off <? 0); eauto.
Qed.

Lemma format_tz_not_fraction (off : option Z) (r : string) :
  Datetime.format_tz off <> String "." r.
Proof.
  destruct off as [o|]; [| discriminate]. unfold Datetime.format_tz.
  destruct (format_offset_head o) as (c & r' & -> & [-> | ->]); discriminate.
Qed.

Lemma parse_offset_format (off : Z) :
  - Datetime.day_us < off < Datetime.day_us ->
  Datetime.parse_offset (Datetime.format_offset off) = Some (Some off).
Proof.
  unfold Datetime.day_us. intros Hoff.
  unfold Datetime.format_offset, Datetime.parse_offset.
  set (a := Z.abs off).
  assert (Ha : 0 <= a < 86400000000) by (subst a; lia).
  set (hh := a / 3600000000). set (r := a mod 3600000000).
  set (mm := r / 60000000). set (s_us := r mod 60000000).
  assert (Hr : 0 <= r < 3600000000) by (subst r; apply Z.mod_pos_bound; lia).
  assert (Hs : 0 <= s_us < 60000000) by (subst s_us; apply Z.mod_pos_bound; lia).
  assert (Hhh : 0 <= hh < 24).
  { subst hh. split; [apply Z.div_pos; lia | apply Z.div_lt_upper_bound; lia]. }
  assert (Hmm : 0 <= mm < 60).
  { subst mm. split; [apply Z.div_pos; lia | apply Z.div_lt_upper_bound; lia]. }
  assert (Ea : a = hh * 3600000000 + r).
  { subst hh r. pose proof (Z.div_mod a 3600000000). lia. }
  assert (Er : r = mm * 60000000 + s_us).
  { subst mm s_us. pose proof (Z.div_mod r 60000000). lia. }
  assert (Hsign : forall v, v = a ->
            (if off <? 0 then -1 else 1) * v = off).
  { intros v ->. subst a. destruct (off <? 0) eqn:E.
    - apply Z.ltb_lt in E. lia.
    - apply Z.ltb_ge in E. lia. }
  assert (Hc : (if Ascii.eqb (if off <? 0 then "-"%char else "+"%char) "+"
                then Some 1
                else if Ascii.eqb (if off <? 0 then "-"%char else "+"%char) "-"
                     then Some (-1) else None)
               = Some (if off <? 0 then -1 else 1)).
  { destruct (off <? 0); reflexivity. }
  rewrite Hc. cbn [mbind option_bind].
  rewrite parse_digits_pad_small by (simpl; lia). cbn [mbind option_bind].
  cbn [Datetime.expect]. rewrite Ascii.eqb_refl. cbn [mbind option_bind].
  rewrite parse_digits_pad_small by (simpl; lia). cbn [mbind option_bind].
  destruct (s_us =? 0) eqn:Hz.
  - apply Z.eqb_eq in Hz. do 2 f_equal. apply Hsign. lia.
  - apply Z.eqb_neq in Hz.
    cbn [Datetime.expect]. rewrite Ascii.eqb_refl. cbn [mbind option_bind].
    assert (Hss : 0 <= s_us / 1000000 < 60).
    { split; [apply Z.div_pos; lia | apply Z.div_lt_upper_bound; lia]. }
    assert (Hus : 0 <= s_us mod 1000000 < 1000000) by (apply Z.mod_pos_bound; lia).
    rewrite parse_digits_pad_small by (simpl; lia). cbn [mbind option_bind].
    rewrite parse_fraction_format by (assumption || discriminate).
    cbn [mbind option_bind]. do 2 f_equal. apply Hsign.
    pose proof (Z.div_mod s_us 1000000). lia.
Qed.

Lemma expect_cons (c : ascii) (s : string) :
  Datetime.expect c (String c s) = Some s.
Proof. unfold Datetime.expect. now rewrite Ascii.eqb_refl. Qed.

Lemma parse_offset_format_tz (off : option Z) :
  match off with
  | Some o => - Datetime.day_us < o < Datetime.day_us
  | None => True
  end ->
  Datetime.parse_offset (Datetime.format_tz off) = Some off.
Proof.
  destruct off as [o|]; intros H; [| reflexivity].
  unfold Datetime.format_tz. now apply parse_offset_format.
Qed.

Lemma valid_ranges (d : Datetime.datetime) :
  Datetime.valid d ->
  0 <= Datetime.year d < 10000 /\ 0 <= Datetime.month d < 100
  /\ 0 <= Datetime.day d < 100 /\ 0 <= Datetime.hour d < 100
  /\ 0 <= Datetime.minute d < 100 /\ 0 <= Datetime.second d < 100
  /\ 0 <= Datetime.microsecond d < 1000000
  /\ match Datetime.utcoffset d with
     | Some o => - Datetime.day_us < o < Datetime.day_us
     | None => True
     end.
Proof.
  unfold Datetime.valid, Datetime.validb, Datetime.between, Datetime.day_us.
  assert (Hdim : Datetime.days_in_month (Datetime.year d) (Datetime.month d) <= 31).
  { unfold Datetime.days_in_month.
    repeat match goal with |- context [if ?b then _ else _] => destruct b end; lia. }
  destruct (Datetime.utcoffset d) as [o|]; intros H;
    repeat (apply andb_prop in H as [H ?]);
    repeat match goal with
           | H : (_ <=? _) = true |- _ => apply Z.leb_le in H
           | H : (_ <? _) = true |- _ => apply Z.ltb_lt in H
           end;
    repeat split; try lia.
Qed.

(** Reading back what [isoformat] wrote gives the datetime itself: every
    field, and the UTC offset or its absence. *)
Lemma fromisoformat_isoformat (d : Datetime.datetime) :
  Datetime.valid d -> Datetime.fromisoformat (Datetime.isoformat d) = Some d.
Proof.
  intros Hv. apply valid_ranges in Hv.
  destruct Hv as (Hy & Hmo & Hd & Hh & Hmi & Hs & Hus & Hoff).
  unfold Datetime.fromisoformat, Datetime.isoformat.
  rewrite parse_digits_pad_small by (simpl; lia). cbn [mbind option_bind].
  rewrite expect_cons. cbn [mbind option_bind].
  rewrite parse_digits_pad_small by (simpl; lia). cbn [mbind option_bind].
  rewrite expect_cons. cbn [mbind option_bind].
  rewrite parse_digits_pad_small by (simpl; lia). cbn [mbind option_bind].
  rewrite expect_cons. cbn [mbind option_bind].
  rewrite parse_digits_pad_small by (simpl; lia). cbn [mbind option_bind].
  rewrite expect_cons. cbn [mbind option_bind].
  rewrite parse_digits_pad_small by (simpl; lia). cbn [mbind option_bind].
  rewrite expect_cons. cbn [mbind option_bind].
  rewrite parse_digits_pad_small by (simpl; lia). cbn [mbind option_bind].
  rewrite parse_fraction_format by (assumption || apply format_tz_not_fraction).
  cbn [mbind option_bind].
  rewrite parse_offset_format_tz by assumption. cbn [mbind option_bind].
  destruct d; reflexivity.
Qed.

Lemma isoformat_inj (d d' : Datetime.datetime) :
  Datetime.valid d -> Datetime.valid d' ->
  Datetime.isoformat d = Datetime.isoformat d' -> d = d'.
Proof.
  intros Hv Hv' Heq.
  apply fromisoformat_isoformat in Hv, Hv'.
  rewrite Heq in Hv. congruence.
Qed.

Lemma format_fraction_app (us : Z) (rest : string) :
  Datetime.format_fraction us rest
  = Datetime.format_fraction us EmptyString +:+ rest.
Proof.
  unfold Datetime.format_fraction. destruct (us =? 0); [reflexivity |].
  now rewrite string_app_cons, string_app_assoc.
Qed.

(** The text of a datetime is its wall-clock text followed by the offset
    designator, which is empty exactly for a naive datetime. *)
Lemma isoformat_split (d : Datetime.datetime) :
  Datetime.isoformat d
  = Datetime.isoformat (Datetime.naive d) +:+ Datetime.format_tz (Datetime.utcoffset d).
Proof.
  unfold Datetime.isoformat, Datetime.naive. cbn [Datetime.year Datetime.month
    Datetime.day Datetime.hour Datetime.minute Datetime.second
    Datetime.microsecond Datetime.utcoffset Datetime.format_tz].
  rewrite (format_fraction_app _ (Datetime.format_tz _)).
  repeat rewrite ?string_app_assoc, ?string_app_cons.
  reflexivity.
Qed.




Example isoformat_aware_has_designator :
  Datetime.has_offset_designator (Datetime.isoformat TimeFixtures.noon_plus2) = true.
Proof. reflexivity. Qed.

(** ** C5: the wire encoding of an intent *)

(** *** Characters and their escapes *)

Lemma string_length_app (a b : string) :
  String.length (a +:+ b) = (String.length a + String.length b)%nat.
Proof.
  induction a as [|c a IH]; [reflexivity |].
  rewrite string_app_cons. cbn [String.length]. now rewrite IH.
Qed.

Lemma hex_val_hex_digit (d : N) :
  (d < 16)%N -> JsonRead.hex_val (Json.hex_digit d) = Some (N.to_nat d).
Proof.
  intros Hd.
  assert (H : (d = 0 \/ d = 1 \/ d = 2 \/ d = 3 \/ d = 4 \/ d = 5 \/ d = 6
               \/ d = 7 \/ d = 8 \/ d = 9 \/ d = 10 \/ d = 11 \/ d = 12
               \/ d = 13 \/ d = 14 \/ d = 15)%N) by lia.
  repeat (destruct H as [-> | H]; [reflexivity |]). subst d. reflexivity.
Qed.

Lemma read_u_escape (a b h l : ascii) (t : string) :
  JsonRead.read_string_body
    (String Json.backslash (String "u" (String a (String b (String h (String l t))))))
  = match JsonRead.hex_val a, JsonRead.hex_val b, JsonRead.hex_val h,
          JsonRead.hex_val l with
    | Some va, Some vb, Some vh, Some vl =>
        match JsonRead.read_string_body t with
        | Some (us, rest) =>
            Some (N.of_nat (4096 * va + 256 * vb + 16 * vh + vl) :: us, rest)
        | None => None
        end
    | _, _, _, _ => None
    end.
Proof. reflexivity. Qed.

(** Four hexadecimal digits spell the number they were taken from. *)
Lemma hex4_value (n : N) :
  (n < 65536)%N ->
  N.of_nat (4096 * N.to_nat ((n / 4096) mod 16)
            + 256 * N.to_nat ((n / 256) mod 16)
            + 16 * N.to_nat ((n / 16) mod 16)
            + N.to_nat (n mod 16)) = n.
Proof.
  intros Hn.
  assert (E256 : (n / 256 = n / 16 / 16)%N) by (now rewrite N.Div0.div_div).
  assert (E4096 : (n / 4096 = n / 16 / 16 / 16)%N)
    by (now rewrite !N.Div0.div_div).
  rewrite E256, E4096.
  set (q1 := (n / 16)%N). set (q2 := (q1 / 16)%N). set (q3 := (q2 / 16)%N).
  pose proof (N.Div0.div_mod n 16) as H0. fold q1 in H0.
  pose proof (N.Div0.div_mod q1 16) as H1. fold q2 in H1.
  pose proof (N.Div0.div_mod q2 16) as H2. fold q3 in H2.
  pose proof (N.mod_lt n 16 ltac:(lia)).
  pose proof (N.mod_lt q1 16 ltac:(lia)).
  pose proof (N.mod_lt q2 16 ltac:(lia)).
  clearbody q1 q2 q3.
  assert (Hq3 : (q3 mod 16 = q3)%N).
  { apply N.mod_small.
    generalize dependent (n mod 16)%N. generalize dependent (q1 mod 16)%N.
    generalize dependent (q2 mod 16)%N. intros. lia. }
  rewrite Hq3.
  generalize dependent (n mod 16)%N. generalize dependent (q1 mod 16)%N.
  generalize dependent (q2 mod 16)%N. intros. lia.
Qed.

(** A [\uXXXX] escape reads back as the code unit it was written for. *)
Lemma u_escape_read (n : N) (t : string) :
  (n < 65536)%N ->
  JsonRead.read_string_body (Json.u_escape n +:+ t)
  = match JsonRead.read_string_body t with
    | Some (us, rest) => Some (n :: us, rest)
    | None => None
    end.
Proof.
  intros Hn. unfold Json.u_escape. rewrite !string_app_cons.
  change (EmptyString +:+ t) with t. rewrite read_u_escape.
  rewrite !hex_val_hex_digit by (apply N.mod_lt; lia).
  now rewrite hex4_value.
Qed.

Lemma lor_surrogate_base (y : N) :
  (y < 1024)%N ->
  N.lor 0xd800 y = (0xd800 + y)%N /\ N.lor 0xdc00 y = (0xdc00 + y)%N.
Proof.
  intros Hy.
  assert (Hall : forallb (fun k => let y := N.of_nat k in
                            N.eqb (N.lor 0xd800 y) (0xd800 + y)
                            && N.eqb (N.lor 0xdc00 y) (0xdc00 + y))
                   (seq 0 1024) = true) by (vm_compute; reflexivity).
  rewrite forallb_forall in Hall.
  specialize (Hall (N.to_nat y)). cbv zeta in Hall. rewrite N2Nat.id in Hall.
  destruct (andb_prop _ _ (Hall ltac:(apply in_seq; lia))) as [H1 H2].
  split; now apply N.eqb_eq.
Qed.

(** The two halves of a surrogate pair, in arithmetic. *)
Lemma high_surrogate_eq (c : N) :
  Json.high_surrogate c = (0xd800 + ((c - 0x10000) / 1024) mod 1024)%N.
Proof.
  unfold Json.high_surrogate. change 0x3ff%N with (N.ones 10).
  rewrite N.land_ones, N.shiftr_div_pow2. change (2 ^ 10)%N with 1024%N.
  apply lor_surrogate_base. apply N.mod_lt. lia.
Qed.

Lemma low_surrogate_eq (c : N) :
  Json.low_surrogate c = (0xdc00 + (c - 0x10000) mod 1024)%N.
Proof.
  unfold Json.low_surrogate. change 0x3ff%N with (N.ones 10).
  rewrite N.land_ones. change (2 ^ 10)%N with 1024%N.
  apply lor_surrogate_base. apply N.mod_lt. lia.
Qed.

Lemma escape_char_small (a : ascii) (t : string) :
  JsonRead.read_string_body (Json.escape_char (N_of_ascii a) +:+ t)
  = match JsonRead.read_string_body t with
    | Some (us, rest) => Some (N_of_ascii a :: us, rest)
    | None => None
    end.
Proof. destruct a as [[] [] [] [] [] [] [] []]; reflexivity. Qed.

(** Above the Latin-1 range every character is written as [\u] escapes. *)
Lemma escape_char_large (c : N) :
  (256 <= c)%N ->
  Json.escape_char c
  = if (c <? 0x10000)%N then Json.u_escape c
    else Json.u_escape (Json.high_surrogate c) +:+ Json.u_escape (Json.low_surrogate c).
Proof.
  intros Hc. unfold Json.escape_char.
  repeat match goal with
         | |- context [(c =? ?k)%N] =>
             replace (c =? k)%N with false by (symmetry; apply N.eqb_neq; lia)
         end.
  replace (c <=? 126)%N with false by (symmetry; apply N.leb_gt; lia).
  now rewrite andb_false_r.
Qed.

(** The escape of a character reads back as its UTF-16 code units. *)
Lemma escape_char_read (c : N) (t : string) :
  JsonRead.read_string_body (Json.escape_char c +:+ t)
  = match JsonRead.read_string_body t with
    | Some (us, rest) => Some (Json.utf16_units c ++ us, rest)
    | None => None
    end.
Proof.
  destruct (N.lt_ge_cases c 256) as [Hsmall | Hbig].
  - rewrite <- (N_ascii_embedding c Hsmall). rewrite escape_char_small.
    unfold Json.utf16_units.
    replace (N_of_ascii (ascii_of_N c) <? 0x10000)%N with true; [reflexivity |].
    symmetry. apply N.ltb_lt. pose proof (N_ascii_bounded (ascii_of_N c)). lia.
  - rewrite escape_char_large by assumption. unfold Json.utf16_units.
    destruct (c <? 0x10000)%N eqn:E.
    + apply N.ltb_lt in E. now apply u_escape_read.
    + rewrite string_app_assoc.
      rewrite u_escape_read
        by (rewrite high_surrogate_eq;
            pose proof (N.mod_lt ((c - 0x10000) / 1024) 1024); lia).
      rewrite u_escape_read
        by (rewrite low_surrogate_eq;
            pose proof (N.mod_lt (c - 0x10000) 1024); lia).
      destruct (JsonRead.read_string_body t) as [[us rest]|]; reflexivity.
Qed.

(** A string literal reads back as the UTF-16 code units of the string it
    was written for, up to the closing quote. *)
Lemma escape_read (s : list N) (rest : string) :
  JsonRead.read_string_body (Json.escape s +:+ String Json.quote_char rest)
  = Some (Json.utf16 s, rest).
Proof.
  induction s as [|c r IH]; [reflexivity |].
  cbn [Json.escape Json.utf16 flat_map].
  rewrite string_app_assoc, escape_char_read. fold (Json.utf16 r). now rewrite IH.
Qed.

Lemma encode_str_read (s : list N) (rest : string) :
  Json.encode_str s +:+ rest
  = String Json.quote_char (Json.escape s +:+ String Json.quote_char rest).
Proof.
  unfold Json.encode_str. rewrite string_app_cons. f_equal.
  now rewrite string_app_assoc.
Qed.

(** An ASCII text is its own sequence of code units. *)
Lemma utf16_text (s : string) : Json.utf16 (Py.text s) = Py.text s.
Proof.
  unfold Py.text, Json.utf16.
  induction (list_ascii_of_string s) as [|c l IH]; [reflexivity |].
  cbn [map flat_map]. rewrite IH. unfold Json.utf16_units.
  replace (N_of_ascii c <? 0x10000)%N with true; [reflexivity |].
  symmetry. apply N.ltb_lt. pose proof (N_ascii_bounded c). lia.
Qed.

(** *** Numbers *)

Lemma span_number_app (t rest : string) :
  forallb JsonRead.number_char (list_ascii_of_string t) = true ->
  JsonRead.goes_on rest = true ->
  JsonRead.span_number (t +:+ rest) = (t, rest).
Proof.
  intros Hall Hrest. induction t as [|c t IH].
  - change (EmptyString +:+ rest) with rest.
    destruct rest as [|c r]; [discriminate |]. cbn in Hrest.
    cbn [JsonRead.span_number].
    replace (JsonRead.number_char c) with false; [reflexivity |].
    apply orb_prop in Hrest as [H | H]; apply Ascii.eqb_eq in H; subst c; reflexivity.
  - cbn [list_ascii_of_string forallb] in Hall. apply andb_prop in Hall as [Hc Ht].
    rewrite string_app_cons. cbn [JsonRead.span_number]. now rewrite Hc, IH.
Qed.

Lemma read_number_app (t rest : string) :
  JsonRead.number t = true ->
  JsonRead.goes_on rest = true ->
  JsonRead.read_number (t +:+ rest) = Some (t, rest).
Proof.
  intros Hn Hrest. unfold JsonRead.read_number.
  pose proof Hn as Hn'. unfold JsonRead.number in Hn'.
  apply andb_prop in Hn' as [Hall _].
  rewrite span_number_app by assumption. now rewrite Hn.
Qed.

(** A number starts with a number character, which is neither a quote nor
    the letter of [null]. *)
Lemma number_head (t : string) :
  JsonRead.number t = true ->
  exists c r, t = String c r
              /\ Ascii.eqb c Json.quote_char = false /\ Ascii.eqb c "n" = false.
Proof.
  intros Hn. destruct t as [|c r]; [discriminate Hn |].
  exists c, r. split; [reflexivity |].
  unfold JsonRead.number in Hn. apply andb_prop in Hn as [Hall _].
  cbn [list_ascii_of_string forallb] in Hall. apply andb_prop in Hall as [Hc _].
  split.
  - destruct (Ascii.eqb c Json.quote_char) eqn:E; [| reflexivity].
    apply Ascii.eqb_eq in E. subst c. discriminate Hc.
  - destruct (Ascii.eqb c "n") eqn:E; [| reflexivity].
    apply Ascii.eqb_eq in E. subst c. discriminate Hc.
Qed.

(** *** Values, members, objects *)

Section Readable.

Variable float_repr : float -> string.

(** The text that Python gives for a finite double is a JSON number. *)
Hypothesis float_repr_number :
  forall x, Json.finite x = true -> JsonRead.number (float_repr x) = true.

Lemma floatstr_finite (x : float) :
  Json.finite x = true -> Json.floatstr float_repr x = float_repr x.
Proof.
  unfold Json.finite, Json.floatstr. intros H.
  apply andb_prop in H as [H H3]. apply andb_prop in H as [H1 H2].
  rewrite H1. cbn [negb].
  destruct (PrimFloat.eqb x infinity); [discriminate |].
  destruct (PrimFloat.eqb x neg_infinity); [discriminate |]. reflexivity.
Qed.

(** The encoding of a value reads back as the value it denotes. *)
Lemma encode_value_read (v : Json.value) (j : JsonRead.jvalue) (rest : string) :
  JsonRead.decoded float_repr v = Some j ->
  JsonRead.goes_on rest = true ->
  exists e, Json.encode_value float_repr v = Py.Ok e
            /\ JsonRead.read_value (e +:+ rest) = Some (j, rest).
Proof.
  intros Hj Hrest. destruct v as [|s|f|d]; cbn [JsonRead.decoded] in Hj.
  - injection Hj as <-. eexists. split; reflexivity.
  - injection Hj as <-. eexists. split; [reflexivity |].
    rewrite encode_str_read. cbn [JsonRead.read_value].
    rewrite Ascii.eqb_refl. now rewrite escape_read.
  - destruct (Json.finite f) eqn:Hf; [| discriminate]. injection Hj as <-.
    eexists. split; [reflexivity |]. cbn [Json.encode_value].
    rewrite floatstr_finite by assumption.
    pose proof (float_repr_number f Hf) as Hn.
    destruct (number_head _ Hn) as (c & r & E & Hq & Hnull).
    pose proof (read_number_app _ _ Hn Hrest) as Hread.
    rewrite E in *. rewrite string_app_cons in *.
    cbn [JsonRead.read_value]. rewrite Hq, Hnull. now rewrite Hread.
  - discriminate.
Qed.

Lemma dumps_items_length (items : list (string * Json.value)) :
  forall r, Json.dumps_items float_repr items = Py.Ok r ->
  (length items <= String.length r)%nat.
Proof.
  induction items as [|[k v] rest IH]; intros r H; [cbn; lia |].
  cbn [Json.dumps_items] in H. apply bind_Ok_inv in H as (e & _ & H).
  destruct rest as [|kv rest'].
  - injection H as <-. unfold Json.encode_str. rewrite string_app_cons. cbn. lia.
  - apply bind_Ok_inv in H as (r' & Hr & H). injection H as <-.
    specialize (IH r' Hr). unfold Json.encode_str.
    rewrite string_app_cons. cbn [String.length].
    rewrite !string_length_app. cbn [String.length length] in *. lia.
Qed.

(** The members written by [json.dumps] read back one by one, in the
    order written, up to the closing brace. *)
Lemma dumps_items_read (items : list (string * Json.value)) :
  forall (js : list (list N * JsonRead.jvalue)) (fuel : nat),
  items <> [] ->
  JsonRead.decoded_items float_repr items = Some js ->
  (length items <= fuel)%nat ->
  exists r,
    Json.dumps_items float_repr items = Py.Ok r
    /\ forall rest,
         JsonRead.read_members fuel (r +:+ String "}" rest) = Some (js, rest).
Proof.
  induction items as [|[k v] items' IH]; intros js fuel Hne Hjs Hfuel;
    [congruence |].
  cbn [JsonRead.decoded_items] in Hjs.
  destruct (JsonRead.decoded float_repr v) as [j|] eqn:Hj; [| discriminate].
  destruct (JsonRead.decoded_items float_repr items') as [js'|] eqn:Hjs';
    [| discriminate].
  injection Hjs as <-.
  destruct fuel as [|fuel]; [cbn in Hfuel; lia |].
  cbn [Json.dumps_items].
  destruct items' as [|kv items''].
  - destruct (encode_value_read v j (String "}" EmptyString) Hj eq_refl)
      as (e & He & _).
    rewrite He, bind_Ok. eexists. split; [reflexivity |]. intros rest.
    injection Hjs' as <-.
    destruct (encode_value_read v j (String "}" rest) Hj eq_refl)
      as (e' & He' & Hread).
    rewrite He in He'. injection He' as <-.
    rewrite !string_app_assoc, encode_str_read. cbn [JsonRead.read_members].
    rewrite Ascii.eqb_refl, escape_read, utf16_text.
    change (":" +:+ (e +:+ String "}" rest)) with (String ":" (e +:+ String "}" rest)).
    cbn iota beta. now rewrite Hread.
  - destruct (IH js' fuel) as (r' & Hr' & Hrest');
      [discriminate | reflexivity | cbn [length] in *; lia |].
    destruct (encode_value_read v j (String "," EmptyString) Hj eq_refl)
      as (e & He & _).
    rewrite He, bind_Ok, Hr', bind_Ok. eexists. split; [reflexivity |].
    intros rest.
    destruct (encode_value_read v j (String "," (r' +:+ String "}" rest)) Hj eq_refl)
      as (e' & He' & Hread).
    rewrite He in He'. injection He' as <-.
    rewrite !string_app_assoc, encode_str_read. cbn [JsonRead.read_members].
    rewrite Ascii.eqb_refl, escape_read, utf16_text.
    change (":" +:+ (e +:+ ("," +:+ (r' +:+ String "}" rest))))
      with (String ":" (e +:+ String "," (r' +:+ String "}" rest))).
    cbn iota beta. rewrite Hread. cbn iota beta. now rewrite Hrest'.
Qed.

(** What [json.dumps] writes for a dict of strings, finite numbers and
    [None] is a JSON object, and reads back as the members of the dict in
    their order. *)
Lemma dumps_read (items : list (string * Json.value))
    (js : list (list N * JsonRead.jvalue)) :
  JsonRead.decoded_items float_repr items = Some js ->
  exists s, Json.dumps float_repr items = Py.Ok s
            /\ JsonRead.read_object s = Some js.
Proof.
  intros Hjs. unfold Json.dumps.
  destruct items as [|kv items'].
  - injection Hjs as <-. eexists. split; reflexivity.
  - destruct (dumps_items_read (kv :: items') js
                (String.length
                   (match Json.dumps_items float_repr (kv :: items') with
                    | Py.Ok r => r +:+ "}"
                    | Py.Raise _ => EmptyString
                    end)))
      as (r & Hr & Hread); [discriminate | exact Hjs | |].
    + destruct (Json.dumps_items float_repr (kv :: items')) as [r|e] eqn:E.
      * apply dumps_items_length in E. rewrite string_length_app. lia.
      * exfalso.
        destruct (dumps_items_read (kv :: items') js (length (kv :: items')))
          as (r & Hr & _); [discriminate | exact Hjs | lia | congruence].
    + rewrite Hr, bind_Ok. eexists. split; [reflexivity |].
      rewrite Hr in Hread. specialize (Hread EmptyString).
      change ("{" +:+ r +:+ "}") with (String "{" (r +:+ "}")).
      cbn [JsonRead.read_object]. cbn [Ascii.eqb Bool.eqb negb andb].
      assert (Hfirst : exists r0, r = String Json.quote_char r0).
      { destruct kv as [k v]. cbn [Json.dumps_items] in Hr.
        apply bind_Ok_inv in Hr as (e & _ & Hr).
        destruct items' as [|kv' items''].
        - injection Hr as <-. unfold Json.encode_str. rewrite string_app_cons. eauto.
        - apply bind_Ok_inv in Hr as (r' & _ & Hr). injection Hr as <-.
          unfold Json.encode_str. rewrite string_app_cons. eauto. }
      destruct Hfirst as [r0 ->]. rewrite string_app_cons in *.
      cbn [String.eqb Ascii.eqb Bool.eqb andb]. cbn iota.
      now rewrite Hread.
Qed.

End Readable.


Lemma repr_halves_number (x : float) :
  JsonRead.number (IntentFixtures.repr_halves x) = true.
Proof.
  unfold IntentFixtures.repr_halves. destruct (PrimFloat.eqb x 1%float); reflexivity.
Qed.



(** ** The encoder on a few characters *)

Example escape_newline :
  Json.escape [10; 120]%N = String Json.backslash "nx".
Proof. reflexivity. Qed.

Example escape_quote_and_backslash :
  Json.escape [34; 92]%N
  = String Json.backslash (String Json.quote_char
      (String Json.backslash (String Json.backslash EmptyString))).
Proof. reflexivity. Qed.

Example escape_latin1 :
  Json.escape [0xe9]%N = String Json.backslash "u00e9".
Proof. reflexivity. Qed.

Example escape_beyond_basic_plane :
  Json.escape [0x1f600]%N
  = String Json.backslash "ud83d" +:+ String Json.backslash "ude00".
Proof. reflexivity. Qed.

(** Two lone surrogates are written like the character they would pair up
    to. *)
Example escape_lone_surrogates :
  Json.encode_str [0xd83d; 0xde00]%N = Json.encode_str [0x1f600]%N.
Proof. reflexivity. Qed.

Example floatstr_not_finite (float_repr : float -> string) :
  Json.floatstr float_repr nan = "NaN"
  /\ Json.floatstr float_repr infinity = "Infinity"
  /\ Json.floatstr float_repr neg_infinity = "-Infinity"
  /\ Json.floatstr float_repr 0x1p-1%float = float_repr 0x1p-1%float.
Proof. repeat split; reflexivity. Qed.

(** Without the replacement of the timestamp, [json.dumps] would refuse
    the dict. *)
Example dumps_rejects_datetime (float_repr : float -> string) :
  Json.dumps float_repr [("timestamp", Json.VDatetime TimeFixtures.noon_naive)]
  = Py.Raise Py.TypeError.
Proof. reflexivity. Qed.

(** ** The encoded text: printable, and without collisions *)

Lemma printable_app (a b : string) :
  forallb JsonRead.printable (list_ascii_of_string (a +:+ b))
  = forallb JsonRead.printable (list_ascii_of_string a)
    && forallb JsonRead.printable (list_ascii_of_string b).
Proof. rewrite chars_of_app. apply forallb_app. Qed.

Lemma hex_digit_printable (d : N) :
  (d < 16)%N -> JsonRead.printable (Json.hex_digit d) = true.
Proof.
  intros Hd.
  assert (H : (d = 0 \/ d = 1 \/ d = 2 \/ d = 3 \/ d = 4 \/ d = 5 \/ d = 6
               \/ d = 7 \/ d = 8 \/ d = 9 \/ d = 10 \/ d = 11 \/ d = 12
               \/ d = 13 \/ d = 14 \/ d = 15)%N) by lia.
  repeat (destruct H as [-> | H]; [reflexivity |]). subst d. reflexivity.
Qed.

Lemma u_escape_printable (n : N) :
  forallb JsonRead.printable (list_ascii_of_string (Json.u_escape n)) = true.
Proof.
  unfold Json.u_escape. cbn [list_ascii_of_string forallb].
  rewrite !hex_digit_printable by (apply N.mod_lt; lia). reflexivity.
Qed.

Lemma escape_char_printable (c : N) :
  forallb JsonRead.printable (list_ascii_of_string (Json.escape_char c)) = true.
Proof.
  destruct (N.lt_ge_cases c 256) as [Hsmall | Hbig].
  - rewrite <- (N_ascii_embedding c Hsmall).
    generalize (ascii_of_N c). intros a.
    destruct a as [[] [] [] [] [] [] [] []]; reflexivity.
  - rewrite escape_char_large by assumption.
    destruct (c <? 0x10000)%N; [apply u_escape_printable |].
    now rewrite printable_app, !u_escape_printable.
Qed.

Lemma escape_printable (s : list N) :
  forallb JsonRead.printable (list_ascii_of_string (Json.escape s)) = true.
Proof.
  induction s as [|c r IH]; [reflexivity |].
  cbn [Json.escape]. now rewrite printable_app, escape_char_printable, IH.
Qed.

Lemma encode_str_printable (s : list N) :
  forallb JsonRead.printable (list_ascii_of_string (Json.encode_str s)) = true.
Proof.
  unfold Json.encode_str. cbn [list_ascii_of_string forallb].
  rewrite printable_app, escape_printable. reflexivity.
Qed.

Section PrintableOutput.

Variable float_repr : float -> string.
Hypothesis float_repr_printable :
  forall x, forallb JsonRead.printable (list_ascii_of_string (float_repr x)) = true.

Lemma floatstr_printable (x : float) :
  forallb JsonRead.printable (list_ascii_of_string (Json.floatstr float_repr x)) = true.
Proof.
  unfold Json.floatstr.
  repeat match goal with |- context [if ?b then _ else _] => destruct b end;
    (reflexivity || apply float_repr_printable).
Qed.

Lemma encode_value_printable (v : Json.value) (e : string) :
  Json.encode_value float_repr v = Py.Ok e ->
  forallb JsonRead.printable (list_ascii_of_string e) = true.
Proof.
  destruct v; cbn [Json.encode_value]; intros [= <-];
    [reflexivity | apply encode_str_printable | apply floatstr_printable].
Qed.

Lemma dumps_items_printable (items : list (string * Json.value)) :
  forall r, Json.dumps_items float_repr items = Py.Ok r ->
  forallb JsonRead.printable (list_ascii_of_string r) = true.
Proof.
  induction items as [|[k v] rest IH]; intros r H.
  - cbn in H. now injection H as <-.
  - cbn [Json.dumps_items] in H. apply bind_Ok_inv in H as (e & He & H).
    apply encode_value_printable in He.
    destruct rest as [|kv rest'].
    + injection H as <-.
      rewrite !printable_app, encode_str_printable, He. reflexivity.
    + apply bind_Ok_inv in H as (r' & Hr & H). injection H as <-.
      rewrite !printable_app, encode_str_printable, He, (IH r' Hr). reflexivity.
Qed.

(** X18: the serialized intent is a single line of printable ASCII.
    Provided the texts of the numbers are printable, every character that
    [serialize_intent] returns lies between [' '] and ['~']: whatever the
    string fields hold, control characters and characters beyond ASCII leave
    only as escapes. *)
Theorem serialize_intent_printable_ascii (i : IntentSerializer.ExecutionIntent)
    (s : string) :
  IntentSerializer.serialize_intent float_repr i = Py.Ok s ->
  forallb JsonRead.printable (list_ascii_of_string s) = true.
Proof.
  unfold IntentSerializer.serialize_intent. cbv zeta. intros H.
  apply bind_Ok_inv in H as (data1 & _ & H).
  unfold Json.dumps in H. apply bind_Ok_inv in H as (items & Hitems & H).
  injection H as <-. apply dumps_items_printable in Hitems.
  rewrite !printable_app, Hitems. reflexivity.
Qed.

End PrintableOutput.

Lemma serialize_intent_printable_ascii_witness :
  exists s,
    IntentSerializer.serialize_intent IntentFixtures.repr_halves
      IntentFixtures.paper_buy = Py.Ok s
    /\ forallb JsonRead.printable (list_ascii_of_string s) = true.
Proof.
  eexists. split; [reflexivity |].
  apply (serialize_intent_printable_ascii IntentFixtures.repr_halves)
    with (i := IntentFixtures.paper_buy).
  - intros x. unfold IntentFixtures.repr_halves.
    destruct (PrimFloat.eqb x 1%float); reflexivity.
  - reflexivity.
Defined.

(** *** UTF-16 keeps scalar values apart *)

Lemma utf16_units_cons (c : N) : exists u us, Json.utf16_units c = u :: us.
Proof. unfold Json.utf16_units. destruct (c <? 0x10000)%N; eauto. Qed.

Lemma utf16_scalar_inj (s : list N) :
  forall t,
  forallb Json.scalar_value s = true ->
  forallb Json.scalar_value t = true ->
  Json.utf16 s = Json.utf16 t -> s = t.
Proof.
  unfold Json.utf16.
  induction s as [|c s IH]; intros [|d t] Hs Ht H.
  - reflexivity.
  - cbn [flat_map] in H. destruct (utf16_units_cons d) as (u & us & E).
    rewrite E in H. discriminate.
  - cbn [flat_map] in H. destruct (utf16_units_cons c) as (u & us & E).
    rewrite E in H. discriminate.
  - cbn [forallb] in Hs, Ht.
    apply andb_prop in Hs as [Hc Hs]. apply andb_prop in Ht as [Hd Ht].
    cbn [flat_map] in H. unfold Json.utf16_units in H.
    unfold Json.scalar_value in Hc, Hd.
    assert (Bc : (c < 0xd800 \/ 0xdfff < c <= 0x10ffff)%N).
    { apply orb_prop in Hc as [Hc | Hc]; [left; now apply N.ltb_lt |].
      apply andb_prop in Hc as [H1 H2]. apply N.ltb_lt in H1. apply N.leb_le in H2.
      right. lia. }
    assert (Bd : (d < 0xd800 \/ 0xdfff < d <= 0x10ffff)%N).
    { apply orb_prop in Hd as [Hd | Hd]; [left; now apply N.ltb_lt |].
      apply andb_prop in Hd as [H1 H2]. apply N.ltb_lt in H1. apply N.leb_le in H2.
      right. lia. }
    clear Hc Hd.
    pose proof (high_surrogate_eq c) as Hhc. pose proof (low_surrogate_eq c) as Hlc.
    pose proof (high_surrogate_eq d) as Hhd. pose proof (low_surrogate_eq d) as Hld.
    pose proof (N.mod_lt ((c - 0x10000) / 1024) 1024 ltac:(lia)) as M1.
    pose proof (N.mod_lt (c - 0x10000) 1024 ltac:(lia)) as M2.
    pose proof (N.mod_lt ((d - 0x10000) / 1024) 1024 ltac:(lia)) as M3.
    pose proof (N.mod_lt (d - 0x10000) 1024 ltac:(lia)) as M4.
    destruct (c <? 0x10000)%N eqn:Ec; destruct (d <? 0x10000)%N eqn:Ed;
      [apply N.ltb_lt in Ec | apply N.ltb_lt in Ec | apply N.ltb_ge in Ec
       | apply N.ltb_ge in Ec];
      [apply N.ltb_lt in Ed | apply N.ltb_ge in Ed | apply N.ltb_lt in Ed
       | apply N.ltb_ge in Ed];
      cbn [app] in H.
    + injection H as -> H. f_equal. now apply IH.
    + injection H as Hu _. exfalso. rewrite Hhd in Hu. clear Hhd Hhc Hlc Hld M1 M2 M4.
      generalize dependent (((d - 0x10000) / 1024) mod 1024)%N. intros. lia.
    + injection H as Hu _. exfalso. rewrite Hhc in Hu. clear Hhd Hhc Hlc Hld M2 M3 M4.
      generalize dependent (((c - 0x10000) / 1024) mod 1024)%N. intros. lia.
    + injection H as Hh Hl H. f_equal; [| now apply IH].
      rewrite Hhc, Hhd in Hh. rewrite Hlc, Hld in Hl.
      pose proof (N.Div0.div_mod (c - 0x10000) 1024) as Dc.
      pose proof (N.Div0.div_mod (d - 0x10000) 1024) as Dd.
      assert (Qc : (((c - 0x10000) / 1024) mod 1024 = (c - 0x10000) / 1024)%N).
      { apply N.mod_small. apply N.Div0.div_lt_upper_bound. lia. }
      assert (Qd : (((d - 0x10000) / 1024) mod 1024 = (d - 0x10000) / 1024)%N).
      { apply N.mod_small. apply N.Div0.div_lt_upper_bound. lia. }
      rewrite Qc, Qd in Hh.
      generalize dependent ((c - 0x10000) / 1024)%N.
      generalize dependent ((d - 0x10000) / 1024)%N.
      generalize dependent ((c - 0x10000) mod 1024)%N.
      generalize dependent ((d - 0x10000) mod 1024)%N.
      intros. lia.
Qed.

(** X19: the encoding keeps apart what Unicode keeps apart.  Two different
    strings of Unicode scalar values (code points that are not surrogates)
    never have the same encoded text, so a text field of an intent can be
    recovered from its encoding. *)
Theorem encode_str_injective (s t : list N) :
  forallb Json.scalar_value s = true ->
  forallb Json.scalar_value t = true ->
  s <> t ->
  Json.encode_str s <> Json.encode_str t.
Proof.
  intros Hs Ht Hne H. apply Hne. apply utf16_scalar_inj; try assumption.
  unfold Json.encode_str in H. injection H as H.
  apply (f_equal JsonRead.read_string_body) in H.
  rewrite !escape_read in H. now injection H.
Qed.

Lemma encode_str_injective_witness :
  Json.encode_str (0x20ac%N :: Py.text "/USD") <> Json.encode_str (Py.text "EUR/USD").
Proof.
  apply encode_str_injective; [reflexivity | reflexivity | discriminate].
Defined.

(** ** C7: trade decisions *)

(** C7: every [TradeIntent] that the constructor accepts has a size
    strictly greater than zero (whatever its kind, so in particular when the
    kind is not HOLD), and no attribute assignment on it succeeds. *)
Theorem TradeIntent_frozen_and_positive (t : Base.IntentType) (sz : option float)
    (i : Base.TradeIntent) :
  Base.TradeIntent_new t sz = Py.Ok i ->
  Base.type i = t
  /\ PrimFloat.ltb 0%float (Base.size i) = true
  /\ (Base.type i <> Base.HOLD -> PrimFloat.ltb 0%float (Base.size i) = true)
  /\ (forall a, Base.setattr i a = Py.Raise Py.ValidationError).
Proof.
  unfold Base.TradeIntent_new. intros H.
  assert (Hpos : Base.type i = t /\ PrimFloat.ltb 0%float (Base.size i) = true).
  { destruct sz as [s|].
    - destruct (PrimFloat.ltb 0%float s) eqn:Hs; [| discriminate].
      injection H as <-. split; [reflexivity | exact Hs].
    - injection H as <-. split; reflexivity. }
  destruct Hpos as [Ht Hs].
  split; [exact Ht |]. split; [exact Hs |]. split; [intros _; exact Hs |].
  intros a. reflexivity.
Qed.

Lemma TradeIntent_frozen_and_positive_witness :
  Base.TradeIntent_new Base.BUY (Some 0x1p-1%float)
  = Py.Ok {| Base.type := Base.BUY; Base.size := 0x1p-1%float |}
  /\ PrimFloat.ltb 0%float
       (Base.size {| Base.type := Base.BUY; Base.size := 0x1p-1%float |}) = true
  /\ Base.setattr {| Base.type := Base.BUY; Base.size := 0x1p-1%float |}
       (Base.SetSize 2%float) = Py.Raise Py.ValidationError.
Proof.
  destruct (TradeIntent_frozen_and_positive Base.BUY (Some 0x1p-1%float)
              {| Base.type := Base.BUY; Base.size := 0x1p-1%float |} eq_refl)
    as (_ & Hpos & _ & Hfrozen).
  split; [reflexivity |]. split; [exact Hpos | apply Hfrozen].
Defined.

(** The constructor turns away a zero, a negative and a NaN size. *)
Example TradeIntent_rejects_non_positive :
  Base.TradeIntent_new Base.BUY (Some 0%float) = Py.Raise Py.ValidationError
  /\ Base.TradeIntent_new Base.SELL (Some (-1)%float) = Py.Raise Py.ValidationError
  /\ Base.TradeIntent_new Base.HOLD (Some nan) = Py.Raise Py.ValidationError.
Proof. repeat split; reflexivity. Qed.

(** ** C6: not enough history *)

(** The diagnostic hook does nothing at all on an absent or HOLD decision. *)
Lemma log_signal_intent_skips_hold {S : Type} (log_handle : Base.LogRecord -> Py.result unit)
    (cls : Base.Class S) (self : Base.Object S) (intent : option Base.TradeIntent)
    (ms : Base.MarketState) :
  match intent with
  | Some i => Base.is_hold i = true
  | None => True
  end ->
  Base._log_signal_intent log_handle cls self intent ms = (Py.Ok tt, self, []).
Proof.
  intros H. unfold Base._log_signal_intent.
  destruct (negb (Base.truthy (Base.explain_decisions (Base.attrs self))));
    [reflexivity |].
  destruct intent as [i|]; [| reflexivity]. now rewrite H.
Qed.

Lemma on_bar_body_insufficient (np_mean : list float -> float)
    (self : Base.Object HailMary.Config) (ms : Base.MarketState)
    (ps : Base.PositionState) (clk : Base.Clock) :
  (Base.bar_count ms < HailMary.required_bars (Base.fields self)
   \/ Base.recent_bars ms (HailMary.required_bars (Base.fields self)) = Py.Ok None
   \/ exists bars,
        Base.recent_bars ms (HailMary.required_bars (Base.fields self)) = Py.Ok (Some bars)
        /\ Z.of_nat (length bars) < HailMary.required_bars (Base.fields self)) ->
  HailMary.on_bar_body np_mean self ms ps clk
  = (Py.Ok (Some MarketFixtures.hold_decision), self, []).
Proof.
  unfold HailMary.on_bar_body, HailMary.required_bars. intros H.
  destruct (Base.bar_count ms <? _) eqn:Hcount; [reflexivity |].
  apply Z.ltb_ge in Hcount.
  destruct H as [H | [H | (bars & H & Hlen)]].
  - lia.
  - rewrite H. reflexivity.
  - rewrite H. apply Z.ltb_lt in Hlen. rewrite Hlen. reflexivity.
Qed.

(** C6: when the history is insufficient (the snapshot counts fewer bars
    than [max(lookback, slow_period) + 10], or [recent_bars] hands back
    nothing or fewer bars than asked for), [on_bar] returns a HOLD decision
    and raises nothing.  This holds for the body written in the class and
    for the method as installed with the diagnostic wrapper, for every
    configuration and every logging setup; the instance is left as it was
    and nothing is printed or logged. *)
Theorem on_bar_insufficient_history_holds (np_mean : list float -> float)
    (log_handle : Base.LogRecord -> Py.result unit)
    (self : Base.Object HailMary.Config) (ms : Base.MarketState)
    (ps : Base.PositionState) (clk : Base.Clock) :
  (Base.bar_count ms < HailMary.required_bars (Base.fields self)
   \/ Base.recent_bars ms (HailMary.required_bars (Base.fields self)) = Py.Ok None
   \/ exists bars,
        Base.recent_bars ms (HailMary.required_bars (Base.fields self)) = Py.Ok (Some bars)
        /\ Z.of_nat (length bars) < HailMary.required_bars (Base.fields self)) ->
  HailMary.on_bar_body np_mean self ms ps clk
  = (Py.Ok (Some MarketFixtures.hold_decision), self, [])
  /\ HailMary.call_on_bar np_mean log_handle self ms ps clk
     = (Py.Ok (Some MarketFixtures.hold_decision), self, [])
  /\ Base.is_hold MarketFixtures.hold_decision = true.
Proof.
  intros H. split; [now apply on_bar_body_insufficient |]. split; [| reflexivity].
  unfold HailMary.call_on_bar, HailMary.CompetitionHailMary, Base.init_subclass.
  cbn [Base.on_bar Base._diagnostic_wrapped]. unfold Base.wrapped.
  rewrite on_bar_body_insufficient by assumption.
  rewrite log_signal_intent_skips_hold by reflexivity.
  reflexivity.
Qed.

Lemma on_bar_insufficient_history_holds_witness :
  Base.bar_count (MarketFixtures.snapshot 5)
  < HailMary.required_bars (Base.fields MarketFixtures.explaining)
  /\ HailMary.call_on_bar MarketFixtures.seq_mean MarketFixtures.failing_handler
       MarketFixtures.explaining (MarketFixtures.snapshot 5)
       MarketFixtures.flat MarketFixtures.clock0
     = (Py.Ok (Some MarketFixtures.hold_decision), MarketFixtures.explaining, []).
Proof.
  split; [reflexivity |].
  apply (on_bar_insufficient_history_holds MarketFixtures.seq_mean
           MarketFixtures.failing_handler MarketFixtures.explaining
           (MarketFixtures.snapshot 5) MarketFixtures.flat MarketFixtures.clock0).
  left. reflexivity.
Defined.

(** Twenty-three bars are one short of what the default configuration
    asks for, also when [recent_bars] is the one to come up short. *)
Example on_bar_short_recent_bars :
  HailMary.on_bar_body MarketFixtures.seq_mean (HailMary.new HailMary.default_config)
    {| Base.bar_count := 30;
       Base.recent_bars := fun _ => Py.Ok (Some (MarketFixtures.rising_bars 23));
       Base.current_bar := Py.Raise Py.IndexError |}
    MarketFixtures.flat MarketFixtures.clock0
  = (Py.Ok (Some MarketFixtures.hold_decision), HailMary.new HailMary.default_config, []).
Proof. vm_compute. reflexivity. Qed.

(** ** C3: the diagnostic wrapper *)

(** [__init_subclass__] installs the wrapper once, and only once. *)
Lemma init_subclass_installs {S : Type} (log_handle : Base.LogRecord -> Py.result unit)
    (cls : Base.Class S) (original : Base.Method S) :
  Base.on_bar cls = Some original ->
  Base._diagnostic_wrapped cls = false ->
  Base.on_bar (Base.init_subclass log_handle cls)
  = Some (Base.wrapped log_handle cls original)
  /\ Base._diagnostic_wrapped (Base.init_subclass log_handle cls) = true.
Proof.
  intros Hm Hw. unfold Base.init_subclass. rewrite Hm, Hw. split; reflexivity.
Qed.

Lemma init_subclass_idempotent {S : Type} (log_handle : Base.LogRecord -> Py.result unit)
    (cls : Base.Class S) :
  Base.init_subclass log_handle (Base.init_subclass log_handle cls)
  = Base.init_subclass log_handle cls.
Proof.
  unfold Base.init_subclass.
  destruct (Base.on_bar cls) as [m|] eqn:Hm.
  - destruct (Base._diagnostic_wrapped cls) eqn:Hw.
    + now rewrite Hm, Hw.
    + reflexivity.
  - now rewrite Hm.
Qed.

(** Whatever the wrapper returns, it is what the inner function returned. *)
Lemma wrapped_returns_inner {S : Type} (log_handle : Base.LogRecord -> Py.result unit)
    (cls : Base.Class S) (original : Base.Method S) (self : Base.Object S)
    (ms : Base.MarketState) (ps : Base.PositionState) (clk : Base.Clock)
    (r : option Base.TradeIntent) (self2 : Base.Object S) (out : list Base.Event) :
  Base.wrapped log_handle cls original self ms ps clk = (Py.Ok r, self2, out) ->
  exists self1 out1, original self ms ps clk = (Py.Ok r, self1, out1).
Proof.
  unfold Base.wrapped.
  destruct (original self ms ps clk) as [[[intent|e] self1] out1]; [| discriminate].
  destruct (Base._log_signal_intent log_handle cls self1 intent ms)
    as [[[u|e] s2] o2]; [| discriminate].
  intros [= <- _ _]. eauto.
Qed.

(** When the hook is off, the decision is absent or HOLD, or the snapshot
    fails to give the current bar, the hook returns without a trace. *)
Lemma log_signal_intent_silent {S : Type} (log_handle : Base.LogRecord -> Py.result unit)
    (cls : Base.Class S) (self : Base.Object S) (intent : option Base.TradeIntent)
    (ms : Base.MarketState) :
  Base.truthy (Base.explain_decisions (Base.attrs self)) = false
  \/ (exists e, Base.current_bar ms = Py.Raise e) ->
  Base._log_signal_intent log_handle cls self intent ms = (Py.Ok tt, self, []).
Proof.
  intros H. unfold Base._log_signal_intent.
  destruct (Base.truthy (Base.explain_decisions (Base.attrs self))) eqn:Hon;
    cbn [negb]; [| reflexivity].
  destruct H as [H | [e He]]; [discriminate |].
  destruct intent as [i|]; [| reflexivity].
  destruct (Base.is_hold i); [reflexivity |]. now rewrite He.
Qed.

(** When the name lookup and the log handlers do not raise, neither does
    the hook. *)
Lemma log_signal_intent_ok {S : Type} (log_handle : Base.LogRecord -> Py.result unit)
    (cls : Base.Class S) (self : Base.Object S) (intent : option Base.TradeIntent)
    (ms : Base.MarketState) :
  (forall e, Base.hypothesis_id cls (Base.fields self) = Py.Raise e ->
             e = Py.AttributeError) ->
  (forall r, log_handle r = Py.Ok tt) ->
  exists self2 out2,
    Base._log_signal_intent log_handle cls self intent ms = (Py.Ok tt, self2, out2)
    /\ Base.fields self2 = Base.fields self.
Proof.
  intros Hid Hlog. unfold Base._log_signal_intent.
  destruct (negb _); [eauto |].
  destruct intent as [i|]; [| eauto].
  destruct (Base.is_hold i); [eauto |].
  destruct (Base.current_bar ms) as [bar|e]; [| eauto].
  assert (Hname : forall self1 : Base.Object S,
            Base.fields self1 = Base.fields self ->
            exists nm, Base.display_name cls self1 = Py.Ok nm).
  { intros self1 Hf. unfold Base.display_name. rewrite Hf.
    destruct (Base.hypothesis_id cls (Base.fields self)) as [s|e] eqn:E.
    - cbn. destruct (Base.name (Base.attrs self1)); eauto.
    - rewrite (Hid e eq_refl). cbn.
      destruct (Base.name (Base.attrs self1)); eauto. }
  destruct (Base._diagnostic_logger (Base.attrs self)) as [l|].
  - destruct (Hname self eq_refl) as [nm ->]. rewrite Hlog. eauto.
  - match goal with
    | |- context [Base.display_name cls ?s1] =>
        destruct (Hname s1 eq_refl) as [nm ->]
    end.
    rewrite Hlog. eauto.
Qed.

(** C3 (as the code has it): for every Hypothesis subclass, the [on_bar]
    that [__init_subclass__] installs runs the inner function and then the
    diagnostic hook.  Whenever it returns, it returns the inner decision
    unchanged.  An error raised by [market_state.current_bar()] inside the
    hook is swallowed, and so the wrapper returns the inner decision whenever
    the hook is switched off, the decision is absent or HOLD, the current bar
    cannot be read, or the name lookup and the log handlers do not raise. *)
Theorem wrapped_on_bar_keeps_decision {S : Type}
    (log_handle : Base.LogRecord -> Py.result unit)
    (cls : Base.Class S) (original : Base.Method S) (self self1 : Base.Object S)
    (ms : Base.MarketState) (ps : Base.PositionState) (clk : Base.Clock)
    (intent : option Base.TradeIntent) (out1 : list Base.Event) :
  Base.on_bar cls = Some original ->
  Base._diagnostic_wrapped cls = false ->
  original self ms ps clk = (Py.Ok intent, self1, out1) ->
  exists m,
    Base.on_bar (Base.init_subclass log_handle cls) = Some m
    /\ (forall r self2 out, m self ms ps clk = (Py.Ok r, self2, out) -> r = intent)
    /\ (Base.truthy (Base.explain_decisions (Base.attrs self1)) = false
        \/ match intent with Some i => Base.is_hold i = true | None => True end
        \/ (exists e, Base.current_bar ms = Py.Raise e)
        \/ ((forall e, Base.hypothesis_id cls (Base.fields self1) = Py.Raise e ->
                       e = Py.AttributeError)
            /\ forall r, log_handle r = Py.Ok tt) ->
        exists self2 out2, m self ms ps clk = (Py.Ok intent, self2, out1 ++ out2)).
Proof.
  intros Hm Hw Horig.
  exists (Base.wrapped log_handle cls original).
  split; [now apply init_subclass_installs |]. split.
  - intros r self2 out H. apply wrapped_returns_inner in H as (s & o & H).
    rewrite Horig in H. now injection H as <-.
  - intros Hquiet. unfold Base.wrapped. rewrite Horig.
    destruct Hquiet as [H | [H | [H | [Hid Hlog]]]].
    + rewrite log_signal_intent_silent by (now left). eauto.
    + rewrite log_signal_intent_skips_hold by assumption. eauto.
    + rewrite log_signal_intent_silent by (now right). eauto.
    + destruct (log_signal_intent_ok log_handle cls self1 intent ms Hid Hlog)
        as (self2 & out2 & -> & _). eauto.
Qed.

Lemma wrapped_on_bar_keeps_decision_witness :
  exists out1 self2 out2,
    HailMary.on_bar_body MarketFixtures.seq_mean MarketFixtures.explaining
      (MarketFixtures.snapshot 24) MarketFixtures.flat MarketFixtures.clock0
    = (Py.Ok (Some {| Base.type := Base.BUY; Base.size := 1%float |}),
       MarketFixtures.explaining, out1)
    /\ HailMary.call_on_bar MarketFixtures.seq_mean MarketFixtures.quiet_handler
         MarketFixtures.explaining (MarketFixtures.snapshot 24)
         MarketFixtures.flat MarketFixtures.clock0
       = (Py.Ok (Some {| Base.type := Base.BUY; Base.size := 1%float |}),
          self2, out1 ++ out2).
Proof.
  eexists.
  destruct (wrapped_on_bar_keeps_decision MarketFixtures.quiet_handler
              {| Base.cls_name := "CompetitionHailMary";
                 Base.hypothesis_id := fun _ => Py.Ok "competition_hail_mary";
                 Base.on_bar := Some (HailMary.on_bar_body MarketFixtures.seq_mean);
                 Base._diagnostic_wrapped := false |}
              (HailMary.on_bar_body MarketFixtures.seq_mean)
              MarketFixtures.explaining MarketFixtures.explaining
              (MarketFixtures.snapshot 24) MarketFixtures.flat MarketFixtures.clock0
              (Some {| Base.type := Base.BUY; Base.size := 1%float |})
              _ eq_refl eq_refl ltac:(vm_compute; reflexivity))
    as (m & Hm & _ & Hquiet).
  injection Hm as <-.
  destruct Hquiet as (self2 & out2 & H).
  { right. right. right. split; [intros e [=] | reflexivity]. }
  exists self2, out2. split; [vm_compute; reflexivity | exact H].
Defined.

(** The wording of the specification does not hold here: only the read of the
    current bar is guarded.  With [explain_decisions] set on a default
    [CompetitionHailMary], twenty-four rising bars and a log handler that
    raises, the inner function decides BUY and the installed [on_bar] raises
    the handler's error instead of returning that decision. *)
Lemma wrapped_on_bar_propagates_handler_error :
  (exists out1,
     HailMary.on_bar_body MarketFixtures.seq_mean MarketFixtures.explaining
       (MarketFixtures.snapshot 24) MarketFixtures.flat MarketFixtures.clock0
     = (Py.Ok (Some {| Base.type := Base.BUY; Base.size := 1%float |}),
        MarketFixtures.explaining, out1))
  /\ (exists self2 out,
        HailMary.call_on_bar MarketFixtures.seq_mean MarketFixtures.failing_handler
          MarketFixtures.explaining (MarketFixtures.snapshot 24)
          MarketFixtures.flat MarketFixtures.clock0
        = (Py.Raise (Py.OtherError "handler failed"), self2, out)).
Proof.
  split.
  - eexists. vm_compute. reflexivity.
  - do 2 eexists. vm_compute. reflexivity.
Qed.

(** ** Indexing, ranges and the indicator loops *)

Lemma index_Ok {A : Type} (l : list A) (i : Z) :
  - Z.of_nat (length l) <= i < Z.of_nat (length l) ->
  exists x, Py.index l i = Py.Ok x.
Proof.
  intros Hi. unfold Py.index.
  set (n := Z.of_nat (length l)) in *.
  set (j := if i <? 0 then i + n else i).
  assert (Hj : 0 <= j < n).
  { subst j. destruct (i <? 0) eqn:E;
      [apply Z.ltb_lt in E | apply Z.ltb_ge in E]; lia. }
  assert (Hc : (j <? 0) || (n <=? j) = false).
  { apply orb_false_intro; [apply Z.ltb_ge | apply Z.leb_gt]; lia. }
  rewrite Hc.
  destruct (nth_error l (Z.to_nat j)) as [x|] eqn:E; [eauto |].
  apply nth_error_None in E. subst n. lia.
Qed.

Lemma range_bounds (a b i : Z) : In i (Py.range a b) -> a <= i < b.
Proof.
  unfold Py.range. rewrite in_map_iff. intros (k & <- & Hk).
  apply in_seq in Hk. lia.
Qed.

Lemma ema_loop_length (alpha prev : float) (rest : list float) :
  length (HailMary.ema_loop alpha prev rest) = length rest.
Proof.
  revert prev. induction rest as [|x r IH]; intros prev; [reflexivity |].
  cbn [HailMary.ema_loop length]. now rewrite IH.
Qed.

Lemma ema_Ok (data : list float) (period : Z) :
  period + 1 <> 0 -> data <> [] ->
  exists l, HailMary._ema data period = Py.Ok l /\ length l = length data.
Proof.
  intros Hp Hd. unfold HailMary._ema.
  apply Z.eqb_neq in Hp. rewrite Hp.
  destruct data as [|x r]; [contradiction |].
  eexists. split; [reflexivity |]. cbn [length]. now rewrite ema_loop_length.
Qed.

Lemma rsi_loop_Ok (p : Z) (gains losses : list float) (idx : list Z) :
  length losses = length gains ->
  (forall i, In i idx -> 0 <= i < Z.of_nat (length gains)) ->
  forall avg_gain avg_loss,
  exists r, HailMary.rsi_loop p gains losses idx avg_gain avg_loss = Py.Ok r.
Proof.
  intros Hlen. induction idx as [|i rest IH]; intros Hidx ag al.
  - eexists. reflexivity.
  - cbn [HailMary.rsi_loop].
    assert (Hi : 0 <= i < Z.of_nat (length gains)) by (apply Hidx; now left).
    destruct (index_Ok gains i) as [g ->]; [lia |].
    destruct (index_Ok losses i) as [l ->]; [rewrite Hlen; lia |].
    rewrite !bind_Ok. apply IH. intros k Hk. apply Hidx. now right.
Qed.

Lemma calculate_rsi_Ok (np_mean : list float -> float) (cfg : HailMary.Config)
    (closes : list float) :
  0 <= HailMary.rsi_period cfg ->
  exists v, HailMary._calculate_rsi np_mean cfg closes = Py.Ok v.
Proof.
  intros Hp. unfold HailMary._calculate_rsi. cbv zeta.
  destruct (_ <? HailMary.rsi_period cfg); [eauto |].
  match goal with
  | |- context [HailMary.rsi_loop ?p ?g ?l ?idx ?a ?b] =>
      destruct (rsi_loop_Ok p g l idx) with (avg_gain := a) (avg_loss := b)
        as [[ag al] ->]
  end.
  - now rewrite !length_map.
  - intros i Hi. apply range_bounds in Hi. lia.
  - rewrite bind_Ok. destruct (PrimFloat.eqb al 0); eauto.
Qed.

Lemma TradeIntent_new_full_size (t : Base.IntentType) :
  Base.TradeIntent_new t (Some 1%float)
  = Py.Ok {| Base.type := t; Base.size := 1%float |}.
Proof. reflexivity. Qed.

(** ** C10: enough history *)

Ltac bind_inv H a E :=
  apply bind_Ok_inv in H as (a & E & H); cbv beta zeta in H.

(** The signal is BUY or SELL, whatever the indicators say. *)
Lemma decide_signal_buy_or_sell (np_mean : list float -> float)
    (cfg : HailMary.Config) (bars : list Base.Bar)
    (signal : Base.IntentType) (line : list Base.PrintArg) :
  HailMary.decide_signal np_mean cfg bars = Py.Ok (signal, line) ->
  signal = Base.BUY \/ signal = Base.SELL.
Proof.
  unfold HailMary.decide_signal. cbv beta zeta. intros H.
  bind_inv H fast_ema Efast. bind_inv H slow_ema Eslow.
  bind_inv H cross_up Ecu. bind_inv H cross_down Ecd.
  bind_inv H h1 Eh1. bind_inv H l1 El1. bind_inv H rsi Ersi.
  bind_inv H f1 Ef1. bind_inv H s1 Es1.
  bind_inv H oversold_up Eou. bind_inv H chosen Esig.
  bind_inv H last_bar Elast. bind_inv H price Eprice.
  bind_inv H fast_last Efl. bind_inv H slow_last Esl.
  injection H as <- _.
  destruct oversold_up.
  - injection Esig as <-. now left.
  - bind_inv Esig overbought_down Eob. injection Esig as <-.
    destruct overbought_down; [now right |].
    destruct (PrimFloat.ltb s1 f1); [now left | now right].
Qed.

(** With at least two bars and periods that are not negative, every step
    of the evaluation goes through. *)
Lemma decide_signal_Ok (np_mean : list float -> float)
    (cfg : HailMary.Config) (bars : list Base.Bar) :
  (2 <= length bars)%nat ->
  0 <= HailMary.fast_period cfg ->
  0 <= HailMary.slow_period cfg ->
  0 <= HailMary.rsi_period cfg ->
  exists signal line, HailMary.decide_signal np_mean cfg bars = Py.Ok (signal, line).
Proof.
  intros Hlen Hfast Hslow Hrsi. unfold HailMary.decide_signal. cbv beta zeta.
  assert (Hne : map Base.close bars <> []).
  { destruct bars; [cbn in Hlen; lia | discriminate]. }
  destruct (ema_Ok (map Base.close bars) (HailMary.fast_period cfg))
    as (fast_ema & -> & Lf); [lia | assumption |].
  rewrite bind_Ok.
  destruct (ema_Ok (map Base.close bars) (HailMary.slow_period cfg))
    as (slow_ema & -> & Ls); [lia | assumption |].
  rewrite bind_Ok.
  rewrite length_map in Lf, Ls.
  destruct (calculate_rsi_Ok np_mean cfg (map Base.close bars) Hrsi) as [rsi ->].
  destruct (index_Ok fast_ema (-2)) as [f2 ->]; [lia |].
  destruct (index_Ok slow_ema (-2)) as [s2 ->]; [lia |].
  destruct (index_Ok fast_ema (-1)) as [f1 ->]; [lia |].
  destruct (index_Ok slow_ema (-1)) as [s1 ->]; [lia |].
  destruct (index_Ok (map Base.high bars) (-1)) as [h1 ->];
    [rewrite length_map; lia |].
  destruct (index_Ok (map Base.low bars) (-1)) as [l1 ->];
    [rewrite length_map; lia |].
  destruct (index_Ok (map Base.close bars) (-1)) as [c1 ->];
    [rewrite length_map; lia |].
  destruct (index_Ok (map Base.open bars) (-1)) as [o1 ->];
    [rewrite length_map; lia |].
  destruct (index_Ok bars (-1)) as [last_bar ->]; [lia |].
  repeat (rewrite ?bind_Ok;
          match goal with
          | |- context [if ?b then _ else _] => destruct b
          end).
  all: rewrite ?bind_Ok; eauto.
Qed.

(** [on_bar] never assigns to [self]: the instance comes back as it was,
    and what is returned and printed depends on the instance through its
    configuration only. *)
Lemma on_bar_body_reads_config_only (np_mean : list float -> float)
    (self : Base.Object HailMary.Config) (ms : Base.MarketState)
    (ps : Base.PositionState) (clk : Base.Clock) :
  exists r out,
    HailMary.on_bar_body np_mean self ms ps clk = (r, self, out)
    /\ forall (other : Base.Object HailMary.Config) (ps' : Base.PositionState)
              (clk' : Base.Clock),
         Base.fields other = Base.fields self ->
         HailMary.on_bar_body np_mean other ms ps' clk' = (r, other, out).
Proof.
  unfold HailMary.on_bar_body, HailMary.returning. cbv zeta.
  destruct (Base.bar_count ms <? _) eqn:E1.
  { do 2 eexists. split; [reflexivity |]. intros other ps' clk' ->.
    now rewrite E1. }
  destruct (Base.recent_bars ms _) as [[bars|]|e] eqn:E2.
  - destruct (Z.of_nat (length bars) <? _) eqn:E3.
    + do 2 eexists. split; [reflexivity |]. intros other ps' clk' ->.
      now rewrite E1, E2, E3.
    + destruct (HailMary.decide_signal np_mean (Base.fields self) bars)
        as [[signal line]|e] eqn:E4.
      * do 2 eexists. split; [reflexivity |]. intros other ps' clk' ->.
        now rewrite E1, E2, E3, E4.
      * do 2 eexists. split; [reflexivity |]. intros other ps' clk' ->.
        now rewrite E1, E2, E3, E4.
  - do 2 eexists. split; [reflexivity |]. intros other ps' clk' ->.
    now rewrite E1, E2.
  - do 2 eexists. split; [reflexivity |]. intros other ps' clk' ->.
    now rewrite E1, E2.
Qed.

(** With the hook switched off, the installed method is the class body. *)
Lemma call_on_bar_hook_off (np_mean : list float -> float)
    (log_handle : Base.LogRecord -> Py.result unit)
    (self : Base.Object HailMary.Config) (ms : Base.MarketState)
    (ps : Base.PositionState) (clk : Base.Clock) :
  Base.truthy (Base.explain_decisions (Base.attrs self)) = false ->
  HailMary.call_on_bar np_mean log_handle self ms ps clk
  = HailMary.on_bar_body np_mean self ms ps clk.
Proof.
  intros Hoff.
  unfold HailMary.call_on_bar, HailMary.CompetitionHailMary, Base.init_subclass.
  cbn [Base.on_bar Base._diagnostic_wrapped]. unfold Base.wrapped.
  destruct (on_bar_body_reads_config_only np_mean self ms ps clk)
    as (r & out & -> & _).
  destruct r as [intent|e]; [| reflexivity].
  rewrite log_signal_intent_silent by (now left).
  now rewrite app_nil_r.
Qed.




(** On twenty-four rising bars the default strategy buys. *)
Example on_bar_rising_market_buys :
  exists line,
    HailMary.on_bar_body MarketFixtures.seq_mean
      (HailMary.new HailMary.default_config) (MarketFixtures.snapshot 24)
      MarketFixtures.flat MarketFixtures.clock0
    = (Py.Ok (Some {| Base.type := Base.BUY; Base.size := 1%float |}),
       HailMary.new HailMary.default_config, [Base.Printed line]).
Proof. eexists. vm_compute. reflexivity. Qed.

(** A period of -1 makes [_ema] divide by zero: the periods have to be
    sensible for [on_bar] to return at all. *)
Example ema_period_minus_one :
  HailMary._ema [1%float; 2%float] (-1) = Py.Raise Py.ZeroDivisionError.
Proof. reflexivity. Qed.

(** ** C9: repeated calls *)

(** The hook caches its logger on the instance the first time it gets
    that far; run again on the instance it left behind, with the same
    decision and snapshot, it does the same thing and changes nothing
    more. *)
Lemma log_signal_intent_repeat {S : Type} (log_handle : Base.LogRecord -> Py.result unit)
    (cls : Base.Class S) (self self1 : Base.Object S)
    (intent : option Base.TradeIntent) (ms : Base.MarketState)
    (r : Py.result unit) (out : list Base.Event) :
  Base._log_signal_intent log_handle cls self intent ms = (r, self1, out) ->
  Base._log_signal_intent log_handle cls self1 intent ms = (r, self1, out)
  /\ Base.fields self1 = Base.fields self.
Proof.
  unfold Base._log_signal_intent.
  destruct (negb (Base.truthy (Base.explain_decisions (Base.attrs self)))) eqn:Hon.
  { intros [= <- <- <-]. now rewrite ?Hon. }
  destruct intent as [i|].
  2: { intros [= <- <- <-]. now rewrite ?Hon. }
  destruct (Base.is_hold i) eqn:Hhold.
  { intros [= <- <- <-]. now rewrite ?Hon, ?Hhold. }
  destruct (Base.current_bar ms) as [bar|e] eqn:Hbar.
  2: { intros [= <- <- <-]. now rewrite ?Hon, ?Hhold. }
  destruct (Base._diagnostic_logger (Base.attrs self)) as [l|] eqn:Hcache.
  - destruct (Base.display_name cls self) as [nm|e] eqn:Hname.
    + destruct (log_handle _) as [u|e] eqn:Hlog; intros [= <- <- <-];
        now rewrite ?Hon, ?Hhold, ?Hcache, ?Hname, ?Hlog.
    + intros [= <- <- <-]. now rewrite ?Hon, ?Hhold, ?Hcache, ?Hname.
  - destruct (Base.display_name cls _) as [nm|e] eqn:Hname.
    + destruct (log_handle _) as [u|e] eqn:Hlog; intros [= <- <- <-];
        cbn [Base.attrs Base.explain_decisions Base._diagnostic_logger Base.fields];
        now rewrite ?Hon, ?Hhold, ?Hname, ?Hlog.
    + intros [= <- <- <-].
      cbn [Base.attrs Base.explain_decisions Base._diagnostic_logger Base.fields].
      now rewrite ?Hon, ?Hhold, ?Hname.
Qed.


(** A fresh default strategy with [explain_decisions] set: the first call
    caches the logger, the second call decides, prints and logs the same. *)
Example on_bar_twice_on_rising_market :
  exists self1 out,
    HailMary.call_on_bar MarketFixtures.seq_mean MarketFixtures.quiet_handler
      MarketFixtures.explaining (MarketFixtures.snapshot 24)
      MarketFixtures.flat MarketFixtures.clock0
    = (Py.Ok (Some {| Base.type := Base.BUY; Base.size := 1%float |}), self1, out)
    /\ self1 <> MarketFixtures.explaining
    /\ HailMary.call_on_bar MarketFixtures.seq_mean MarketFixtures.quiet_handler
         self1 (MarketFixtures.snapshot 24)
         MarketFixtures.flat MarketFixtures.clock0
       = (Py.Ok (Some {| Base.type := Base.BUY; Base.size := 1%float |}), self1, out).
Proof.
  do 2 eexists. split; [vm_compute; reflexivity |].
  split; [discriminate | vm_compute; reflexivity].
Qed.

(** ** The queue directories: [__init__] and [mkdir] *)

Lemma node_at_mono (fs fs' : gmap (list string) Sink.Node) (q : list string)
    (n : Sink.Node) :
  (forall q n, fs !! q = Some n -> fs' !! q = Some n) ->
  Sink.node_at fs q = Some n -> Sink.node_at fs' q = Some n.
Proof. intros Hmono. unfold Sink.node_at. destruct q; [trivial | apply Hmono]. Qed.

(** A successful [mkdir(parents=True, exist_ok=True)] keeps everything
    that was there, makes every prefix it walked a directory, and touches no
    other path. *)
Lemma mkdir_prefixes_Ok (p : list string) (fuel : nat) :
  forall (fs fs' : gmap (list string) Sink.Node) (k : nat),
  Sink.mkdir_prefixes fs p k fuel = Py.Ok fs' ->
  (forall q n, fs !! q = Some n -> fs' !! q = Some n)
  /\ (forall j, (k <= j < k + fuel)%nat -> Sink.node_at fs' (take j p) = Some Sink.Dir)
  /\ (forall q, (forall j, (k <= j < k + fuel)%nat -> q <> take j p) ->
        fs' !! q = fs !! q).
Proof.
  induction fuel as [|fuel IH]; intros fs fs' k H; cbn [Sink.mkdir_prefixes] in H.
  - injection H as <-. split; [| split]; [trivial | lia | trivial].
  - cbv zeta in H.
    destruct (Sink.node_at fs (take k p)) as [[|c]|] eqn:Hk.
    + apply IH in H as (Hmono & Hdirs & Hframe). split; [| split].
      * exact Hmono.
      * intros j Hj. destruct (decide (j = k)) as [->|Hne].
        -- eapply node_at_mono; eassumption.
        -- apply Hdirs. lia.
      * intros q Hq. apply Hframe. intros j Hj. apply Hq. lia.
    + destruct (k <? length p)%nat; discriminate.
    + assert (Hnil : take k p <> []) by (intros E; rewrite E in Hk; discriminate).
      assert (Hnone : fs !! take k p = None).
      { unfold Sink.node_at in Hk. destruct (take k p); [contradiction | exact Hk]. }
      apply IH in H as (Hmono & Hdirs & Hframe). split; [| split].
      * intros q n Hq. apply Hmono. rewrite lookup_insert_ne; [exact Hq |].
        intros <-. congruence.
      * intros j Hj. destruct (decide (j = k)) as [->|Hne].
        -- eapply node_at_mono; [exact Hmono |].
           unfold Sink.node_at. destruct (take k p) eqn:E; [contradiction |].
           apply lookup_insert_eq.
        -- apply Hdirs. lia.
      * intros q Hq. rewrite Hframe by (intros j Hj; apply Hq; lia).
        apply lookup_insert_ne. apply not_eq_sym, Hq. lia.
Qed.

(** Where every prefix is a directory already, [mkdir] changes nothing. *)
Lemma mkdir_prefixes_noop (p : list string) (fuel : nat) :
  forall (fs : gmap (list string) Sink.Node) (k : nat),
  (forall j, (k <= j < k + fuel)%nat -> Sink.node_at fs (take j p) = Some Sink.Dir) ->
  Sink.mkdir_prefixes fs p k fuel = Py.Ok fs.
Proof.
  induction fuel as [|fuel IH]; intros fs k H; [reflexivity |].
  cbn [Sink.mkdir_prefixes]. cbv zeta. rewrite (H k) by lia.
  apply IH. intros j Hj. apply H. lia.
Qed.

Lemma mkdir_p_Ok (fs fs' : gmap (list string) Sink.Node) (p : list string) :
  Sink.mkdir_p fs p = Py.Ok fs' ->
  (forall q n, fs !! q = Some n -> fs' !! q = Some n)
  /\ (forall j, (1 <= j <= length p)%nat -> Sink.node_at fs' (take j p) = Some Sink.Dir)
  /\ (forall q, (forall j, (1 <= j <= length p)%nat -> q <> take j p) ->
        fs' !! q = fs !! q).
Proof.
  unfold Sink.mkdir_p. intros H.
  apply mkdir_prefixes_Ok in H as (Hmono & Hdirs & Hframe). split; [| split].
  - exact Hmono.
  - intros j Hj. apply Hdirs. lia.
  - intros q Hq. apply Hframe. intros j Hj. apply Hq. lia.
Qed.

Lemma mkdir_p_dir (fs fs' : gmap (list string) Sink.Node) (p : list string) :
  Sink.mkdir_p fs p = Py.Ok fs' -> Sink.node_at fs' p = Some Sink.Dir.
Proof.
  intros H. destruct p as [|x l]; [reflexivity |].
  apply mkdir_p_Ok in H as (_ & Hdirs & _).
  specialize (Hdirs (length (x :: l))).
  rewrite take_ge in Hdirs by lia. apply Hdirs. cbn [length]. lia.
Qed.

Lemma mkdir_p_noop (fs : gmap (list string) Sink.Node) (p : list string) :
  (forall j, (1 <= j <= length p)%nat -> Sink.node_at fs (take j p) = Some Sink.Dir) ->
  Sink.mkdir_p fs p = Py.Ok fs.
Proof.
  intros H. unfold Sink.mkdir_p. apply mkdir_prefixes_noop.
  intros j Hj. apply H. lia.
Qed.

Lemma init_Ok (root_dir : list string) (fs fs' : gmap (list string) Sink.Node)
    (self : Sink.FileIntentSink) :
  Sink.init root_dir fs = Py.Ok (self, fs') ->
  exists fs1 fs2,
    self = {| Sink.root := root_dir;
              Sink.pending := Sink.div root_dir "pending";
              Sink.done := Sink.div root_dir "done";
              Sink.failed := Sink.div root_dir "failed" |}
    /\ Sink.mkdir_p fs (Sink.div root_dir "pending") = Py.Ok fs1
    /\ Sink.mkdir_p fs1 (Sink.div root_dir "done") = Py.Ok fs2
    /\ Sink.mkdir_p fs2 (Sink.div root_dir "failed") = Py.Ok fs'.
Proof.
  unfold Sink.init. cbv zeta. cbn [Sink.pending Sink.done Sink.failed].
  intros H.
  apply bind_Ok_inv in H as (fs1 & H1 & H).
  apply bind_Ok_inv in H as (fs2 & H2 & H).
  apply bind_Ok_inv in H as (fs3 & H3 & H).
  injection H as <- <-. eauto 10.
Qed.

(** X1: when [FileIntentSink(root_dir)] returns, the three lifecycle
    directories [pending], [done] and [failed] exist as directories under the
    root, and everything that was on the disk before is still there,
    unchanged: the constructor only ever adds directories. *)
Theorem init_creates_lifecycle_dirs (root_dir : list string)
    (fs fs' : gmap (list string) Sink.Node) (self : Sink.FileIntentSink) :
  Sink.init root_dir fs = Py.Ok (self, fs') ->
  Sink.pending self = Sink.div root_dir "pending"
  /\ Sink.done self = Sink.div root_dir "done"
  /\ Sink.failed self = Sink.div root_dir "failed"
  /\ fs' !! Sink.pending self = Some Sink.Dir
  /\ fs' !! Sink.done self = Some Sink.Dir
  /\ fs' !! Sink.failed self = Some Sink.Dir
  /\ (forall q n, fs !! q = Some n -> fs' !! q = Some n)
  /\ (forall q, fs' !! q <> fs !! q -> fs' !! q = Some Sink.Dir).
Proof.
  intros H. apply init_Ok in H as (fs1 & fs2 & -> & H1 & H2 & H3).
  cbn [Sink.pending Sink.done Sink.failed].
  pose proof (mkdir_p_dir _ _ _ H1) as D1.
  pose proof (mkdir_p_dir _ _ _ H2) as D2.
  pose proof (mkdir_p_dir _ _ _ H3) as D3.
  rewrite node_at_div in D1, D2, D3.
  apply mkdir_p_Ok in H1 as (M1 & P1 & F1).
  apply mkdir_p_Ok in H2 as (M2 & P2 & F2).
  apply mkdir_p_Ok in H3 as (M3 & P3 & F3).
  repeat split; auto.
  intros q Hq.
  assert (Hcase : forall (a b : gmap (list string) Sink.Node) (p : list string),
            (forall j, (1 <= j <= length p)%nat ->
                       Sink.node_at b (take j p) = Some Sink.Dir) ->
            (forall q, (forall j, (1 <= j <= length p)%nat -> q <> take j p) ->
                       b !! q = a !! q) ->
            b !! q = a !! q \/ b !! q = Some Sink.Dir).
  { intros a b p Pd Fr.
    destruct (decide (q = take (length q) p /\ (1 <= length q <= length p)%nat))
      as [[E Hj]|Hno].
    - right. specialize (Pd (length q) Hj). rewrite <- E in Pd.
      unfold Sink.node_at in Pd. destruct q; [cbn in Hj; lia | exact Pd].
    - left. apply Fr. intros j Hj ->. apply Hno.
      rewrite length_take, Nat.min_l by lia. split; [reflexivity | lia]. }
  destruct (Hcase fs2 fs' _ P3 F3) as [E3|]; [| assumption].
  destruct (Hcase fs1 fs2 _ P2 F2) as [E2|E2].
  2: { rewrite E3. assumption. }
  destruct (Hcase fs fs1 _ P1 F1) as [E1|E1].
  - congruence.
  - rewrite E3, E2. assumption.
Qed.

Lemma init_creates_lifecycle_dirs_witness :
  Sink.init Fixtures.queue_root ∅ = Py.Ok (Fixtures.sink0, Fixtures.fs_ready)
  /\ Fixtures.fs_ready !! Sink.pending Fixtures.sink0 = Some Sink.Dir
  /\ Fixtures.fs_ready !! Sink.done Fixtures.sink0 = Some Sink.Dir
  /\ Fixtures.fs_ready !! Sink.failed Fixtures.sink0 = Some Sink.Dir.
Proof.
  destruct (init_creates_lifecycle_dirs Fixtures.queue_root ∅ Fixtures.fs_ready
              Fixtures.sink0 init_on_empty_disk) as (_ & _ & _ & Hp & Hd & Hf & _).
  split; [reflexivity |]. split; [exact Hp |]. split; [exact Hd | exact Hf].
Defined.

Lemma mkdir_p_prefixes_kept (fs fs1 fs' : gmap (list string) Sink.Node)
    (p : list string) :
  Sink.mkdir_p fs p = Py.Ok fs1 ->
  (forall q n, fs1 !! q = Some n -> fs' !! q = Some n) ->
  forall j, (1 <= j <= length p)%nat -> Sink.node_at fs' (take j p) = Some Sink.Dir.
Proof.
  intros H Hmono j Hj. apply mkdir_p_Ok in H as (_ & Hdirs & _).
  eapply node_at_mono; [exact Hmono | now apply Hdirs].
Qed.

(** X2: constructing the sink a second time on the same root is harmless:
    on the disk the first construction left behind, [FileIntentSink(root_dir)]
    succeeds again, gives the same paths and changes nothing. *)
Theorem init_twice_changes_nothing (root_dir : list string)
    (fs fs' : gmap (list string) Sink.Node) (self : Sink.FileIntentSink) :
  Sink.init root_dir fs = Py.Ok (self, fs') ->
  Sink.init root_dir fs' = Py.Ok (self, fs').
Proof.
  intros H. apply init_Ok in H as (fs1 & fs2 & -> & H1 & H2 & H3).
  pose proof (mkdir_p_Ok _ _ _ H2) as (M2 & _ & _).
  pose proof (mkdir_p_Ok _ _ _ H3) as (M3 & _ & _).
  unfold Sink.init. cbv zeta. cbn [Sink.pending Sink.done Sink.failed].
  rewrite (mkdir_p_noop fs' (Sink.div root_dir "pending")).
  2: { eapply mkdir_p_prefixes_kept; [exact H1 | auto]. }
  rewrite bind_Ok.
  rewrite (mkdir_p_noop fs' (Sink.div root_dir "done")).
  2: { eapply mkdir_p_prefixes_kept; [exact H2 | auto]. }
  rewrite bind_Ok.
  rewrite (mkdir_p_noop fs' (Sink.div root_dir "failed")).
  2: { eapply mkdir_p_prefixes_kept; [exact H3 | auto]. }
  reflexivity.
Qed.

Lemma init_twice_changes_nothing_witness :
  Sink.init Fixtures.queue_root ∅ = Py.Ok (Fixtures.sink0, Fixtures.fs_ready)
  /\ Sink.init Fixtures.queue_root Fixtures.fs_ready
     = Py.Ok (Fixtures.sink0, Fixtures.fs_ready).
Proof.
  split; [reflexivity |].
  apply (init_twice_changes_nothing Fixtures.queue_root ∅). reflexivity.
Defined.

(** The constructor leaves [pending] behind as a directory. *)
Lemma init_pending_dir (root_dir : list string)
    (fs fs' : gmap (list string) Sink.Node) (self : Sink.FileIntentSink) :
  Sink.init root_dir fs = Py.Ok (self, fs') ->
  Sink.node_at fs' (Sink.pending self) = Some Sink.Dir.
Proof.
  intros H. apply init_Ok in H as (fs1 & fs2 & -> & H1 & H2 & H3).
  cbn [Sink.pending]. rewrite node_at_div.
  pose proof (mkdir_p_dir _ _ _ H1) as D1. rewrite node_at_div in D1.
  apply mkdir_p_Ok in H2 as (M2 & _). apply mkdir_p_Ok in H3 as (M3 & _).
  auto.
Qed.



(** The first regular file that [mkdir] meets on its way decides the
    error: a file among the ancestors is [NotADirectoryError], a file at the
    path itself is [FileExistsError]. *)
Lemma mkdir_prefixes_file (p : list string) (c : string) (j0 : nat) (fuel : nat) :
  forall (fs : gmap (list string) Sink.Node) (k : nat),
  (k <= j0 <= length p)%nat -> (j0 < k + fuel)%nat ->
  Sink.node_at fs (take j0 p) = Some (Sink.File c) ->
  (forall j c', (k <= j < j0)%nat ->
                Sink.node_at fs (take j p) <> Some (Sink.File c')) ->
  Sink.mkdir_prefixes fs p k fuel
  = Py.Raise (if (j0 <? length p)%nat then Py.NotADirectoryError
              else Py.FileExistsError).
Proof.
  induction fuel as [|fuel IH]; intros fs k Hk Hfuel Hfile Hbefore; [lia |].
  cbn [Sink.mkdir_prefixes]. cbv zeta.
  destruct (decide (k = j0)) as [->|Hne].
  - rewrite Hfile. destruct (j0 <? length p)%nat; reflexivity.
  - assert (Hlt : (k < j0)%nat) by lia.
    destruct (Sink.node_at fs (take k p)) as [[|c']|] eqn:Hnode.
    + apply IH; [lia | lia | assumption |].
      intros j c'' Hj. apply Hbefore. lia.
    + exfalso. eapply Hbefore; [| exact Hnode]. lia.
    + assert (Hdiff : forall j, (k < j <= length p)%nat -> take j p <> take k p).
      { intros j Hj E. apply (f_equal (@length string)) in E.
        rewrite !length_take in E. lia. }
      assert (Hsame : forall j, (k < j <= length p)%nat ->
                Sink.node_at (<[take k p := Sink.Dir]> fs) (take j p)
                = Sink.node_at fs (take j p)).
      { intros j Hj. unfold Sink.node_at. destruct (take j p) eqn:E; [reflexivity |].
        rewrite <- E. apply lookup_insert_ne. apply not_eq_sym, Hdiff. exact Hj. }
      apply IH; [lia | lia | |].
      * rewrite Hsame by lia. assumption.
      * intros j c'' Hj. rewrite Hsame by lia. apply Hbefore. lia.
Qed.

(** X4: the constructor does not replace a regular file that is in its
    way.  If the first regular file on the path to [root/pending] is at an
    ancestor, [FileIntentSink(root_dir)] raises NotADirectoryError; if it is
    at [root/pending] itself, it raises FileExistsError. *)
Theorem init_refuses_file_in_the_way (root_dir : list string)
    (fs : gmap (list string) Sink.Node) (c : string) (j0 : nat) :
  (1 <= j0 <= length (Sink.div root_dir "pending"))%nat ->
  Sink.node_at fs (take j0 (Sink.div root_dir "pending")) = Some (Sink.File c) ->
  (forall j c', (1 <= j < j0)%nat ->
     Sink.node_at fs (take j (Sink.div root_dir "pending")) <> Some (Sink.File c')) ->
  Sink.init root_dir fs
  = Py.Raise (if (j0 <? length (Sink.div root_dir "pending"))%nat
              then Py.NotADirectoryError else Py.FileExistsError).
Proof.
  intros Hj Hfile Hbefore.
  assert (H : Sink.mkdir_p fs (Sink.div root_dir "pending")
              = Py.Raise (if (j0 <? length (Sink.div root_dir "pending"))%nat
                          then Py.NotADirectoryError else Py.FileExistsError)).
  { unfold Sink.mkdir_p. apply (mkdir_prefixes_file _ c j0); try assumption. lia. }
  unfold Sink.init. cbv zeta. cbn [Sink.pending Sink.done Sink.failed].
  rewrite H. reflexivity.
Qed.

Lemma init_refuses_file_in_the_way_witness :
  Sink.init ["var"; "queue"] {[ ["var"; "queue"; "pending"] := Sink.File "x" ]}
  = Py.Raise Py.FileExistsError
  /\ Sink.init ["var"; "queue"] {[ ["var"] := Sink.File "x" ]}
     = Py.Raise Py.NotADirectoryError.
Proof.
  split.
  - apply (init_refuses_file_in_the_way ["var"; "queue"] _ "x" 3).
    + cbn. lia.
    + reflexivity.
    + intros j c' Hj.
      assert (Hc : j = 1%nat \/ j = 2%nat) by lia.
      destruct Hc as [-> | ->]; vm_compute; discriminate.
  - apply (init_refuses_file_in_the_way ["var"; "queue"] _ "x" 1).
    + cbn. lia.
    + reflexivity.
    + intros j c' Hj. lia.
Defined.

(** ** [emit]: what it touches, when it succeeds, what a failure leaves *)

Lemma emit_touches_pending_only (os : Sink.System) (self : Sink.FileIntentSink)
    (token s : string) (fs fs' : gmap (list string) Sink.Node) (p : list string) :
  Sink.emit os self token s fs = Py.Ok fs' ->
  Sink.parent p <> Sink.pending self ->
  fs' !! p = fs !! p.
Proof.
  intros H Hp. apply emit_Ok in H. subst fs'.
  rewrite lookup_insert_ne, lookup_delete_ne; [reflexivity | |];
    intros <-; apply Hp; [apply parent_tmp_path | apply parent_final_path].
Qed.

(** X5: producers only ever write in [pending].  After any sequence of
    successful [emit] calls, every path that is not a direct child of the
    [pending] directory (in particular everything under [done] and [failed])
    is exactly as it was. *)
Theorem emit_all_touches_pending_only (os : Sink.System)
    (self : Sink.FileIntentSink) (calls : list (string * string))
    (fs fs' : gmap (list string) Sink.Node) (p : list string) :
  Sink.emit_all os self calls fs = Py.Ok fs' ->
  Sink.parent p <> Sink.pending self ->
  fs' !! p = fs !! p.
Proof.
  revert fs. induction calls as [|[token s] rest IH]; intros fs H Hp.
  - cbn in H. now injection H as <-.
  - cbn [Sink.emit_all] in H. apply bind_Ok_inv in H as (fs1 & H1 & H).
    rewrite (IH fs1 H Hp). eapply emit_touches_pending_only; eassumption.
Qed.

Lemma emit_all_touches_pending_only_witness :
  exists fs',
    Sink.emit_all Fixtures.reliable Fixtures.sink0
      [(Fixtures.token_a, "[1,2]"); (Fixtures.token_b, "[3]")] Fixtures.fs_ready
    = Py.Ok fs'
    /\ fs' !! Sink.div (Sink.done Fixtures.sink0) "old.json"
       = Fixtures.fs_ready !! Sink.div (Sink.done Fixtures.sink0) "old.json".
Proof.
  eexists. split; [reflexivity |].
  eapply (emit_all_touches_pending_only Fixtures.reliable Fixtures.sink0
            [(Fixtures.token_a, "[1,2]"); (Fixtures.token_b, "[3]")]
            Fixtures.fs_ready); [reflexivity |].
  vm_compute. discriminate.
Defined.

(** X6: a token that collides with an entry already in [pending] makes
    [emit] replace that entry: when the call succeeds, the entry holds the new
    text (a reader in text mode gets it with universal newlines applied),
    and no name is added to [pending]. *)
Theorem emit_collision_replaces_entry (os : Sink.System)
    (self : Sink.FileIntentSink) (token s old : string)
    (fs fs' : gmap (list string) Sink.Node) :
  fs !! Sink.final_path self token = Some (Sink.File old) ->
  Sink.emit os self token s fs = Py.Ok fs' ->
  fs' !! Sink.final_path self token = Some (Sink.File s)
  /\ Sink.read_text fs' (Sink.final_path self token)
     = Py.Ok (Sink.universal_newlines s)
  /\ Sink.listdir fs' (Sink.pending self)
     = Sink.listdir fs (Sink.pending self) ∖ {[ Sink.fname token +:+ ".tmp" ]}.
Proof.
  intros Hold H. apply emit_Ok in H. subst fs'. split; [| split].
  - apply lookup_insert_eq.
  - unfold Sink.read_text, Sink.final_path. rewrite node_at_div.
    now rewrite lookup_insert_eq.
  - rewrite listdir_after_emit.
    assert (Hin : Sink.fname token ∈ Sink.listdir fs (Sink.pending self)).
    { apply elem_of_listdir. fold (Sink.final_path self token).
      rewrite Hold. eauto. }
    apply set_eq. intros n.
    rewrite elem_of_union, !elem_of_difference, elem_of_singleton,
      not_elem_of_singleton.
    split.
    + intros [-> | H]; [| exact H]. split; [exact Hin |].
      apply not_eq_sym, tmp_name_neq_fname.
    + intros H. now right.
Qed.

Lemma emit_collision_replaces_entry_witness :
  exists fs1 fs2,
    Sink.emit Fixtures.reliable Fixtures.sink0 Fixtures.token_a "[1,2]"
      Fixtures.fs_ready = Py.Ok fs1
    /\ Sink.emit Fixtures.reliable Fixtures.sink0 Fixtures.token_a "[9]" fs1
       = Py.Ok fs2
    /\ fs2 !! Sink.final_path Fixtures.sink0 Fixtures.token_a
       = Some (Sink.File "[9]").
Proof.
  set (fs1 := <[Sink.final_path Fixtures.sink0 Fixtures.token_a := Sink.File "[1,2]"]>
                (delete (Sink.tmp_path Fixtures.sink0 Fixtures.token_a)
                   Fixtures.fs_ready)).
  set (fs2 := <[Sink.final_path Fixtures.sink0 Fixtures.token_a := Sink.File "[9]"]>
                (delete (Sink.tmp_path Fixtures.sink0 Fixtures.token_a) fs1)).
  exists fs1, fs2. split; [reflexivity |]. split; [reflexivity |].
  apply (emit_collision_replaces_entry Fixtures.reliable Fixtures.sink0
           Fixtures.token_a "[9]" "[1,2]" fs1 fs2); reflexivity.
Defined.


(** The run that keeps the disk of a failed call agrees with [emit]. *)
Lemma emit_attempt_agrees (os : Sink.System) (self : Sink.FileIntentSink)
    (token s : string) (fs : gmap (list string) Sink.Node) :
  match Sink.emit os self token s fs with
  | Py.Ok fs' => SinkRun.emit_attempt os self token s fs = (Py.Ok tt, fs')
  | Py.Raise e =>
      exists fs', SinkRun.emit_attempt os self token s fs = (Py.Raise e, fs')
  end.
Proof.
  unfold Sink.emit, SinkRun.emit_attempt, Sink.write_text, Sink.path_rename,
    Sink.granted.
  cbv zeta.
  destruct (Sink.open_w fs (Sink.tmp_path self token)) as [fs0|e] eqn:Ho;
    [| cbn; eauto].
  rewrite bind_Ok.
  destruct (os fs _); [| cbn; eauto]. rewrite bind_Ok.
  apply open_w_Ok in Ho. subst fs0.
  destruct (os _ (Sink.SysWrite _ _)) as [|n].
  - rewrite bind_Ok. rewrite !append_chunk_after_open. rewrite bind_Ok.
    destruct (Sink.rename _ _ _) as [fs2|e]; [| cbn; eauto].
    rewrite bind_Ok. destruct (os _ _); cbn; eauto.
  - rewrite !append_chunk_after_open. cbn. eauto.
Qed.

(** The states in which a failing [emit] leaves the disk are states of an
    [emit] interrupted before its rename. *)
Lemma emit_attempt_failure_is_interruption (os : Sink.System)
    (self : Sink.FileIntentSink) (token s : string)
    (fs fs' : gmap (list string) Sink.Node) (e : Py.Exn) :
  SinkRun.emit_attempt os self token s fs = (Py.Raise e, fs') ->
  exists pr, Sink.emit_interrupted self token s pr fs = Py.Ok fs'.
Proof.
  unfold SinkRun.emit_attempt. cbv zeta.
  assert (Hfull : String.substring 0 (String.length s) s = s).
  { clear. induction s as [|c r IH]; [reflexivity |]. cbn. now rewrite IH. }
  destruct (Sink.open_w fs (Sink.tmp_path self token)) as [fs0|e0] eqn:Ho.
  2: { intros [= _ <-]. now exists Sink.NotStarted. }
  destruct (os fs _).
  2: { intros [= _ <-]. now exists Sink.NotStarted. }
  destruct (os _ (Sink.SysWrite _ _)) as [|n].
  - destruct (Sink.append_chunk fs0 _ s) as [fs1|e1] eqn:Ha.
    2: { intros [= _ <-]. now exists Sink.Opened. }
    assert (Hw : Sink.emit_interrupted self token s
                   (Sink.Written (String.length s)) fs = Py.Ok fs1).
    { cbn [Sink.emit_interrupted]. cbv zeta. now rewrite Ho, bind_Ok, Hfull. }
    destruct (Sink.rename _ _ _) as [fs2|e2].
    + destruct (os _ _); [discriminate |]. intros [= _ <-]. eauto.
    + intros [= _ <-]. eauto.
  - destruct (Sink.append_chunk fs0 _ _) as [fs1|e1] eqn:Ha.
    + intros [= _ <-]. exists (Sink.Written n).
      cbn [Sink.emit_interrupted]. cbv zeta. now rewrite Ho, bind_Ok.
    + intros [= _ <-]. now exists Sink.Opened.
Qed.

(** What an interrupted [emit] leaves on the disk. *)
Lemma emit_interrupted_Ok (self : Sink.FileIntentSink) (token s : string)
    (pr : Sink.Progress) (fs fs' : gmap (list string) Sink.Node) :
  Sink.emit_interrupted self token s pr fs = Py.Ok fs' ->
  fs' = fs
  \/ exists k, fs' = <[Sink.tmp_path self token
                        := Sink.File (String.substring 0 k s)]> fs.
Proof.
  destruct pr as [| |n]; cbn [Sink.emit_interrupted]; cbv zeta; intros H.
  - injection H as <-. now left.
  - apply open_w_Ok in H. subst fs'. right. exists 0%nat.
    now destruct s.
  - apply bind_Ok_inv in H as (fs1 & Ho & H). apply open_w_Ok in Ho. subst fs1.
    rewrite append_chunk_after_open in H. injection H as <-. right. now exists n.
Qed.

(** X8: a failed [emit] never leaves a [.json] entry behind, but it does
    not clean up either.  If the call raises, the disk is as an [emit]
    interrupted before its rename leaves it: every path other than the
    temporary path, and so every [.json] name in [pending], is as it was, and
    the disk is either untouched (the temporary file could not be opened) or
    holds a [.json.tmp] file with the first characters of the text: all of
    them when it is the rename that failed, fewer when the write was cut
    short. *)
Theorem emit_failure_leaves_no_entry (os : Sink.System)
    (self : Sink.FileIntentSink) (token s : string)
    (fs fs' : gmap (list string) Sink.Node) (e : Py.Exn) :
  SinkRun.emit_attempt os self token s fs = (Py.Raise e, fs') ->
  Sink.emit os self token s fs = Py.Raise e
  /\ (exists pr, Sink.emit_interrupted self token s pr fs = Py.Ok fs')
  /\ (forall p, p <> Sink.tmp_path self token -> fs' !! p = fs !! p)
  /\ (forall n, Sink.ends_with ".json" n ->
        fs' !! Sink.div (Sink.pending self) n = fs !! Sink.div (Sink.pending self) n)
  /\ (fs' = fs
      \/ exists k, fs' = <[Sink.tmp_path self token
                            := Sink.File (String.substring 0 k s)]> fs).
Proof.
  intros H.
  assert (Hemit : Sink.emit os self token s fs = Py.Raise e).
  { pose proof (emit_attempt_agrees os self token s fs) as A.
    destruct (Sink.emit os self token s fs) as [fs2|e2].
    - rewrite A in H. discriminate.
    - destruct A as [fs2 A]. rewrite A in H. now injection H as <- _. }
  split; [exact Hemit |].
  destruct (emit_attempt_failure_is_interruption _ _ _ _ _ _ _ H) as [pr Hpr].
  split; [now exists pr |].
  assert (Hframe : forall p, p <> Sink.tmp_path self token -> fs' !! p = fs !! p).
  { intros p Hp. eapply emit_interrupted_frame; eassumption. }
  split; [exact Hframe |]. split; [| eapply emit_interrupted_Ok; eassumption].
  intros n Hn. apply Hframe. unfold Sink.tmp_path. intros E.
  apply div_inj in E. subst n. now apply tmp_name_not_json in Hn.
Qed.

Lemma emit_failure_leaves_no_entry_witness :
  SinkRun.emit_attempt Fixtures.full_disk Fixtures.sink0 Fixtures.token_a "[1,2]"
    Fixtures.fs_ready
  = (Py.Raise Py.OSError,
     <[Sink.tmp_path Fixtures.sink0 Fixtures.token_a := Sink.File "[1"]>
       Fixtures.fs_ready)
  /\ Sink.emit Fixtures.full_disk Fixtures.sink0 Fixtures.token_a "[1,2]"
       Fixtures.fs_ready
     = Py.Raise Py.OSError
  /\ forall n, Sink.ends_with ".json" n ->
       (<[Sink.tmp_path Fixtures.sink0 Fixtures.token_a := Sink.File "[1"]>
          Fixtures.fs_ready) !! Sink.div (Sink.pending Fixtures.sink0) n
       = Fixtures.fs_ready !! Sink.div (Sink.pending Fixtures.sink0) n.
Proof.
  split; [reflexivity |].
  destruct (emit_failure_leaves_no_entry Fixtures.full_disk Fixtures.sink0
              Fixtures.token_a "[1,2]" Fixtures.fs_ready
              (<[Sink.tmp_path Fixtures.sink0 Fixtures.token_a := Sink.File "[1"]>
                 Fixtures.fs_ready) Py.OSError eq_refl)
    as (Hemit & _ & _ & Hjson & _).
  split; [exact Hemit | exact Hjson].
Defined.

(** ** The indicators at their edges *)

(** X9: [_ema] looks at the period before it looks at the data.  A period
    of -1 raises ZeroDivisionError whatever the data; otherwise an empty
    series raises IndexError, and a non-empty one gives a smoothed series of
    the same length that starts at the first value. *)
Theorem ema_outcomes (data : list float) (period : Z) :
  (period = -1 -> HailMary._ema data period = Py.Raise Py.ZeroDivisionError)
  /\ (period <> -1 -> data = [] ->
      HailMary._ema data period = Py.Raise Py.IndexError)
  /\ (forall l, HailMary._ema data period = Py.Ok l ->
        period <> -1 /\ length l = length data /\ head l = head data
        /\ data <> []).
Proof.
  unfold HailMary._ema. split; [| split].
  - intros ->. reflexivity.
  - intros Hp ->. destruct (period + 1 =? 0) eqn:E; [| reflexivity].
    apply Z.eqb_eq in E. lia.
  - intros l H. destruct (period + 1 =? 0) eqn:E; [discriminate |].
    apply Z.eqb_neq in E. destruct data as [|x r]; [discriminate |].
    injection H as <-. split; [lia |]. cbn [length head].
    rewrite ema_loop_length. repeat split. discriminate.
Qed.

Lemma ema_outcomes_witness :
  exists l, HailMary._ema [1%float; 2%float; 4%float] 1 = Py.Ok l
            /\ length l = 3%nat /\ head l = Some 1%float.
Proof.
  eexists. split; [reflexivity |].
  destruct (ema_outcomes [1%float; 2%float; 4%float] 1) as (_ & _ & H).
  destruct (H _ eq_refl) as (_ & Hlen & Hhead & _).
  split; [exact Hlen | exact Hhead].
Defined.

Lemma np_diff_length (l : list float) :
  length (HailMary.np_diff l) = pred (length l).
Proof.
  induction l as [|x [|y r] IH]; [reflexivity | reflexivity |].
  change (HailMary.np_diff (x :: y :: r))
    with (PrimFloat.sub y x :: HailMary.np_diff (y :: r)).
  cbn [length pred] in *. now rewrite IH.
Qed.

(** X10: [_calculate_rsi] never raises when [rsi_period] is not negative,
    and with fewer price changes than [rsi_period] (that is, with at most
    [rsi_period] closes, for a positive period) it returns the neutral
    value 50.0 without looking at the prices. *)
Theorem calculate_rsi_short_history (np_mean : list float -> float)
    (cfg : HailMary.Config) (closes : list float) :
  0 <= HailMary.rsi_period cfg ->
  (exists v, HailMary._calculate_rsi np_mean cfg closes = Py.Ok v)
  /\ (0 < HailMary.rsi_period cfg ->
      Z.of_nat (length closes) <= HailMary.rsi_period cfg ->
      HailMary._calculate_rsi np_mean cfg closes = Py.Ok 50%float).
Proof.
  intros Hp. split; [now apply calculate_rsi_Ok |].
  intros Hpos Hlen. unfold HailMary._calculate_rsi. cbv zeta.
  rewrite length_map, np_diff_length.
  assert (E : (Z.of_nat (pred (length closes)) <? HailMary.rsi_period cfg) = true).
  { apply Z.ltb_lt. lia. }
  now rewrite E.
Qed.

Lemma calculate_rsi_short_history_witness :
  HailMary._calculate_rsi MarketFixtures.seq_mean HailMary.default_config
    [1%float; 2%float; 3%float]
  = Py.Ok 50%float.
Proof.
  apply (calculate_rsi_short_history MarketFixtures.seq_mean
           HailMary.default_config [1%float; 2%float; 3%float]);
    vm_compute; congruence.
Defined.

(** X11: a [rsi_period] below minus the number of price changes sends the
    smoothing loop to an index in front of the array: [_calculate_rsi] raises
    IndexError. *)
Theorem calculate_rsi_period_too_negative (np_mean : list float -> float)
    (cfg : HailMary.Config) (closes : list float) :
  HailMary.rsi_period cfg < - Z.of_nat (length closes - 1) ->
  HailMary._calculate_rsi np_mean cfg closes = Py.Raise Py.IndexError.
Proof.
  intros Hp. unfold HailMary._calculate_rsi. cbv zeta.
  rewrite !length_map, np_diff_length.
  replace (pred (length closes)) with (length closes - 1)%nat by lia.
  set (n := (length closes - 1)%nat) in *.
  assert (E : (Z.of_nat n <? HailMary.rsi_period cfg) = false)
    by (apply Z.ltb_ge; lia).
  rewrite E. unfold Py.range.
  destruct (Z.to_nat (Z.of_nat n - HailMary.rsi_period cfg)) as [|m] eqn:Em; [lia |].
  cbn [seq map HailMary.rsi_loop].
  assert (Hidx : forall l : list float, length l = n ->
            Py.index l (HailMary.rsi_period cfg + Z.of_nat 0) = Py.Raise Py.IndexError).
  { intros l Hl. unfold Py.index. rewrite Hl.
    assert (Hneg : (HailMary.rsi_period cfg + Z.of_nat 0 <? 0) = true)
      by (apply Z.ltb_lt; lia).
    rewrite Hneg.
    assert (Hj : (HailMary.rsi_period cfg + Z.of_nat 0 + Z.of_nat n <? 0) = true)
      by (apply Z.ltb_lt; lia).
    now rewrite Hj. }
  rewrite !Hidx by (rewrite length_map, np_diff_length; subst n; lia).
  reflexivity.
Qed.

Lemma calculate_rsi_period_too_negative_witness :
  HailMary._calculate_rsi MarketFixtures.seq_mean
    {| HailMary.lookback := 14; HailMary.atr_mult := 1%float;
       HailMary.min_body_ratio := 1%float; HailMary.fast_period := 5;
       HailMary.slow_period := 13; HailMary.roc_period := 3;
       HailMary.roc_threshold := 1%float; HailMary.rsi_period := -5;
       HailMary.rsi_oversold := 20%float; HailMary.rsi_overbought := 80%float |}
    [1%float; 2%float; 3%float]
  = Py.Raise Py.IndexError.
Proof.
  apply calculate_rsi_period_too_negative. vm_compute. reflexivity.
Defined.

(** ** [on_bar]: a bad period, and the debug line *)

(** X12: with sufficient history and [fast_period = -1], [on_bar] raises
    ZeroDivisionError instead of deciding: nothing is printed, the instance is
    unchanged, and the installed wrapper passes the error on without
    logging. *)
Theorem on_bar_fast_period_minus_one (np_mean : list float -> float)
    (log_handle : Base.LogRecord -> Py.result unit)
    (self : Base.Object HailMary.Config) (ms : Base.MarketState)
    (ps : Base.PositionState) (clk : Base.Clock) (bars : list Base.Bar) :
  HailMary.fast_period (Base.fields self) = -1 ->
  HailMary.required_bars (Base.fields self) <= Base.bar_count ms ->
  Base.recent_bars ms (HailMary.required_bars (Base.fields self))
  = Py.Ok (Some bars) ->
  HailMary.required_bars (Base.fields self) <= Z.of_nat (length bars) ->
  HailMary.on_bar_body np_mean self ms ps clk
  = (Py.Raise Py.ZeroDivisionError, self, [])
  /\ HailMary.call_on_bar np_mean log_handle self ms ps clk
     = (Py.Raise Py.ZeroDivisionError, self, []).
Proof.
  intros Hfast Hcount Hbars Hlen.
  assert (Hbody : HailMary.on_bar_body np_mean self ms ps clk
                  = (Py.Raise Py.ZeroDivisionError, self, [])).
  { unfold HailMary.on_bar_body. cbv zeta.
    apply Z.ltb_ge in Hcount. rewrite Hcount, Hbars.
    apply Z.ltb_ge in Hlen. rewrite Hlen.
    unfold HailMary.decide_signal. cbv zeta.
    unfold HailMary._ema at 1. rewrite Hfast. reflexivity. }
  split; [exact Hbody |].
  unfold HailMary.call_on_bar, HailMary.CompetitionHailMary, Base.init_subclass.
  cbn [Base.on_bar Base._diagnostic_wrapped]. unfold Base.wrapped.
  now rewrite Hbody.
Qed.

Lemma on_bar_fast_period_minus_one_witness :
  let broken := {| Base.fields :=
                     {| HailMary.lookback := 14; HailMary.atr_mult := 1%float;
                        HailMary.min_body_ratio := 1%float;
                        HailMary.fast_period := -1; HailMary.slow_period := 13;
                        HailMary.roc_period := 3; HailMary.roc_threshold := 1%float;
                        HailMary.rsi_period := 7; HailMary.rsi_oversold := 20%float;
                        HailMary.rsi_overbought := 80%float |};
                   Base.attrs := Base.attrs MarketFixtures.explaining |} in
  HailMary.call_on_bar MarketFixtures.seq_mean MarketFixtures.quiet_handler broken
    (MarketFixtures.snapshot 24) MarketFixtures.flat MarketFixtures.clock0
  = (Py.Raise Py.ZeroDivisionError, broken, []).
Proof.
  intros broken.
  apply (on_bar_fast_period_minus_one MarketFixtures.seq_mean
           MarketFixtures.quiet_handler broken (MarketFixtures.snapshot 24)
           MarketFixtures.flat MarketFixtures.clock0 (MarketFixtures.rising_bars 24)).
  - reflexivity.
  - vm_compute. discriminate.
  - reflexivity.
  - vm_compute. discriminate.
Defined.

Lemma decide_signal_line (np_mean : list float -> float)
    (cfg : HailMary.Config) (bars : list Base.Bar)
    (signal : Base.IntentType) (line : list Base.PrintArg) :
  HailMary.decide_signal np_mean cfg bars = Py.Ok (signal, line) ->
  exists last_bar rest,
    Py.index bars (-1) = Py.Ok last_bar
    /\ line = Base.PStr (Base.symbol last_bar)
              :: Base.PStr (Base.IntentType_value signal) :: rest
    /\ length rest = 8%nat.
Proof.
  unfold HailMary.decide_signal. cbv beta zeta. intros H.
  bind_inv H fast_ema Efast. bind_inv H slow_ema Eslow.
  bind_inv H cross_up Ecu. bind_inv H cross_down Ecd.
  bind_inv H h1 Eh1. bind_inv H l1 El1. bind_inv H rsi Ersi.
  bind_inv H f1 Ef1. bind_inv H s1 Es1.
  bind_inv H oversold_up Eou. bind_inv H chosen Esig.
  bind_inv H last_bar Elast. bind_inv H price Eprice.
  bind_inv H fast_last Efl. bind_inv H slow_last Esl.
  injection H as <- <-. eauto.
Qed.

(** X13: [on_bar] prints its debug line exactly when it decides to trade.
    A returned HOLD comes with no output at all; a returned BUY or SELL comes
    with one printed line, whose first two values are the symbol of the last
    bar received and the name of the very decision that is returned. *)
Theorem on_bar_debug_line_matches_decision (np_mean : list float -> float)
    (self self' : Base.Object HailMary.Config) (ms : Base.MarketState)
    (ps : Base.PositionState) (clk : Base.Clock)
    (i : Base.TradeIntent) (out : list Base.Event) :
  HailMary.on_bar_body np_mean self ms ps clk = (Py.Ok (Some i), self', out) ->
  (Base.is_hold i = true /\ out = [])
  \/ (Base.is_hold i = false
      /\ exists bars last_bar rest,
           Base.recent_bars ms (HailMary.required_bars (Base.fields self))
           = Py.Ok (Some bars)
           /\ Py.index bars (-1) = Py.Ok last_bar
           /\ out = [Base.Printed
                       (Base.PStr (Base.symbol last_bar)
                        :: Base.PStr (Base.IntentType_value (Base.type i)) :: rest)]).
Proof.
  unfold HailMary.on_bar_body, HailMary.returning. cbv zeta.
  destruct (Base.bar_count ms <? _).
  { intros [= <- _ <-]. now left. }
  destruct (Base.recent_bars ms _) as [[bars|]|e] eqn:Hbars.
  - destruct (Z.of_nat (length bars) <? _).
    { intros [= <- _ <-]. now left. }
    destruct (HailMary.decide_signal np_mean (Base.fields self) bars)
      as [[signal line]|e] eqn:Hsig; [| discriminate].
    rewrite TradeIntent_new_full_size. intros [= <- _ <-]. right.
    pose proof (decide_signal_buy_or_sell _ _ _ _ _ Hsig) as Hbs.
    apply decide_signal_line in Hsig as (last_bar & rest & Hlast & -> & _).
    split; [destruct Hbs as [-> | ->]; reflexivity |].
    exists bars, last_bar, rest. auto.
  - intros [= <- _ <-]. now left.
  - discriminate.
Qed.

Lemma on_bar_debug_line_matches_decision_witness :
  exists out,
    HailMary.on_bar_body MarketFixtures.seq_mean
      (HailMary.new HailMary.default_config) (MarketFixtures.snapshot 24)
      MarketFixtures.flat MarketFixtures.clock0
    = (Py.Ok (Some {| Base.type := Base.BUY; Base.size := 1%float |}),
       HailMary.new HailMary.default_config, out)
    /\ exists rest, out = [Base.Printed (Base.PStr "EURUSD" :: Base.PStr "BUY" :: rest)].
Proof.
  eexists. split; [vm_compute; reflexivity |].
  destruct (on_bar_debug_line_matches_decision MarketFixtures.seq_mean
              (HailMary.new HailMary.default_config)
              (HailMary.new HailMary.default_config) (MarketFixtures.snapshot 24)
              MarketFixtures.flat MarketFixtures.clock0
              {| Base.type := Base.BUY; Base.size := 1%float |} _
              ltac:(vm_compute; reflexivity))
    as [[Hhold _] | (_ & bars & last_bar & rest & _ & _ & Hout)];
    [discriminate |].
  eexists. reflexivity.
Defined.

(** ** The diagnostic hook: what it logs and what it changes *)

(** X14: [__init_subclass__] wraps [on_bar] at most once.  Running it on a
    class it has already processed changes nothing; a class without an
    [on_bar] is left as it is, and any other class comes out flagged as
    wrapped. *)
Theorem init_subclass_wraps_at_most_once {S : Type}
    (log_handle : Base.LogRecord -> Py.result unit) (cls : Base.Class S) :
  Base.init_subclass log_handle (Base.init_subclass log_handle cls)
  = Base.init_subclass log_handle cls
  /\ match Base.on_bar cls with
     | None => Base.init_subclass log_handle cls = cls
     | Some m =>
         Base._diagnostic_wrapped (Base.init_subclass log_handle cls) = true
         /\ Base.on_bar (Base.init_subclass log_handle cls)
            = Some (if Base._diagnostic_wrapped cls then m
                    else Base.wrapped log_handle cls m)
     end.
Proof.
  split; [apply init_subclass_idempotent |].
  unfold Base.init_subclass.
  destruct (Base.on_bar cls) as [m|] eqn:Hm; [| reflexivity].
  destruct (Base._diagnostic_wrapped cls) eqn:Hw; cbn; auto.
Qed.

(** X15: the hook logs decisions to trade, and nothing else.  Whatever it
    emits is either nothing or a single log record; a record appears only
    when [explain_decisions] is set, the decision is present and not HOLD, and
    the current bar could be read; it carries LONG, SHORT or CLOSE for BUY,
    SELL or CLOSE, the decision's size as both confidence and size, and the
    timestamp text of that bar. *)
Theorem log_signal_intent_logs_only_decisions {S : Type}
    (log_handle : Base.LogRecord -> Py.result unit)
    (cls : Base.Class S) (self self1 : Base.Object S)
    (intent : option Base.TradeIntent) (ms : Base.MarketState)
    (r : Py.result unit) (out : list Base.Event) :
  Base._log_signal_intent log_handle cls self intent ms = (r, self1, out) ->
  out = []
  \/ exists i bar record,
       out = [Base.Logged record]
       /\ r = Py.Ok tt
       /\ intent = Some i /\ Base.type i <> Base.HOLD
       /\ Base.truthy (Base.explain_decisions (Base.attrs self)) = true
       /\ Base.current_bar ms = Py.Ok bar
       /\ Base.log_direction record
          = match Base.type i with
            | Base.BUY => "LONG"
            | Base.SELL => "SHORT"
            | _ => "CLOSE"
            end
       /\ Base.log_confidence record = Base.size i
       /\ Base.log_size record = Base.size i
       /\ Base.log_ts record = Base.ts_text bar.
Proof.
  unfold Base._log_signal_intent.
  destruct (Base.truthy (Base.explain_decisions (Base.attrs self))) eqn:Hon;
    cbn [negb].
  2: { intros [= _ _ <-]. now left. }
  destruct intent as [i|]; [| intros [= _ _ <-]; now left].
  destruct (Base.is_hold i) eqn:Hhold; [intros [= _ _ <-]; now left |].
  destruct (Base.current_bar ms) as [bar|e]; [| intros [= _ _ <-]; now left].
  cbv zeta.
  destruct (Base.display_name cls _) as [nm|e]; [| intros [= _ _ <-]; now left].
  destruct (log_handle _) as [[]|e] eqn:Hlog; [| intros [= _ _ <-]; now left].
  intros [= <- _ <-]. right.
  do 3 eexists. split; [reflexivity |]. split; [reflexivity |].
  split; [reflexivity |].
  assert (Hnot : Base.type i <> Base.HOLD).
  { unfold Base.is_hold in Hhold. destruct (Base.type i); congruence. }
  split; [exact Hnot |]. split; [reflexivity |]. split; [reflexivity |].
  cbn [Base.log_direction Base.log_confidence Base.log_size Base.log_ts].
  unfold Base.direction_of. destruct (Base.type i); try contradiction; auto.
Qed.

Lemma log_signal_intent_logs_only_decisions_witness :
  exists self1 record,
    Base._log_signal_intent MarketFixtures.quiet_handler
      (HailMary.CompetitionHailMary MarketFixtures.seq_mean MarketFixtures.quiet_handler)
      MarketFixtures.explaining
      (Some {| Base.type := Base.SELL; Base.size := 0x1p-1%float |})
      (MarketFixtures.snapshot 24)
    = (Py.Ok tt, self1, [Base.Logged record])
    /\ Base.log_direction record = "SHORT"
    /\ Base.log_confidence record = 0x1p-1%float.
Proof.
  do 2 eexists. split; [vm_compute; reflexivity |].
  destruct (log_signal_intent_logs_only_decisions MarketFixtures.quiet_handler
              (HailMary.CompetitionHailMary MarketFixtures.seq_mean
                 MarketFixtures.quiet_handler)
              MarketFixtures.explaining _
              (Some {| Base.type := Base.SELL; Base.size := 0x1p-1%float |})
              (MarketFixtures.snapshot 24) _ _ ltac:(vm_compute; reflexivity))
    as [Hnil | (i & bar & record & Hout & _ & Hi & _ & _ & _ & Hdir & Hconf & _)].
  - discriminate.
  - injection Hout as <-. injection Hi as <-. split; [exact Hdir | exact Hconf].
Defined.

(** X16: the only thing the hook ever changes on the instance is the
    cached logger.  The instance's own fields, [explain_decisions] and [name]
    come back untouched; a logger that is already cached is never replaced;
    one that is newly cached is named after the module and the class. *)
Theorem log_signal_intent_only_caches_logger {S : Type}
    (log_handle : Base.LogRecord -> Py.result unit)
    (cls : Base.Class S) (self self1 : Base.Object S)
    (intent : option Base.TradeIntent) (ms : Base.MarketState)
    (r : Py.result unit) (out : list Base.Event) :
  Base._log_signal_intent log_handle cls self intent ms = (r, self1, out) ->
  Base.fields self1 = Base.fields self
  /\ Base.explain_decisions (Base.attrs self1)
     = Base.explain_decisions (Base.attrs self)
  /\ Base.name (Base.attrs self1) = Base.name (Base.attrs self)
  /\ match Base._diagnostic_logger (Base.attrs self) with
     | Some l => self1 = self
     | None =>
         self1 = self
         \/ Base._diagnostic_logger (Base.attrs self1)
            = Some ("hypotheses.base." +:+ Base.cls_name cls)
     end.
Proof.
  unfold Base._log_signal_intent.
  assert (Hsame : forall o : Base.Object S,
            match Base._diagnostic_logger (Base.attrs o) with
            | Some _ => o = o
            | None => o = o \/ Base._diagnostic_logger (Base.attrs o)
                              = Some ("hypotheses.base." +:+ Base.cls_name cls)
            end).
  { intros o. destruct (Base._diagnostic_logger (Base.attrs o)); auto. }
  destruct (negb _); [intros [= _ <- _]; repeat split; apply Hsame |].
  destruct intent as [i|]; [| intros [= _ <- _]; repeat split; apply Hsame].
  destruct (Base.is_hold i); [intros [= _ <- _]; repeat split; apply Hsame |].
  destruct (Base.current_bar ms) as [bar|e];
    [| intros [= _ <- _]; repeat split; apply Hsame].
  cbv zeta.
  destruct (Base._diagnostic_logger (Base.attrs self)) as [l|] eqn:Hc.
  - destruct (Base.display_name cls self) as [nm|e].
    + destruct (log_handle _) as [u|e]; intros [= _ <- _]; repeat split.
    + intros [= _ <- _]. repeat split.
  - destruct (Base.display_name cls _) as [nm|e].
    + destruct (log_handle _) as [u|e]; intros [= _ <- _];
        repeat split; right; reflexivity.
    + intros [= _ <- _]. repeat split. right. reflexivity.
Qed.

Lemma log_signal_intent_only_caches_logger_witness :
  exists self1,
    Base._log_signal_intent MarketFixtures.failing_handler
      (HailMary.CompetitionHailMary MarketFixtures.seq_mean MarketFixtures.failing_handler)
      MarketFixtures.explaining
      (Some {| Base.type := Base.BUY; Base.size := 1%float |})
      (MarketFixtures.snapshot 24)
    = (Py.Raise (Py.OtherError "handler failed"), self1, [])
    /\ Base.fields self1 = HailMary.default_config
    /\ Base._diagnostic_logger (Base.attrs self1)
       = Some "hypotheses.base.CompetitionHailMary".
Proof.
  eexists. split; [vm_compute; reflexivity |].
  destruct (log_signal_intent_only_caches_logger MarketFixtures.failing_handler
              (HailMary.CompetitionHailMary MarketFixtures.seq_mean
                 MarketFixtures.failing_handler)
              MarketFixtures.explaining _
              (Some {| Base.type := Base.BUY; Base.size := 1%float |})
              (MarketFixtures.snapshot 24) _ _ ltac:(vm_compute; reflexivity))
    as (Hf & _).
  split; [exact Hf | reflexivity].
Defined.

(** The hook emits nothing, or one log record. *)
Lemma log_signal_intent_output {S : Type}
    (log_handle : Base.LogRecord -> Py.result unit)
    (cls : Base.Class S) (self self1 : Base.Object S)
    (intent : option Base.TradeIntent) (ms : Base.MarketState)
    (r : Py.result unit) (out : list Base.Event) :
  Base._log_signal_intent log_handle cls self intent ms = (r, self1, out) ->
  out = [] \/ exists record, out = [Base.Logged record].
Proof.
  unfold Base._log_signal_intent.
  destruct (negb _); [intros [= _ _ <-]; now left |].
  destruct intent as [i|]; [| intros [= _ _ <-]; now left].
  destruct (Base.is_hold i); [intros [= _ _ <-]; now left |].
  destruct (Base.current_bar ms) as [bar|e]; [| intros [= _ _ <-]; now left].
  cbv zeta.
  destruct (Base.display_name cls _) as [nm|e]; [| intros [= _ _ <-]; now left].
  destruct (log_handle _) as [u|e]; intros [= _ _ <-]; eauto.
Qed.

(** X17: the wrapper adds at most one log record behind whatever the
    inner [on_bar] emitted, and never touches the fields of the instance.  If
    the inner function raises, the hook is not run at all: the same error
    comes out with the same instance and the same output. *)
Theorem wrapped_adds_at_most_one_record {S : Type}
    (log_handle : Base.LogRecord -> Py.result unit)
    (cls : Base.Class S) (original : Base.Method S) (self self1 self2 : Base.Object S)
    (ms : Base.MarketState) (ps : Base.PositionState) (clk : Base.Clock)
    (r0 r : Py.result (option Base.TradeIntent)) (out1 out : list Base.Event) :
  original self ms ps clk = (r0, self1, out1) ->
  Base.wrapped log_handle cls original self ms ps clk = (r, self2, out) ->
  Base.fields self2 = Base.fields self1
  /\ (exists out2, out = out1 ++ out2
        /\ (out2 = [] \/ exists record, out2 = [Base.Logged record]))
  /\ (forall e, r0 = Py.Raise e -> r = Py.Raise e /\ self2 = self1 /\ out = out1).
Proof.
  intros Horig. unfold Base.wrapped. rewrite Horig.
  destruct r0 as [intent|e0].
  - destruct (Base._log_signal_intent log_handle cls self1 intent ms)
      as [[rh s2] o2] eqn:Hhook.
    pose proof (log_signal_intent_repeat _ _ _ _ _ _ _ _ Hhook) as (_ & Hf).
    pose proof (log_signal_intent_output _ _ _ _ _ _ _ _ Hhook) as Hshape.
    destruct rh as [u|e]; intros [= <- <- <-];
      (split; [exact Hf |]); (split; [eauto |]); intros e' [=].
  - intros [= <- <- <-]. split; [reflexivity |]. split.
    + exists []. rewrite app_nil_r. auto.
    + intros e [= <-]. auto.
Qed.

Lemma wrapped_adds_at_most_one_record_witness :
  exists out1 self2 record,
    HailMary.on_bar_body MarketFixtures.seq_mean MarketFixtures.explaining
      (MarketFixtures.snapshot 24) MarketFixtures.flat MarketFixtures.clock0
    = (Py.Ok (Some {| Base.type := Base.BUY; Base.size := 1%float |}),
       MarketFixtures.explaining, out1)
    /\ HailMary.call_on_bar MarketFixtures.seq_mean MarketFixtures.quiet_handler
         MarketFixtures.explaining (MarketFixtures.snapshot 24)
         MarketFixtures.flat MarketFixtures.clock0
       = (Py.Ok (Some {| Base.type := Base.BUY; Base.size := 1%float |}),
          self2, out1 ++ [Base.Logged record])
    /\ Base.fields self2 = Base.fields MarketFixtures.explaining.
Proof.
  do 3 eexists. split; [vm_compute; reflexivity |].
  split; [vm_compute; reflexivity |].
  eapply (wrapped_adds_at_most_one_record MarketFixtures.quiet_handler
            {| Base.cls_name := "CompetitionHailMary";
               Base.hypothesis_id := fun _ => Py.Ok "competition_hail_mary";
               Base.on_bar := Some (HailMary.on_bar_body MarketFixtures.seq_mean);
               Base._diagnostic_wrapped := false |}
            (HailMary.on_bar_body MarketFixtures.seq_mean)
            MarketFixtures.explaining MarketFixtures.explaining _
            (MarketFixtures.snapshot 24) MarketFixtures.flat MarketFixtures.clock0);
    vm_compute; reflexivity.
Defined.

(** ** [find_latest_model] *)

#[local] Instance by_name_trans : Transitive Telebot.by_name.
Proof.
  intros a b c. unfold Telebot.by_name. intros H1 H2. now transitivity (Sink.name b).
Qed.

#[local] Instance by_name_total : Total Telebot.by_name.
Proof. intros a b. unfold Telebot.by_name. apply total, _. Qed.

(** In a sorted list every element is below the last one. *)
Lemma last_of_sorted_is_greatest {A : Type} (R : relation A) (l : list A) (x y : A) :
  StronglySorted R l -> last l = Some x -> y ∈ l -> y = x \/ R y x.
Proof.
  intros Hs Hlast Hy. apply last_Some in Hlast as [l' ->].
  apply elem_of_app in Hy as [Hy | Hy].
  - right. eapply StronglySorted_app_1_elem_of; [exact Hs | exact Hy |].
    apply list_elem_of_singleton. reflexivity.
  - left. now apply list_elem_of_singleton in Hy.
Qed.

(** The candidates are the sub-directories of the root whose name
    contains [model_]. *)
Lemma model_candidates (fs : gmap (list string) Sink.Node) (root p : list string) :
  In p (List.filter
          (fun x => Telebot.is_dir fs x && Telebot.contains "model_" (Sink.name x))
          (Telebot.iterdir fs root))
  <-> exists n, p = Sink.div root n
                /\ fs !! Sink.div root n = Some Sink.Dir
                /\ Telebot.contains "model_" n = true.
Proof.
  rewrite filter_In. unfold Telebot.iterdir. rewrite in_map_iff. split.
  - intros [(n & <- & Hn) Hpred]. exists n. split; [reflexivity |].
    rewrite name_div in Hpred. apply andb_prop in Hpred as [Hdir Hc].
    split; [| exact Hc].
    unfold Telebot.is_dir in Hdir. rewrite node_at_div in Hdir.
    destruct (fs !! Sink.div root n) as [[|?]|]; (reflexivity || discriminate).
  - intros (n & -> & Hdir & Hc). split.
    + exists n. split; [reflexivity |].
      apply list_elem_of_In, elem_of_elements, elem_of_listdir.
      rewrite Hdir. eauto.
    + rewrite name_div, Hc. unfold Telebot.is_dir.
      rewrite node_at_div, Hdir. reflexivity.
Qed.

(** X20: when [find_latest_model] returns a path, it is a directory
    directly under the root whose name contains [model_], and its name is the
    greatest, in string order, among all such directories. *)
Theorem find_latest_model_is_greatest (fs : gmap (list string) Sink.Node)
    (root p : list string) :
  Telebot.find_latest_model fs root = Py.Ok (Some p) ->
  exists n,
    p = Sink.div root n
    /\ fs !! p = Some Sink.Dir
    /\ Telebot.contains "model_" n = true
    /\ forall m, fs !! Sink.div root m = Some Sink.Dir ->
                 Telebot.contains "model_" m = true ->
                 String.le m n.
Proof.
  unfold Telebot.find_latest_model.
  destruct (Sink.node_at fs root) as [[|c]|]; try discriminate.
  cbv zeta. intros [= Hlast].
  set (cand := List.filter _ _) in Hlast.
  assert (Hperm : merge_sort Telebot.by_name cand ≡ₚ cand)
    by apply merge_sort_Permutation.
  assert (Hsorted : StronglySorted Telebot.by_name (merge_sort Telebot.by_name cand))
    by apply (StronglySorted_merge_sort _).
  assert (Hp : p ∈ merge_sort Telebot.by_name cand).
  { apply last_Some in Hlast as [l' E]. rewrite E.
    apply elem_of_app. right. apply list_elem_of_singleton. reflexivity. }
  pose proof Hp as Hp'. rewrite Hperm in Hp'.
  apply list_elem_of_In, model_candidates in Hp' as (n & -> & Hdir & Hc).
  exists n. split; [reflexivity |]. split; [exact Hdir |]. split; [exact Hc |].
  intros m Hm Hcm.
  assert (Hin : Sink.div root m ∈ merge_sort Telebot.by_name cand).
  { rewrite Hperm. apply list_elem_of_In, model_candidates. eauto. }
  destruct (last_of_sorted_is_greatest _ _ _ _ Hsorted Hlast Hin) as [E | Hle].
  - apply div_inj in E. subst m. reflexivity.
  - unfold Telebot.by_name in Hle. now rewrite !name_div in Hle.
Qed.

(** X21: [find_latest_model] returns [None] exactly when the root does not
    exist, or is a directory none of whose sub-directories has [model_] in its
    name. *)
Theorem find_latest_model_none_iff (fs : gmap (list string) Sink.Node)
    (root : list string) :
  Telebot.find_latest_model fs root = Py.Ok None
  <-> Sink.node_at fs root = None
      \/ (Sink.node_at fs root = Some Sink.Dir
          /\ forall m, fs !! Sink.div root m = Some Sink.Dir ->
                       Telebot.contains "model_" m = false).
Proof.
  unfold Telebot.find_latest_model.
  destruct (Sink.node_at fs root) as [[|c]|].
  - cbv zeta. set (cand := List.filter _ _).
    assert (Hperm : merge_sort Telebot.by_name cand ≡ₚ cand)
      by apply merge_sort_Permutation.
    split.
    + intros [= Hlast]. right. split; [reflexivity |].
      apply last_None in Hlast. rewrite Hlast in Hperm.
      symmetry in Hperm. apply Permutation_nil_r in Hperm.
      intros m Hm. destruct (Telebot.contains "model_" m) eqn:Hc; [| reflexivity].
      assert (Hin : In (Sink.div root m) cand) by (apply model_candidates; eauto).
      rewrite Hperm in Hin. contradiction.
    + intros [H | [_ Hnone]]; [discriminate |].
      assert (Hnil : cand = []).
      { destruct cand as [|x rest] eqn:E; [reflexivity |]. exfalso.
        assert (Hx : In x cand) by (rewrite E; now left).
        apply model_candidates in Hx as (n & _ & Hdir & Hc).
        rewrite (Hnone n Hdir) in Hc. discriminate. }
      rewrite Hnil. reflexivity.
  - split; [discriminate | intros [H | [H _]]; discriminate].
  - split; [intros _; now left | reflexivity].
Qed.

Lemma find_latest_model_is_greatest_witness :
  Telebot.find_latest_model IntentFixtures.models_dir ["models"; "production"]
  = Py.Ok (Some ["models"; "production"; "model_2024_03"])
  /\ exists n,
       ["models"; "production"; "model_2024_03"]
       = Sink.div ["models"; "production"] n
       /\ IntentFixtures.models_dir !! ["models"; "production"; "model_2024_03"]
          = Some Sink.Dir
       /\ Telebot.contains "model_" n = true
       /\ forall m,
            IntentFixtures.models_dir !! Sink.div ["models"; "production"] m
            = Some Sink.Dir ->
            Telebot.contains "model_" m = true -> String.le m n.
Proof.
  assert (E : Telebot.find_latest_model IntentFixtures.models_dir
                ["models"; "production"]
              = Py.Ok (Some ["models"; "production"; "model_2024_03"]))
    by (vm_compute; reflexivity).
  split; [exact E |].
  exact (find_latest_model_is_greatest IntentFixtures.models_dir
           ["models"; "production"] ["models"; "production"; "model_2024_03"] E).
Defined.
